(** * Time-bucketed DNS statistics engine (stats/stats_unit.go)

    A shallow embedding of the statistics engine of AdGuardHome: the
    per-hour accumulator ([unit]), its persisted form ([unitDB]), the
    bbolt-backed store, the rotation loop, and the query path [GetData],
    followed by the properties established for them.

    Conventions.
    - Go's [int] and [uint] are taken at 64 bits.  Values live in [Z];
      every arithmetic result is passed through [int] or [uint], which
      write out the two's-complement wrap-around.
    - Go maps are [gmap]s.  [range] over a map visits the entries in an
      unspecified order; the embedding visits them in the order of
      [map_to_list].  The order only influences how [sort.Slice] arranges
      entries with equal counts.
    - Go's [float64] is the primitive binary64 type [PrimFloat.float].
    - Run-time panics, [log.Fatalf] and loops that have not finished within
      a given number of iterations are explicit outcomes ([run]).
    - The bbolt file is a finite map from bucket name to bucket contents;
      a transaction is a working copy that replaces the file on commit. *)

From Stdlib Require Import ZArith Lia.
From Stdlib.Init Require Import Byte.
From Stdlib Require Floats.PrimFloat Floats.SpecFloat Floats.FloatOps.
From stdpp Require Import base option list gmap strings sorting.

Open Scope Z_scope.

Module Stats.

(** ** Machine integers *)

Definition wordBits : Z := 64.
Definition modulus : Z := 2 ^ wordBits.
Definition halfModulus : Z := 2 ^ (wordBits - 1).

(** Conversion to [uint]: reduction modulo 2^64. *)
Definition uint (z : Z) : Z := z `mod` modulus.

(** Conversion to [int]: the representative in [-2^63, 2^63). *)
Definition int (z : Z) : Z := (z + halfModulus) `mod` modulus - halfModulus.

Definition isInt (z : Z) : Prop := - halfModulus ≤ z < halfModulus.
Definition isUint (z : Z) : Prop := 0 ≤ z < modulus.

(** ** Outcomes of running a piece of the program *)

Inductive panic : Type :=
  | IndexOutOfRange
  | SliceBoundsOutOfRange
  | NilDereference
  | IntegerDivideByZero.

Inductive run (A : Type) : Type :=
  | Done (a : A)            (* ran to completion *)
  | Panicked (p : panic)    (* a run-time panic unwound the call *)
  | FatalExit               (* log.Fatalf: the process exits *)
  | OutOfFuel.              (* the loop needs more iterations than allowed *)
Arguments Done {A} a.
Arguments Panicked {A} p.
Arguments FatalExit {A}.
Arguments OutOfFuel {A}.

#[global] Instance run_ret : MRet run := λ A a, Done a.
#[global] Instance run_bind : MBind run := λ A B f c,
  match c with
  | Done a => f a
  | Panicked p => Panicked p
  | FatalExit => FatalExit
  | OutOfFuel => OutOfFuel
  end.

(** [l[i]] on a slice, with Go's bounds check. *)
Definition index {A} (l : list A) (i : Z) : run A :=
  if i <? 0 then Panicked IndexOutOfRange
  else match l !! Z.to_nat i with
       | Some x => Done x
       | None => Panicked IndexOutOfRange
       end.

(** [*p] on a pointer that may be nil. *)
Definition deref {A} (p : option A) : run A :=
  match p with
  | Some a => Done a
  | None => Panicked NilDereference
  end.

(** ** Constants *)

Definition maxDomains : Z := 100.
Definition maxClients : Z := 100.

(** Modelled from the spec: the result-classification constants of
    stats.go, which is not among the sources.  The spec lists the
    classifications in the order unset, not-filtered, filtered,
    safe-browsing, safe-search, parental; [Update] tests "unset" as [0],
    and [rLast] is the size of the per-kind counter array. *)
Definition RNotFiltered : Z := 1.
Definition RFiltered : Z := 2.
Definition RSafeBrowsing : Z := 3.
Definition RSafeSearch : Z := 4.
Definition RParental : Z := 5.
Definition rLast : Z := 6.

(** Modelled from the spec: the granularity selector of stats.go, "by
    hour" or "by day". *)
Inductive TimeUnit : Type := Hours | Days.

(** Modelled from the spec: an ingested event as declared in stats.go:
    queried domain, raw client address, result classification and
    processing time in microseconds. *)
Record Entry : Type := mkEntry {
  Domain : string;
  Client : list byte;
  Result : Z;
  Time : Z
}.

(** ** Data of the engine *)

(** data for 1 time unit *)
Record unit : Type := mkUnit {
  id : Z;
  nTotal : Z;
  nResult : list Z;
  timeSum : Z;
  domains : gmap string Z;
  blockedDomains : gmap string Z;
  clients : gmap string Z
}.

(** name-count pair *)
Record countPair : Type := mkPair {
  Name : string;
  Count : Z
}.

(** structure for storing data in file *)
Record unitDB : Type := mkUnitDB {
  NTotal : Z;
  NResult : list Z;
  Domains : list countPair;
  BlockedDomains : list countPair;
  Clients : list countPair;
  TimeAvg : Z
}.

(** The zero values [unit{}] and [unitDB{}]. *)
Definition zeroUnit : unit :=
  {| id := 0; nTotal := 0; nResult := []; timeSum := 0;
     domains := ∅; blockedDomains := ∅; clients := ∅ |}.

Definition zeroUnitDB : unitDB :=
  {| NTotal := 0; NResult := []; Domains := []; BlockedDomains := [];
     Clients := []; TimeAvg := 0 |}.

(** [make([]T, n)] for a numeric element type. *)
Definition make (n : Z) : list Z := replicate (Z.to_nat n) 0.

(** Initialize a unit *)
Definition initUnit (u : unit) (id' : Z) : unit :=
  {| id := id';
     nTotal := nTotal u;
     nResult := make rLast;
     timeSum := timeSum u;
     domains := ∅;
     blockedDomains := ∅;
     clients := ∅ |}.

(** ** Bucket codec *)

(** The comparison closure of [convertMapToArray]:
    [a[i].Count >= a[j].Count]. *)
Definition less (x y : countPair) : bool := Count y <=? Count x.

(** [sort.Slice] belongs to Go's library.  It is rendered as insertion
    driven by the closure it is given. *)
Fixpoint insertBy (lt : countPair → countPair → bool)
    (x : countPair) (l : list countPair) : list countPair :=
  match l with
  | [] => [x]
  | y :: l' => if lt x y then x :: y :: l' else y :: insertBy lt x l'
  end.

Definition sortSlice (lt : countPair → countPair → bool)
    (l : list countPair) : list countPair :=
  foldr (insertBy lt) [] l.

(** [a[:max]]: panics unless [0 <= max <= len(a)] (the capacity of the
    slices built here never matters: [max] is clamped to the length). *)
Definition sliceTo {A} (a : list A) (max : Z) : run (list A) :=
  if (max <? 0) || (Z.of_nat (length a) <? max)
  then Panicked SliceBoundsOutOfRange
  else Done (take (Z.to_nat max) a).

Definition pairOf (kv : string * Z) : countPair :=
  {| Name := kv.1; Count := uint kv.2 |}.

Definition convertMapToArray (m : gmap string Z) (max : Z) : run (list countPair) :=
  let a := pairOf <$> map_to_list m in
  let a := sortSlice less a in
  let max := if Z.of_nat (length a) <? max then Z.of_nat (length a) else max in
  sliceTo a max.

Definition convertArrayToMap (a : list countPair) : gmap string Z :=
  foldl (λ m it, <[Name it := int (Count it)]> m) ∅ a.

Definition serialize (u : unit) : run unitDB :=
  let nTot := uint (nTotal u) in
  let nRes := uint <$> nResult u in
  let avg := if nTotal u =? 0 then 0
             else uint (int (Z.quot (timeSum u) (nTotal u))) in
  d ← convertMapToArray (domains u) maxDomains;
  b ← convertMapToArray (blockedDomains u) maxDomains;
  c ← convertMapToArray (clients u) maxClients;
  mret {| NTotal := nTot; NResult := nRes; Domains := d;
          BlockedDomains := b; Clients := c; TimeAvg := avg |}.

Definition deserialize (u : unit) (udb : unitDB) : unit :=
  let nTot := int (NTotal udb) in
  {| id := id u;
     nTotal := nTot;
     nResult := nResult u ++ (int <$> NResult udb);
     timeSum := int (int (TimeAvg udb) * nTot);
     domains := convertArrayToMap (Domains udb);
     blockedDomains := convertArrayToMap (BlockedDomains udb);
     clients := convertArrayToMap (Clients udb) |}.

(** The entry a stored pair contributes to the map rebuilt from it. *)
Definition entryOf (it : countPair) : string * Z := (Name it, int (Count it)).

(** Descending order of counts. *)
Definition byCount : relation countPair := λ x y, Count y ≤ Count x.

(** The pairs of a map, sorted, before truncation. *)
Definition sortedPairs (m : gmap string Z) : list countPair :=
  sortSlice less (pairOf <$> map_to_list m).

(** The record [serialize] builds when none of its steps panics. *)
Definition encoded (u : unit) : unitDB :=
  {| NTotal := uint (nTotal u);
     NResult := uint <$> nResult u;
     Domains := take (Z.to_nat maxDomains) (sortedPairs (domains u));
     BlockedDomains := take (Z.to_nat maxDomains) (sortedPairs (blockedDomains u));
     Clients := take (Z.to_nat maxClients) (sortedPairs (clients u));
     TimeAvg := if nTotal u =? 0 then 0
                else uint (int (Z.quot (timeSum u) (nTotal u))) |}.

Definition convertTopArray (a : list countPair) : list (gmap string Z) :=
  (λ it, {[ Name it := Count it ]}) <$> a.

(** [kept] holds the [n] entries of [m] with the highest counts. *)
Definition topOf (n : nat) (m kept : gmap string Z) : Prop :=
  kept ⊆ m
  ∧ size kept = Nat.min n (size m)
  ∧ ∀ k v k' v', kept !! k = Some v → m !! k' = Some v' →
                 kept !! k' = None → uint v' ≤ uint v.

(** Every counter of a map is a Go [int]. *)
Definition intMap (m : gmap string Z) : Prop := map_Forall (λ _ v, isInt v) m.

(** Every number held by a unit is a Go [int]. *)
Definition intUnit (u : unit) : Prop :=
  isInt (id u) ∧ isInt (nTotal u) ∧ Forall isInt (nResult u)
  ∧ intMap (domains u) ∧ intMap (blockedDomains u) ∧ intMap (clients u).

(** ** Persistence layer *)

(** A bucket of the bbolt file: the value stored under the fixed sub-key
    [{0}], if one was put there.  gob is Go's library; a stored value is
    the record itself, and an empty bucket fails to decode. *)
Definition bucket : Type := option unitDB.

(** Convert integer to 8-byte array (big endian).  An 8-byte big-endian
    array is identified with the [uint64] it spells, so that the byte
    order of bbolt's keys is the numeric order of the names. *)
Definition itob (v : Z) : Z := uint v.

(** Convert 8-byte array (big endian) to integer *)
Definition btoi (b : Z) : Z := int b.

(** Get unit name *)
Definition unitName (id' : Z) : Z := itob id'.

Inductive dbHandle : Type :=
  | NilDB       (* s.db == nil *)
  | OpenDB      (* an open bolt.DB *)
  | ClosedDB.   (* a bolt.DB after Close() *)

(** statsCtx - global context.  [filename] designates the file passed
    along as a [gmap Z bucket]; the [unitID] callback is the [now] field of
    the environment below. *)
Record statsCtx : Type := mkCtx {
  limit : Z;                 (* in hours *)
  db : dbHandle;
  unit_ptr : option unit     (* s.unit; None is nil *)
}.

(** What the surroundings answer during one call: the clock read by
    [s.unitID()] and whether each bbolt/gob operation succeeds. *)
Record env : Type := mkEnv {
  now : Z;
  openOk : bool;      (* bolt.Open *)
  beginOk : bool;     (* db.Begin *)
  createOk : bool;    (* tx.CreateBucketIfNotExists *)
  encodeOk : bool;    (* gob Encode *)
  putOk : bool;       (* bkt.Put *)
  commitOk : bool     (* tx.Commit *)
}.

Definition calm (t : Z) : env :=
  {| now := t; openOk := true; beginOk := true; createOk := true;
     encodeOk := true; putOk := true; commitOk := true |}.

(** The engine together with the file it persists to. *)
Record state : Type := mkState {
  ctx : statsCtx;
  disk : gmap Z bucket
}.

Definition dbOpen (e : env) : dbHandle :=
  if openOk e then OpenDB else NilDB.

(** Atomically swap the currently active unit with a new value
    Return old value *)
Definition swapUnit (s : statsCtx) (new : option unit) : statsCtx * option unit :=
  ({| limit := limit s; db := db s; unit_ptr := new |}, unit_ptr s).

(** Open a DB transaction: the working copy of the file, or nil. *)
Definition beginTxn (s : statsCtx) (wr : bool) (e : env)
    (file : gmap Z bucket) : option (gmap Z bucket) :=
  match db s with
  | NilDB => None
  | ClosedDB => None
  | OpenDB => if beginOk e then Some file else None
  end.

(** [tx.Commit()] and [tx.Rollback()] *)
Definition commit (e : env) (file tx : gmap Z bucket) : gmap Z bucket :=
  if commitOk e then tx else file.
Definition rollback (file tx : gmap Z bucket) : gmap Z bucket := file.

(** Delete unit's data from file *)
Definition deleteUnit (tx : gmap Z bucket) (id' : Z) : gmap Z bucket * bool :=
  match tx !! unitName id' with
  | None => (tx, false)                        (* bolt: bucket not found *)
  | Some _ => (delete (unitName id') tx, true)
  end.

(** [tx.CreateBucketIfNotExists(name)] when it succeeds. *)
Definition createBucketIfNotExists (tx : gmap Z bucket) (name : Z)
    : gmap Z bucket :=
  match tx !! name with
  | None => <[name := None]> tx
  | Some _ => tx
  end.

Definition flushUnitToDB (e : env) (tx : gmap Z bucket) (id' : Z)
    (udb : unitDB) : gmap Z bucket * bool :=
  if negb (createOk e) then (tx, false)
  else
    let tx1 := createBucketIfNotExists tx (unitName id') in
    if negb (encodeOk e) then (tx1, false)
    else if negb (putOk e) then (tx1, false)
    else (<[unitName id' := Some udb]> tx1, true).

Definition loadUnitFromDB (tx : gmap Z bucket) (id' : Z) : option unitDB :=
  match tx !! unitName id' with
  | None => None
  | Some None => None          (* gob Decode of an empty value fails *)
  | Some (Some udb) => Some udb
  end.

(** ** Engine context: construction and public operations *)

(** The visitor of [createObject] run by [tx.ForEach] over the bucket
    names in key order: it deletes while the name is older than
    [firstID] and stops the iteration at the first name that is not. *)
Fixpoint forEachBkt (firstID : Z) (names : list Z) (tx : gmap Z bucket)
    (unitDel : Z) : gmap Z bucket * Z :=
  match names with
  | [] => (tx, unitDel)
  | name :: rest =>
      if btoi name <? firstID
      then forEachBkt firstID rest (delete name tx) (int (unitDel + 1))
      else (tx, unitDel)
  end.

Definition bucketNames (tx : gmap Z bucket) : list Z :=
  merge_sort Z.le (map_to_list tx).*1.

Definition createObject (limit' : Z) (e : env) (file : gmap Z bucket)
    : option statsCtx * gmap Z bucket :=
  let lim := int (limit' * 24) in
  match dbOpen e with
  | NilDB | ClosedDB => (None, file)
  | OpenDB =>
      let s := {| limit := lim; db := OpenDB; unit_ptr := None |} in
      let id' := now e in
      let '(udb, file') :=
        match beginTxn s true e file with
        | None => (None, file)
        | Some tx =>
            let firstID := int (id' - limit s - 1) in
            let '(tx', unitDel) := forEachBkt firstID (bucketNames tx) tx 0 in
            let udb := loadUnitFromDB tx' id' in
            (udb, if unitDel =? 0 then rollback file tx' else commit e file tx')
        end in
      let u := initUnit zeroUnit id' in
      let u := match udb with
               | Some r => deserialize u r
               | None => u
               end in
      (Some {| limit := limit s; db := db s; unit_ptr := Some u |}, file')
  end.

Definition Configurate (s : statsCtx) (limit' : Z) : statsCtx :=
  if limit' <? 0 then s
  else {| limit := int (limit' * 24); db := db s; unit_ptr := unit_ptr s |}.

(** One turn of the loop of [periodicFlush].  [None] reports that the loop
    has exited ([s.unit == nil]). *)
Definition periodicFlush (e : env) (st : state) : run (option state) :=
  match unit_ptr (ctx st) with
  | None => mret None
  | Some cur =>
      let id' := now e in
      if id cur =? id' then mret (Some st)     (* sleep one second *)
      else
        let nu := initUnit zeroUnit id' in
        let '(s, old) := swapUnit (ctx st) (Some nu) in
        u ← deref old;
        udb ← serialize u;
        match beginTxn s true e (disk st) with
        | None => mret (Some {| ctx := s; disk := disk st |})
        | Some tx =>
            let '(tx1, ok1) := flushUnitToDB e tx (id u) udb in
            let '(tx2, ok2) := deleteUnit tx1 (int (id' - limit s)) in
            let file' := if ok1 || ok2 then commit e (disk st) tx2
                         else rollback (disk st) tx2 in
            mret (Some {| ctx := s; disk := file' |})
        end
  end.

Definition Close (e : env) (st : state) : run state :=
  let '(s, old) := swapUnit (ctx st) None in
  u ← deref old;
  udb ← serialize u;
  let file' :=
    match beginTxn s true e (disk st) with
    | None => disk st
    | Some tx =>
        let '(tx1, ok) := flushUnitToDB e tx (id u) udb in
        if ok then commit e (disk st) tx1 else rollback (disk st) tx1
    end in
  let db' := match db s with
             | NilDB => NilDB
             | OpenDB | ClosedDB => ClosedDB
             end in
  mret {| ctx := {| limit := limit s; db := db'; unit_ptr := unit_ptr s |};
          disk := file' |}.

Definition Clear (e : env) (st : state) : state :=
  let s := ctx st in
  let db' := match beginTxn s true e (disk st) with
             | None => db s
             | Some tx => dbOpen e      (* s.db = nil; Rollback; Close; dbOpen *)
             end in
  let u := initUnit zeroUnit (now e) in
  {| ctx := {| limit := limit s; db := db'; unit_ptr := Some u |};
     disk := disk st |}.

(** ** Ingest *)

(** [m[k]++] on a map of counters (a missing key reads as 0). *)
Definition incr (m : gmap string Z) (k : string) : gmap string Z :=
  <[k := int (default 0 (m !! k) + 1)]> m.

Section Ingest.

(** [net.IP.String] of Go's library: the textual form of an address. *)
Variable ipString : list byte → string.

Definition Update (s : statsCtx) (e : Entry) : run statsCtx :=
  if (Result e =? 0)
     || (Z.of_nat (String.length (Domain e)) =? 0)
     || negb ((Z.of_nat (length (Client e)) =? 4)
              || (Z.of_nat (length (Client e)) =? 16))
  then mret s
  else
    let client := ipString (Client e) in
    u ← deref (unit_ptr s);
    r ← index (nResult u) (Result e);
    let nRes := <[Z.to_nat (Result e) := int (r + 1)]> (nResult u) in
    let dom := if Result e =? RNotFiltered
               then incr (domains u) (Domain e) else domains u in
    let blk := if Result e =? RNotFiltered
               then blockedDomains u else incr (blockedDomains u) (Domain e) in
    let u' := {| id := id u;
                 nTotal := int (nTotal u + 1);
                 nResult := nRes;
                 timeSum := int (timeSum u + int (Time e));
                 domains := dom;
                 blockedDomains := blk;
                 clients := incr (clients u) client |} in
    mret {| limit := limit s; db := db s; unit_ptr := Some u' |}.

End Ingest.

(** ** Aggregation engine *)

(** The conversion [float64(x)] of an integer: the binary64 number
    nearest to [x], ties to even. *)
Definition float64 (x : Z) : PrimFloat.float :=
  FloatOps.SF2Prim
    (SpecFloat.binary_normalize FloatOps.prec FloatOps.emax x 0 false).

(** [float64(q) / 1000000]: a whole number of microseconds in seconds. *)
Definition seconds (q : Z) : PrimFloat.float :=
  PrimFloat.div (float64 q) (float64 1000000).

(** The map returned by [GetData], one field per key. *)
Record statsData : Type := mkData {
  dns_queries : list Z;
  blocked_filtering : list Z;
  replaced_safebrowsing : list Z;
  replaced_parental : list Z;
  top_queried_domains : list (gmap string Z);
  top_blocked_domains : list (gmap string Z);
  top_clients : list (gmap string Z);
  num_dns_queries : Z;
  num_blocked_filtering : Z;
  num_replaced_safebrowsing : Z;
  num_replaced_safesearch : Z;
  num_replaced_parental : Z;
  avg_processing_time : PrimFloat.float;
  time_units : string
}.

(** The record substituted for an identifier without a stored one. *)
Definition emptyRecord : unitDB :=
  {| NTotal := 0; NResult := make rLast; Domains := [];
     BlockedDomains := []; Clients := []; TimeAvg := 0 |}.

(** [for i := firstID; i != lastID; i++ { units = append(units, ...) }] *)
Fixpoint loadUnits (fuel : nat) (tx : gmap Z bucket) (i lastID : Z)
    (units : list unitDB) : run (list unitDB) :=
  if i =? lastID then Done units
  else match fuel with
       | O => OutOfFuel
       | S fuel' =>
           let u := match loadUnitFromDB tx i with
                    | Some u => u
                    | None => emptyRecord
                    end in
           loadUnits fuel' tx (int (i + 1)) lastID (units ++ [u])
       end.

(** The records the loop appends in [n] iterations started at [i]. *)
Fixpoint recordsFrom (tx : gmap Z bucket) (i : Z) (n : nat) : list unitDB :=
  match n with
  | O => []
  | S n' => default emptyRecord (loadUnitFromDB tx i)
            :: recordsFrom tx (int (i + 1)) n'
  end.

(** The number of iterations after which [i] has reached [lastID]. *)
Definition distance (i lastID : Z) : Z := (lastID - i) `mod` modulus.

(** [a[low:]] *)
Definition sliceFrom {A} (a : list A) (low : Z) : run (list A) :=
  if (low <? 0) || (Z.of_nat (length a) <? low)
  then Panicked SliceBoundsOutOfRange
  else Done (drop (Z.to_nat low) a).

(** The per-hour units gathered by [GetData] up to the length check:
    the stored records of [firstID, lastID) followed by the live unit. *)
Definition windowUnits (fuel : nat) (s : statsCtx) (lastID : Z)
    (tx : gmap Z bucket) : run (list unitDB) :=
  let firstID := int (lastID - limit s + 1) in
  units ← loadUnits fuel tx firstID lastID [];
  cur ← deref (unit_ptr s);
  cu ← serialize cur;
  let cuID := id cur in
  units ← (if cuID =? lastID then mret units else sliceFrom units 1);
  mret (units ++ [cu]).

(** per time unit counters, by hour *)
Fixpoint perHour (get : unitDB → run Z) (units : list unitDB)
    (a : list Z) : run (list Z) :=
  match units with
  | [] => mret a
  | u :: rest => v ← get u; perHour get rest (a ++ [v])
  end.

(** per time unit counters, by day *)
Fixpoint perDay (get : unitDB → run Z) (units : list unitDB)
    (id' sum : Z) (a : list Z) : run (list Z) :=
  match units with
  | [] => mret a
  | u :: rest =>
      v ← get u;
      let sum := uint (sum + v) in
      if Z.rem id' 24 =? 0
      then perDay get rest (int (id' + 1)) 0 (a ++ [sum])
      else perDay get rest (int (id' + 1)) sum a
  end.

Definition counters (timeUnit : TimeUnit) (get : unitDB → run Z)
    (units : list unitDB) (firstID : Z) : run (list Z) :=
  match timeUnit with
  | Hours => perHour get units []
  | Days => perDay get units firstID 0 []
  end.

(** top counters: the map filled from every unit's list *)
Definition collectTop (get : unitDB → list countPair)
    (units : list unitDB) : gmap string Z :=
  foldl (λ m u, foldl (λ m it, <[Name it := int (Count it)]> m) m (get u))
        ∅ units.

Definition topCounters (get : unitDB → list countPair)
    (units : list unitDB) (max : Z) : run (list (gmap string Z)) :=
  a2 ← convertMapToArray (collectTop get units) max;
  mret (convertTopArray a2).

(** [sum.NResult[k] += u.NResult[k]] *)
Definition addResult (sum u : list Z) (k : Z) : run (list Z) :=
  old ← index sum k;
  v ← index u k;
  mret (<[Z.to_nat k := uint (old + v)]> sum).

(** total counters *)
Fixpoint totalCounters (units : list unitDB) (sum : unitDB) (timeN : Z)
    : run (unitDB * Z) :=
  match units with
  | [] => mret (sum, timeN)
  | u :: rest =>
      let nTot := uint (NTotal sum + NTotal u) in
      let tAvg := uint (TimeAvg sum + TimeAvg u) in
      let timeN := if TimeAvg u =? 0 then timeN else int (timeN + 1) in
      r ← addResult (NResult sum) (NResult u) RFiltered;
      r ← addResult r (NResult u) RSafeBrowsing;
      r ← addResult r (NResult u) RSafeSearch;
      r ← addResult r (NResult u) RParental;
      totalCounters rest
        {| NTotal := nTot; NResult := r; Domains := Domains sum;
           BlockedDomains := BlockedDomains sum; Clients := Clients sum;
           TimeAvg := tAvg |} timeN
  end.

(** The getter of the ["dns_queries"] series. *)
Definition getTotal (u : unitDB) : run Z := mret (NTotal u).

(** [x / y] on [uint] *)
Definition udiv (x y : Z) : run Z :=
  if y =? 0 then Panicked IntegerDivideByZero else mret (x `div` y).

(** [GetData]; [None] is the nil map returned when no transaction could
    be opened. *)
Definition GetData (fuel : nat) (e : env) (st : state) (timeUnit : TimeUnit)
    : run (option statsData) :=
  let s := ctx st in
  match beginTxn s false e (disk st) with
  | None => mret None
  | Some tx =>
      let lastID := now e in
      let firstID := int (lastID - limit s + 1) in
      units ← windowUnits fuel s lastID tx;
      if negb (Z.of_nat (length units) =? limit s) then FatalExit
      else
        a_total ← counters timeUnit getTotal units firstID;
        a_filt ← counters timeUnit (λ u, index (NResult u) RFiltered) units firstID;
        a_sb ← counters timeUnit (λ u, index (NResult u) RSafeBrowsing) units firstID;
        a_par ← counters timeUnit (λ u, index (NResult u) RParental) units firstID;
        t_dom ← topCounters Domains units maxDomains;
        t_blk ← topCounters BlockedDomains units maxDomains;
        t_cli ← topCounters Clients units maxClients;
        '(sum, timeN) ← totalCounters units
            {| NTotal := 0; NResult := make rLast; Domains := [];
               BlockedDomains := []; Clients := []; TimeAvg := 0 |} 0;
        n_filt ← index (NResult sum) RFiltered;
        n_sb ← index (NResult sum) RSafeBrowsing;
        n_ss ← index (NResult sum) RSafeSearch;
        n_par ← index (NResult sum) RParental;
        avg ← udiv (TimeAvg sum) (uint timeN);
        mret (Some
          {| dns_queries := a_total;
             blocked_filtering := a_filt;
             replaced_safebrowsing := a_sb;
             replaced_parental := a_par;
             top_queried_domains := t_dom;
             top_blocked_domains := t_blk;
             top_clients := t_cli;
             num_dns_queries := NTotal sum;
             num_blocked_filtering := n_filt;
             num_replaced_safebrowsing := n_sb;
             num_replaced_safesearch := n_ss;
             num_replaced_parental := n_par;
             avg_processing_time :=
               PrimFloat.div (float64 avg) (float64 1000000);
             time_units := match timeUnit with
                           | Hours => "hours"
                           | Days => "days"
                           end |})
  end.

(** ** Notions used to state the results of a query *)

(** Sum of a field over the window. *)
Definition sumBy (f : unitDB → Z) (units : list unitDB) : Z :=
  foldr (λ u acc, f u + acc) 0 units.

(** Number of records of the window with a non-zero average time. *)
Definition busy (units : list unitDB) : Z :=
  Z.of_nat (length (filter (λ u, TimeAvg u ≠ 0) units)).

(** A record with a counter for every classification. *)
Definition recordOk (r : unitDB) : Prop :=
  (Z.to_nat rLast ≤ length (NResult r))%nat.

Definition storeOk (file : gmap Z bucket) : Prop :=
  map_Forall (λ _ b, match b with Some r => recordOk r | None => True end) file.

(** ** Shapes of ingested events *)

(** An event [Update] is to count: a known classification, a domain
    name, an address of 4 or 16 bytes. *)
Definition validEntry (e : Entry) : Prop :=
  1 ≤ Result e < rLast
  ∧ Domain e ≠ ""
  ∧ (length (Client e) = 4%nat ∨ length (Client e) = 16%nat).

(** An event turned away by the test at the head of [Update]. *)
Definition screenedEntry (e : Entry) : Prop :=
  Result e = 0
  ∨ Domain e = ""
  ∨ ¬ (length (Client e) = 4%nat ∨ length (Client e) = 16%nat).

(** ** Bucket names as bytes *)

(** [binary.BigEndian.PutUint64] and [binary.BigEndian.Uint64] of Go's
    library, on bytes held as numbers below 256: the first writes the
    eight bytes of a [uint64], most significant first; the second reads
    the first eight bytes of a slice and panics on a shorter one. *)
Fixpoint putBigEndian (n : nat) (x : Z) : list Z :=
  match n with
  | O => []
  | S n' => putBigEndian n' (x `div` 256) ++ [x `mod` 256]
  end.

Definition bigEndian (b : list Z) : Z :=
  foldl (λ acc d, acc * 256 + d) 0 b.

(** [itob] and [btoi] on the bytes themselves. *)
Definition itobBytes (v : Z) : list Z := putBigEndian 8 (uint v).

Definition btoiBytes (b : list Z) : run Z :=
  if Z.of_nat (length b) <? 8 then Panicked IndexOutOfRange
  else Done (int (bigEndian (take 8 b))).

(** ** Notions used to state what ingest keeps *)

(** The test at the head of [Update]. *)
Definition screened (e : Entry) : bool :=
  (Result e =? 0)
  || (Z.of_nat (String.length (Domain e)) =? 0)
  || negb ((Z.of_nat (length (Client e)) =? 4)
           || (Z.of_nat (length (Client e)) =? 16)).

Definition sumList (l : list Z) : Z := foldr Z.add 0 l.

Definition mapSum (m : gmap string Z) : Z :=
  map_fold (λ _ v acc, v + acc) 0 m.

(** The counters of a unit agree: none is negative, and the total is the
    sum of the per-kind counters, the sum of the client counters, and the
    sum of the counters of both domain maps. *)
Definition balanced (u : unit) : Prop :=
  Forall (λ c, 0 ≤ c) (nResult u)
  ∧ map_Forall (λ _ v, 0 ≤ v) (domains u)
  ∧ map_Forall (λ _ v, 0 ≤ v) (blockedDomains u)
  ∧ map_Forall (λ _ v, 0 ≤ v) (clients u)
  ∧ nTotal u = sumList (nResult u)
  ∧ nTotal u = mapSum (domains u) + mapSum (blockedDomains u)
  ∧ nTotal u = mapSum (clients u).

(** A series of calls of [Update], one per event. *)
Fixpoint UpdateAll (ipString : list byte → string) (s : statsCtx)
    (es : list Entry) : run statsCtx :=
  match es with
  | [] => Done s
  | e :: rest => s' ← Update ipString s e; UpdateAll ipString s' rest
  end.

(** ** Notions used to state what a query returns *)

(** A top list as returned: single-name maps made from at most 100
    pairs in descending order of count, no name twice. *)
Definition isTopList (l : list (gmap string Z)) : Prop :=
  ∃ a, l = convertTopArray a
       ∧ (length a ≤ 100)%nat
       ∧ StronglySorted byCount a
       ∧ NoDup (Name <$> a).

(** The number of identifiers that are multiples of 24 among the [n]
    identifiers from [id'] on. *)
Fixpoint dayPoints (id' : Z) (n : nat) : nat :=
  match n with
  | O => O
  | S n' => if Z.rem id' 24 =? 0 then S (dayPoints (id' + 1) n')
            else dayPoints (id' + 1) n'
  end.

(** Sum over the window of the counter of classification [k]. *)
Definition kindSum (k : Z) (units : list unitDB) : Z :=
  sumBy (λ u, default 0 (NResult u !! Z.to_nat k)) units.

(** ** The control layer (home/control_stats.go) *)

Definition checkStatsInterval (i : Z) : bool :=
  (i =? 1) || (i =? 7) || (i =? 30) || (i =? 90).

(** ** Sample inputs *)

(** An engine right after start-up on an empty file: the retention is
    [lim] hours and the live unit is the empty one of hour [t]. *)
Definition freshCtx (lim t : Z) : statsCtx :=
  {| limit := lim; db := OpenDB; unit_ptr := Some (initUnit zeroUnit t) |}.

(** The unit of hour 100 after one unfiltered query for example.org from
    192.0.2.1 that took 7 microseconds. *)
Definition busyUnit : unit :=
  {| id := 100; nTotal := 1; nResult := [0; 1; 0; 0; 0; 0]; timeSum := 7;
     domains := {[ "example.org" := 1 ]};
     blockedDomains := ∅;
     clients := {[ "192.0.2.1" := 1 ]} |}.

(** Two stored buckets whose domain lists are {a:5, b:3} and {a:2, c:4}. *)
Definition bucketA : unitDB :=
  {| NTotal := 8; NResult := [0; 8; 0; 0; 0; 0];
     Domains := [mkPair "a" 5; mkPair "b" 3];
     BlockedDomains := []; Clients := []; TimeAvg := 7 |}.

Definition bucketB : unitDB :=
  {| NTotal := 6; NResult := [0; 6; 0; 0; 0; 0];
     Domains := [mkPair "a" 2; mkPair "c" 4];
     BlockedDomains := []; Clients := []; TimeAvg := 3 |}.

(** An engine whose live unit is [busyUnit], with a day of retention. *)
Definition busyCtx : statsCtx :=
  {| limit := 24; db := OpenDB; unit_ptr := Some busyUnit |}.

(** A file holding a bucket for hour 50 and one for hour 77. *)
Definition agedFile : gmap Z bucket :=
  {[ unitName 50 := Some bucketA; unitName 77 := Some bucketB ]}.

(** One hour with a single unfiltered query that took 5 microseconds, as
    a stored record and as a live unit of hour 47. *)
Definition hourOne : unitDB :=
  {| NTotal := 1; NResult := [0; 1; 0; 0; 0; 0]; Domains := [];
     BlockedDomains := []; Clients := []; TimeAvg := 5 |}.

Definition liveOne : unit :=
  {| id := 47; nTotal := 1; nResult := [0; 1; 0; 0; 0; 0]; timeSum := 5;
     domains := ∅; blockedDomains := ∅; clients := ∅ |}.

(** The engine in hour 47 with a day of retention: the stored hours 24 to
    46 and the live hour 47 have one query each. *)
Definition dayOfOnes : state :=
  {| ctx := {| limit := 24; db := OpenDB; unit_ptr := Some liveOne |};
     disk := list_to_map ((λ i, (unitName i, Some hourOne)) <$> seqZ 24 23) |}.

(** The engine in hour 100 with the buckets {a:5, b:3} and {a:2, c:4}
    stored for the hours 98 and 99. *)
Definition twoBuckets : state :=
  {| ctx := freshCtx 24 100;
     disk := {[ unitName 98 := Some bucketA; unitName 99 := Some bucketB ]} |}.

(** The engine in hour 100 with the same two buckets and [busyUnit] as
    the live unit: the averages are 7, 3 and 7 microseconds. *)
Definition threeBusy : state :=
  {| ctx := busyCtx; disk := disk twoBuckets |}.

(** Three events from one client: an unfiltered query, an event without
    a domain name, a filtered query. *)
Definition oneClient : list byte → string := λ _, "192.0.2.1".

Definition threeEvents : list Entry :=
  [mkEntry "example.org" [xc0; x00; x02; x01] RNotFiltered 7;
   mkEntry "" [xc0; x00; x02; x01] RFiltered 3;
   mkEntry "example.net" [xc0; x00; x02; x01] RFiltered 5].

(** * Properties *)

(** ** Machine integers *)

Lemma modulus_eq : modulus = 18446744073709551616.
Proof. reflexivity. Qed.

Lemma halfModulus_eq : halfModulus = 9223372036854775808.
Proof. reflexivity. Qed.

Ltac word_consts := rewrite ?modulus_eq, ?halfModulus_eq in *.

Lemma int_isInt z : isInt (int z).
Proof.
  unfold isInt, int. word_consts.
  pose proof (Z.mod_pos_bound (z + 9223372036854775808) 18446744073709551616).
  lia.
Qed.

Lemma uint_isUint z : isUint (uint z).
Proof.
  unfold isUint, uint. word_consts.
  pose proof (Z.mod_pos_bound z 18446744073709551616). lia.
Qed.

Lemma int_id z : isInt z → int z = z.
Proof.
  unfold isInt, int. word_consts. intros Hz.
  rewrite Z.mod_small by lia. lia.
Qed.

Lemma uint_id z : isUint z → uint z = z.
Proof. unfold isUint, uint. intros Hz. by rewrite Z.mod_small. Qed.

Lemma int_uint z : int (uint z) = int z.
Proof.
  unfold int, uint. f_equal.
  by rewrite Zplus_mod_idemp_l.
Qed.

Lemma uint_int z : uint (int z) = uint z.
Proof.
  unfold int, uint.
  assert (Hm : modulus ≠ 0) by (rewrite modulus_eq; lia).
  pose proof (Z.div_mod (z + halfModulus) modulus Hm) as Hq.
  set (q := (z + halfModulus) `div` modulus) in *.
  replace ((z + halfModulus) `mod` modulus - halfModulus)
    with (z + (- q) * modulus) by lia.
  apply Z_mod_plus_full.
Qed.

(** Two integers of [int] range that agree modulo 2^64 are equal. *)
Lemma isInt_mod_inj x y :
  isInt x → isInt y → (x - y) `mod` modulus = 0 → x = y.
Proof.
  unfold isInt. word_consts. intros Hx Hy Hm.
  apply Z.mod_divide in Hm; [|lia]. destruct Hm as [k Hk]. lia.
Qed.

Lemma int_mod z : (int z) `mod` modulus = z `mod` modulus.
Proof. apply uint_int. Qed.

(** ** The record-loading loop of [GetData] *)

Lemma distance_bounds i lastID : 0 ≤ distance i lastID < modulus.
Proof. unfold distance. apply Z.mod_pos_bound. by rewrite modulus_eq. Qed.

Lemma distance_same i : distance i i = 0.
Proof. unfold distance. by rewrite Z.sub_diag. Qed.

Lemma distance_zero i lastID :
  isInt i → isInt lastID → distance i lastID = 0 → i = lastID.
Proof. intros Hi Hl Hd. symmetry. by apply isInt_mod_inj. Qed.

Lemma distance_step i lastID :
  isInt i → isInt lastID → i ≠ lastID →
  distance (int (i + 1)) lastID = distance i lastID - 1.
Proof.
  intros Hi Hl Hne.
  pose proof (distance_bounds i lastID) as Hb.
  assert (distance i lastID ≠ 0) by (intros H0; by apply Hne, distance_zero).
  unfold distance in *.
  rewrite <- Zminus_mod_idemp_r, int_mod, Zminus_mod_idemp_r.
  replace (lastID - (i + 1)) with ((lastID - i) - 1) by lia.
  rewrite <- Zminus_mod_idemp_l. apply Z.mod_small. lia.
Qed.

(** With fewer iterations than the distance the loop is still running. *)
Lemma loadUnits_short fuel : ∀ tx i lastID units,
  isInt i → isInt lastID → Z.of_nat fuel < distance i lastID →
  loadUnits fuel tx i lastID units = OutOfFuel.
Proof.
  induction fuel as [|fuel IH]; intros tx i lastID units Hi Hl Hlt; simpl.
  - destruct (Z.eqb_spec i lastID) as [->|Hne]; [|done].
    rewrite distance_same in Hlt. lia.
  - destruct (Z.eqb_spec i lastID) as [->|Hne].
    + rewrite distance_same in Hlt. lia.
    + apply IH; [apply int_isInt|done|]. rewrite distance_step by done. lia.
Qed.

(** With at least as many it exits, having appended one record per
    identifier passed. *)
Lemma loadUnits_enough fuel : ∀ tx i lastID units,
  isInt i → isInt lastID → distance i lastID ≤ Z.of_nat fuel →
  loadUnits fuel tx i lastID units
  = Done (units ++ recordsFrom tx i (Z.to_nat (distance i lastID))).
Proof.
  induction fuel as [|fuel IH]; intros tx i lastID units Hi Hl Hle; simpl.
  - pose proof (distance_bounds i lastID).
    assert (distance i lastID = 0) as H0 by lia.
    rewrite (distance_zero _ _ Hi Hl H0), Z.eqb_refl, distance_same. simpl.
    by rewrite app_nil_r.
  - destruct (Z.eqb_spec i lastID) as [->|Hne].
    + rewrite distance_same. simpl. by rewrite app_nil_r.
    + pose proof (distance_bounds (int (i + 1)) lastID).
      pose proof (distance_step _ _ Hi Hl Hne) as Hs.
      rewrite IH; [|apply int_isInt|done|lia].
      replace (Z.to_nat (distance i lastID))
        with (S (Z.to_nat (distance (int (i + 1)) lastID))) by lia.
      simpl. rewrite <- app_assoc. simpl.
      by destruct (loadUnitFromDB tx i).
Qed.

Lemma length_recordsFrom tx n : ∀ i, length (recordsFrom tx i n) = n.
Proof. induction n as [|n IH]; intros i; simpl; [done|by rewrite IH]. Qed.

(** The distance from [firstID] to [lastID]. *)
Lemma distance_first lastID lim :
  isInt lastID →
  distance (int (lastID - lim + 1)) lastID = (lim - 1) `mod` modulus.
Proof.
  intros Hl. unfold distance.
  rewrite <- Zminus_mod_idemp_r, int_mod, Zminus_mod_idemp_r.
  f_equal. lia.
Qed.

Ltac in_range := unfold isInt, isUint; rewrite ?halfModulus_eq, ?modulus_eq; lia.

(** C10: the loop [for i := firstID; i != lastID; i++] of [GetData] exits
    after [limit - 1] iterations when the retention limit is at least 1.
    [Configurate] turns away negative arguments only: [Configurate(0)] is
    accepted and sets the limit to 0, after which [firstID] is
    [lastID + 1] and the loop is still running after any number of
    iterations below 2^64 - 1, each of which appends a record.  The same
    holds, with 2^63 - 1 iterations, for every limit that is not
    positive. *)
Theorem C10_load_loop_needs_positive_limit
    (s : statsCtx) (tx : gmap Z bucket) (lastID : Z) (fuel : nat)
    (units : list unitDB) :
  isInt lastID → isInt (limit s) →
  let firstID (c : statsCtx) := int (lastID - limit c + 1) in
  (∀ l, l < 0 → Configurate s l = s)
  ∧ Configurate s 0 = {| limit := 0; db := db s; unit_ptr := unit_ptr s |}
  ∧ (Z.of_nat fuel < modulus - 1 →
     loadUnits fuel tx (firstID (Configurate s 0)) lastID units = OutOfFuel)
  ∧ (limit s ≤ 0 → Z.of_nat fuel < halfModulus - 1 →
     loadUnits fuel tx (firstID s) lastID units = OutOfFuel)
  ∧ (1 ≤ limit s → limit s - 1 ≤ Z.of_nat fuel →
     loadUnits fuel tx (firstID s) lastID units
     = Done (units ++ recordsFrom tx (firstID s) (Z.to_nat (limit s - 1)))).
Proof.
  intros Hl Hs firstID. subst firstID. cbv beta.
  split; [|split; [|split; [|split]]].
  - intros l Hneg. unfold Configurate.
    by destruct (Z.ltb_spec l 0); [|lia].
  - reflexivity.
  - intros Hfuel. apply loadUnits_short; [apply int_isInt|done|].
    rewrite distance_first by done. simpl limit.
    change (int (0 * 24)) with 0. change ((0 - 1) `mod` modulus) with (modulus - 1).
    done.
  - intros Hle Hfuel. apply loadUnits_short; [apply int_isInt|done|].
    rewrite distance_first by done.
    replace ((limit s - 1) `mod` modulus) with (limit s - 1 + modulus).
    + revert Hs Hfuel. in_range.
    + rewrite <- (Z_mod_plus_full _ 1). rewrite Z.mod_small; [lia|].
      revert Hs Hle. in_range.
  - intros Hge Hfuel.
    assert (distance (int (lastID - limit s + 1)) lastID = limit s - 1) as Hd.
    { rewrite distance_first by done. apply Z.mod_small.
      revert Hs Hge. in_range. }
    rewrite loadUnits_enough; [by rewrite Hd|apply int_isInt|done|lia].
Qed.

(** ** Bucket codec *)

Lemma insertBy_perm lt x l : insertBy lt x l ≡ₚ x :: l.
Proof.
  induction l as [|y l IH]; simpl; [done|].
  destruct (lt x y); [done|]. rewrite IH. apply Permutation_swap.
Qed.

Lemma sortSlice_perm lt l : sortSlice lt l ≡ₚ l.
Proof.
  induction l as [|x l IH]; simpl; [done|].
  by rewrite insertBy_perm, IH.
Qed.

Lemma length_sortSlice lt l : length (sortSlice lt l) = length l.
Proof. by rewrite sortSlice_perm. Qed.

Lemma insertBy_sorted x l :
  StronglySorted byCount l → StronglySorted byCount (insertBy less x l).
Proof.
  induction l as [|y l IH]; simpl; intros Hs.
  - by repeat constructor.
  - apply StronglySorted_cons in Hs as [Hy Hl]. unfold less.
    destruct (Z.leb_spec (Count y) (Count x)) as [Hle|Hlt].
    + apply StronglySorted_cons. split; [|by apply StronglySorted_cons].
      constructor; [done|].
      eapply Forall_impl; [exact Hy|]. unfold byCount. intros z ?. lia.
    + apply StronglySorted_cons. split; [|by apply IH].
      rewrite insertBy_perm. constructor; [|done]. unfold byCount. lia.
Qed.

Lemma sortSlice_sorted l : StronglySorted byCount (sortSlice less l).
Proof.
  induction l as [|x l IH]; simpl; [constructor|by apply insertBy_sorted].
Qed.

Lemma sortedPairs_perm m : sortedPairs m ≡ₚ pairOf <$> map_to_list m.
Proof. apply sortSlice_perm. Qed.

Lemma length_sortedPairs m : length (sortedPairs m) = size m.
Proof.
  unfold sortedPairs. by rewrite length_sortSlice, length_fmap, length_map_to_list.
Qed.

Lemma Name_sortedPairs_NoDup m : NoDup (Name <$> sortedPairs m).
Proof.
  rewrite sortedPairs_perm, <- list_fmap_compose.
  apply (NoDup_fst_map_to_list m).
Qed.

(** [convertMapToArray] never fails for a non-negative bound: the bound is
    clamped to the length before the slice expression. *)
Lemma convertMapToArray_done m max :
  0 ≤ max →
  convertMapToArray m max = Done (take (Z.to_nat max) (sortedPairs m)).
Proof.
  intros Hmax. unfold convertMapToArray, sliceTo. fold (sortedPairs m).
  destruct (Z.ltb_spec (Z.of_nat (length (sortedPairs m))) max) as [Hlt|Hge].
  - rewrite Z.ltb_irrefl.
    destruct (Z.ltb_spec (Z.of_nat (length (sortedPairs m))) 0); [lia|].
    simpl. by rewrite Nat2Z.id, !take_ge by lia.
  - destruct (Z.ltb_spec max 0); [lia|].
    by destruct (Z.ltb_spec (Z.of_nat (length (sortedPairs m))) max); [lia|].
Qed.

Lemma convertArrayToMap_foldl a : ∀ m0 : gmap string Z,
  foldl (λ m it, <[Name it := int (Count it)]> m) m0 a
  = list_to_map (reverse (entryOf <$> a)) ∪ m0.
Proof.
  induction a as [|x a IH]; intros m0; simpl.
  - by rewrite (left_id_L ∅ (∪)).
  - rewrite IH. change (entryOf <$> x :: a) with (entryOf x :: (entryOf <$> a)).
    rewrite reverse_cons, list_to_map_app.
    rewrite <- (assoc_L (∪)). f_equal.
    change (list_to_map [entryOf x]) with (<[Name x := int (Count x)]> (∅ : gmap string Z)).
    by rewrite <- insert_union_l, (left_id_L ∅ (∪)).
Qed.

Lemma convertArrayToMap_NoDup a :
  NoDup (Name <$> a) → convertArrayToMap a = list_to_map (entryOf <$> a).
Proof.
  intros Hnd. unfold convertArrayToMap.
  rewrite convertArrayToMap_foldl, (right_id_L ∅ (∪)).
  apply list_to_map_proper; [|apply reverse_Permutation].
  rewrite reverse_Permutation, <- list_fmap_compose. exact Hnd.
Qed.

Lemma entryOf_pairOf k v : isInt v → entryOf (pairOf (k, v)) = (k, v).
Proof. intros Hv. unfold entryOf, pairOf. simpl. by rewrite int_uint, int_id. Qed.

Lemma elem_of_sortedPairs m it :
  it ∈ sortedPairs m ↔ ∃ k v, it = pairOf (k, v) ∧ m !! k = Some v.
Proof.
  rewrite sortedPairs_perm, list_elem_of_fmap. split.
  - intros ([k v] & -> & Hin). exists k, v. by apply elem_of_map_to_list in Hin.
  - intros (k & v & -> & Hm). exists (k, v). by rewrite elem_of_map_to_list.
Qed.

Lemma entryOf_pairOf_list m :
  intMap m → entryOf <$> (pairOf <$> map_to_list m) = map_to_list m.
Proof.
  intros Hm. rewrite <- list_fmap_compose.
  rewrite <- (list_fmap_id (map_to_list m)) at 2.
  apply list_fmap_ext. intros i [k v] Hi. simpl.
  apply entryOf_pairOf, (Hm k). apply elem_of_map_to_list.
  eapply list_elem_of_lookup_2, Hi.
Qed.

Lemma fst_entryOf a : (entryOf <$> a).*1 = Name <$> a.
Proof. by rewrite <- list_fmap_compose. Qed.

(** A map of at most [n] counters survives the trip through its stored
    list unchanged. *)
Lemma convertArrayToMap_take_small m n :
  intMap m → (size m ≤ n)%nat →
  convertArrayToMap (take n (sortedPairs m)) = m.
Proof.
  intros Hm Hsz.
  rewrite take_ge by (by rewrite length_sortedPairs).
  rewrite convertArrayToMap_NoDup by apply Name_sortedPairs_NoDup.
  rewrite <- (list_to_map_to_list m) at 2.
  apply list_to_map_proper.
  - rewrite fst_entryOf. apply Name_sortedPairs_NoDup.
  - by rewrite sortedPairs_perm, entryOf_pairOf_list.
Qed.

Lemma Name_take_NoDup m n : NoDup (Name <$> take n (sortedPairs m)).
Proof.
  rewrite fmap_take. eapply sublist_NoDup; [|apply sublist_take].
  apply Name_sortedPairs_NoDup.
Qed.

Lemma lookup_kept m n k v :
  intMap m →
  convertArrayToMap (take n (sortedPairs m)) !! k = Some v
  ↔ pairOf (k, v) ∈ take n (sortedPairs m) ∧ m !! k = Some v.
Proof.
  intros Hm.
  rewrite convertArrayToMap_NoDup by apply Name_take_NoDup.
  rewrite <- elem_of_list_to_map
    by (rewrite fst_entryOf; apply Name_take_NoDup).
  rewrite list_elem_of_fmap. split.
  - intros (it & Heq & Hin).
    pose proof (subseteq_take _ _ _ Hin) as Hin'.
    apply elem_of_sortedPairs in Hin' as (k0 & v0 & -> & Hk0).
    rewrite entryOf_pairOf in Heq by apply (Hm _ _ Hk0).
    by simplify_eq.
  - intros [Hin Hk]. exists (pairOf (k, v)). split; [|done].
    by rewrite entryOf_pairOf by apply (Hm _ _ Hk).
Qed.

(** In general the trip keeps the [n] counters with the highest counts
    and drops the others. *)
Lemma convertArrayToMap_take_topOf m n :
  intMap m → topOf n m (convertArrayToMap (take n (sortedPairs m))).
Proof.
  intros Hm. split; [|split].
  - apply map_subseteq_spec. intros k v Hk.
    by apply lookup_kept in Hk as [_ ?].
  - rewrite convertArrayToMap_NoDup by apply Name_take_NoDup.
    rewrite map_size_list_to_map
      by (rewrite fst_entryOf; apply Name_take_NoDup).
    by rewrite length_fmap, length_take, length_sortedPairs.
  - intros k v k' v' Hk Hk' Hnone.
    apply lookup_kept in Hk as [Hin _]; [|done].
    assert (pairOf (k', v') ∈ drop n (sortedPairs m)) as Hdrop.
    { assert (pairOf (k', v') ∈ sortedPairs m) as Hall
        by (apply elem_of_sortedPairs; eauto).
      rewrite <- (take_drop n (sortedPairs m)), elem_of_app in Hall.
      destruct Hall as [Htake|]; [|done].
      assert (convertArrayToMap (take n (sortedPairs m)) !! k' = Some v')
        by (by apply lookup_kept).
      congruence. }
    pose proof (sortSlice_sorted (pairOf <$> map_to_list m)) as Hs.
    fold (sortedPairs m) in Hs.
    rewrite <- (take_drop n (sortedPairs m)) in Hs.
    apply (StronglySorted_app_1_elem_of _ _ _ _ _ Hs Hin Hdrop).
Qed.

Lemma serialize_encoded u : serialize u = Done (encoded u).
Proof.
  unfold serialize.
  by rewrite !convertMapToArray_done by (unfold maxDomains, maxClients; lia).
Qed.

Lemma int_uint_list l : Forall isInt l → int <$> (uint <$> l) = l.
Proof.
  intros Hl. rewrite <- list_fmap_compose.
  rewrite <- (list_fmap_id l) at 2. apply Forall_fmap_ext_1.
  eapply Forall_impl; [exact Hl|]. intros z Hz. simpl.
  by rewrite int_uint, int_id.
Qed.

(** What [initUnit] followed by [deserialize] rebuilds from the record of
    a unit: the identifier it is given, the total, the three maps up to
    their 100 highest counts, and the per-kind counters of the unit
    appended after the [rLast] zeroes [initUnit] has put there. *)
Lemma deserialize_encoded u0 i u :
  intUnit u →
  let u' := deserialize (initUnit u0 i) (encoded u) in
  id u' = i
  ∧ nTotal u' = nTotal u
  ∧ nResult u' = make rLast ++ nResult u
  ∧ topOf 100 (domains u) (domains u')
  ∧ topOf 100 (blockedDomains u) (blockedDomains u')
  ∧ topOf 100 (clients u) (clients u')
  ∧ ((size (domains u) ≤ 100)%nat → domains u' = domains u)
  ∧ ((size (blockedDomains u) ≤ 100)%nat → blockedDomains u' = blockedDomains u)
  ∧ ((size (clients u) ≤ 100)%nat → clients u' = clients u).
Proof.
  intros (Hid & Hn & Hr & Hd & Hb & Hc). simpl.
  repeat split; try (by apply (convertArrayToMap_take_topOf _ 100)).
  - by rewrite int_uint, int_id.
  - by rewrite int_uint_list.
  - intros. by apply (convertArrayToMap_take_small _ 100).
  - intros. by apply (convertArrayToMap_take_small _ 100).
  - intros. by apply (convertArrayToMap_take_small _ 100).
Qed.

(** C3: a unit with at most 100 entries per map is to come back from
    [serialize], [initUnit], [deserialize] with its total, its per-kind
    counters and its maps.  The total and the maps do
    ([deserialize_encoded]); the per-kind counters do not: [deserialize]
    appends the stored counters to the [rLast] zeroes [initUnit] has just
    made, so the rebuilt array has twelve entries and every counter reads 0
    at the index where [Update] and [GetData] look for it. *)
Theorem C3_decode_appends_result_counters :
  ∃ udb,
    serialize busyUnit = Done udb
    ∧ let u' := deserialize (initUnit zeroUnit 100) udb in
      nTotal u' = nTotal busyUnit
      ∧ domains u' = domains busyUnit
      ∧ blockedDomains u' = blockedDomains busyUnit
      ∧ clients u' = clients busyUnit
      ∧ nResult busyUnit = [0; 1; 0; 0; 0; 0]
      ∧ nResult u' = [0; 0; 0; 0; 0; 0; 0; 1; 0; 0; 0; 0]
      ∧ index (nResult busyUnit) RNotFiltered = Done 1
      ∧ index (nResult u') RNotFiltered = Done 0.
Proof.
  eexists. split; [vm_compute; reflexivity|].
  repeat split; by vm_compute.
Qed.

(** ** The window of [GetData] *)

Section Window.

Context (s : statsCtx) (u : unit) (lastID : Z) (tx : gmap Z bucket) (fuel : nat).
Hypothesis live : unit_ptr s = Some u.
Hypothesis lastID_int : isInt lastID.
Hypothesis limit_int : isInt (limit s).
Hypothesis enough : limit s - 1 ≤ Z.of_nat fuel.

Let stored : list unitDB :=
  recordsFrom tx (int (lastID - limit s + 1)) (Z.to_nat (limit s - 1)).

Lemma loadUnits_window :
  1 ≤ limit s →
  loadUnits fuel tx (int (lastID - limit s + 1)) lastID [] = Done stored.
Proof.
  intros Hlim.
  assert (distance (int (lastID - limit s + 1)) lastID = limit s - 1) as Hd.
  { rewrite distance_first by done. apply Z.mod_small.
    revert limit_int Hlim. in_range. }
  rewrite loadUnits_enough; [by rewrite Hd|apply int_isInt|done|lia].
Qed.

(** The live unit belongs to the hour of the query: the window has
    [limit] records. *)
Lemma windowUnits_live :
  1 ≤ limit s → id u = lastID →
  windowUnits fuel s lastID tx = Done (stored ++ [encoded u])
  ∧ Z.of_nat (length (stored ++ [encoded u])) = limit s.
Proof.
  intros Hlim Hid. unfold windowUnits.
  rewrite loadUnits_window, live by done. simpl.
  rewrite serialize_encoded. simpl. rewrite Hid, Z.eqb_refl. simpl.
  split; [done|]. rewrite length_app. unfold stored.
  rewrite length_recordsFrom. simpl. lia.
Qed.

(** The live unit is still the one of an earlier hour: the oldest record
    is dropped and the window has [limit - 1] records. *)
Lemma windowUnits_stale :
  2 ≤ limit s → id u ≠ lastID →
  windowUnits fuel s lastID tx = Done (drop 1 stored ++ [encoded u])
  ∧ Z.of_nat (length (drop 1 stored ++ [encoded u])) = limit s - 1.
Proof.
  intros Hlim Hid. unfold windowUnits.
  rewrite loadUnits_window, live by lia. simpl.
  rewrite serialize_encoded. simpl.
  destruct (Z.eqb_spec (id u) lastID) as [|_]; [done|].
  assert (length stored = Z.to_nat (limit s - 1)) as Hlen
    by apply length_recordsFrom.
  unfold sliceFrom.
  destruct (Z.ltb_spec (Z.of_nat (length stored)) 1); [lia|]. simpl.
  split; [done|]. rewrite length_app, length_drop. simpl. lia.
Qed.

(** With a retention of one hour there is nothing to drop and the slice
    expression panics. *)
Lemma windowUnits_stale_one :
  limit s = 1 → id u ≠ lastID →
  windowUnits fuel s lastID tx = Panicked SliceBoundsOutOfRange.
Proof.
  intros Hlim Hid. unfold windowUnits.
  rewrite loadUnits_window, live by lia. simpl.
  rewrite serialize_encoded. simpl.
  destruct (Z.eqb_spec (id u) lastID) as [|_]; [done|].
  unfold stored. by rewrite Hlim.
Qed.

End Window.

(** A query issued after the hour has changed and before the rotation
    loop has swapped the live unit stops the process. *)
Lemma GetData_stale_fatal fuel e st u timeUnit :
  unit_ptr (ctx st) = Some u → db (ctx st) = OpenDB → beginOk e = true →
  isInt (now e) → isInt (limit (ctx st)) →
  limit (ctx st) - 1 ≤ Z.of_nat fuel →
  2 ≤ limit (ctx st) → id u ≠ now e →
  GetData fuel e st timeUnit = FatalExit.
Proof.
  intros Hu Hdb Hb Hnow Hlim Hfuel H2 Hid. unfold GetData, beginTxn.
  rewrite Hdb, Hb.
  destruct (windowUnits_stale (ctx st) u (now e) (disk st) fuel)
    as [-> Hlen]; try done.
  simpl. destruct (Z.eqb_spec (Z.of_nat
    (length (drop 1 (recordsFrom (disk st) (int (now e - limit (ctx st) + 1))
       (Z.to_nat (limit (ctx st) - 1))) ++ [encoded u]))) (limit (ctx st)));
    [lia|done].
Qed.

(** C1: the window [GetData] assembles is to hold exactly [s.limit]
    records.  It does while the live unit is the one of the current hour
    ([windowUnits_live]).  Once the hour has changed and the live unit is
    still the previous one, the loaded [limit - 1] records lose their
    oldest and gain the live one: the window is one record short
    ([windowUnits_stale]) and the length check ends the process.  Here the
    retention is 24 hours, the live unit is hour 100 and the query comes
    in hour 101. *)
Theorem C1_window_one_short_after_hour_change :
  let st := {| ctx := freshCtx 24 100; disk := ∅ |} in
  (∃ units, windowUnits 100 (ctx st) 100 (disk st) = Done units
            ∧ length units = 24%nat)
  ∧ (∃ units, windowUnits 100 (ctx st) 101 (disk st) = Done units
              ∧ length units = 23%nat)
  ∧ GetData 100 (calm 101) st Hours = FatalExit
  ∧ GetData 100 (calm 101) st Days = FatalExit.
Proof.
  simpl. split; [|split; [|split]].
  - eexists. split; [vm_compute; reflexivity|reflexivity].
  - eexists. split; [vm_compute; reflexivity|reflexivity].
  - apply (GetData_stale_fatal _ _ _ (initUnit zeroUnit 100));
      try done; try in_range; simpl; lia.
  - apply (GetData_stale_fatal _ _ _ (initUnit zeroUnit 100));
      try done; try in_range; simpl; lia.
Qed.

(** ** Merging the top lists *)

(** C2: merging the top lists of several buckets is to add up the counts
    of a name.  The loops of [GetData] assign instead
    ([m[it.Name] = int(it.Count)]): for a name present in several buckets
    the count of the last bucket replaces the earlier ones.  With the
    lists {a:5, b:3} and {a:2, c:4} the map is {a:2, b:3, c:4}; the two
    highest are c:4 and b:3, not a:7 and c:4. *)
Theorem C2_merge_keeps_last_count_per_name :
  collectTop Domains [bucketA; bucketB] = {[ "a" := 2; "b" := 3; "c" := 4 ]}
  ∧ topCounters Domains [bucketA; bucketB] 2
    = Done [ {[ "c" := 4 ]}; {[ "b" := 3 ]} ]
  ∧ topCounters Domains [bucketA; bucketB] maxDomains
    = Done [ {[ "c" := 4 ]}; {[ "b" := 3 ]}; {[ "a" := 2 ]} ]
  ∧ topCounters Domains [bucketA; bucketB] 2
    ≠ Done [ {[ "a" := 7 ]}; {[ "c" := 4 ]} ]
  ∧ ∃ d, GetData 100 (calm 100)
           {| ctx := freshCtx 24 100;
              disk := {[ unitName 98 := Some bucketA;
                         unitName 99 := Some bucketB ]} |} Hours
         = Done (Some d)
         ∧ top_queried_domains d
           = [ {[ "c" := 4 ]}; {[ "b" := 3 ]}; {[ "a" := 2 ]} ].
Proof.
  split; [by vm_compute|]. split; [by vm_compute|]. split; [by vm_compute|].
  split; [by vm_compute|].
  eexists. split; [vm_compute; reflexivity|]. by vm_compute.
Qed.

(** ** Ingest *)

Section IngestFacts.

Variable ipString : list byte → string.

Lemma Update_screened s e : screenedEntry e → Update ipString s e = Done s.
Proof.
  intros Hs. unfold Update.
  destruct (Z.eqb_spec (Result e) 0) as [|Hr]; [done|].
  destruct (Z.eqb_spec (Z.of_nat (String.length (Domain e))) 0) as [|Hd];
    [done|].
  destruct (Z.eqb_spec (Z.of_nat (length (Client e))) 4) as [H4|H4];
  destruct (Z.eqb_spec (Z.of_nat (length (Client e))) 16) as [H16|H16];
    simpl; try done.
  - destruct Hs as [?|[Hdom|Hcl]]; [done| |lia].
    rewrite Hdom in Hd. done.
  - destruct Hs as [?|[Hdom|Hcl]]; [done| |lia].
    rewrite Hdom in Hd. done.
  - destruct Hs as [?|[Hdom|Hcl]]; [done| |lia].
    rewrite Hdom in Hd. done.
Qed.

(** A valid event adds one to the total and to the counter of its
    classification, and leaves every other counter of the array alone. *)
Lemma Update_valid s u e :
  unit_ptr s = Some u → (Z.to_nat rLast ≤ length (nResult u))%nat →
  validEntry e →
  ∃ u' old,
    Update ipString s e
    = Done {| limit := limit s; db := db s; unit_ptr := Some u' |}
    ∧ id u' = id u
    ∧ nTotal u' = int (nTotal u + 1)
    ∧ nResult u !! Z.to_nat (Result e) = Some old
    ∧ nResult u' = <[Z.to_nat (Result e) := int (old + 1)]> (nResult u)
    ∧ (∀ k, k ≠ Z.to_nat (Result e) → nResult u' !! k = nResult u !! k)
    ∧ timeSum u' = int (timeSum u + int (Time e))
    ∧ clients u' = incr (clients u) (ipString (Client e)).
Proof.
  intros Hu Hlen (Hr & Hd & Hc). unfold Update.
  destruct (Z.eqb_spec (Result e) 0) as [|_]; [lia|].
  destruct (Z.eqb_spec (Z.of_nat (String.length (Domain e))) 0) as [Hz|_].
  { destruct (Domain e); [done|]. simpl in Hz. lia. }
  assert ((Z.of_nat (length (Client e)) =? 4)
          || (Z.of_nat (length (Client e)) =? 16) = true) as ->.
  { destruct Hc as [->| ->]; reflexivity. }
  simpl. rewrite Hu. simpl. unfold index.
  destruct (Z.ltb_spec (Result e) 0); [lia|].
  destruct (nResult u !! Z.to_nat (Result e)) as [old|] eqn:Hold.
  2:{ apply lookup_ge_None in Hold. unfold rLast in *. lia. }
  simpl. eexists _, old. split; [reflexivity|]. simpl.
  repeat split; try done.
  intros k Hk. by rewrite list_lookup_insert_ne.
Qed.

End IngestFacts.

(** C4: an event whose classification is unset, whose domain is empty or
    whose address is neither 4 nor 16 bytes long is dropped without a
    trace ([Update_screened]), and a valid event adds one to the total and
    to one per-kind counter ([Update_valid]).  An event with a
    classification outside the known ones is to be dropped as well, but
    [Update] only tests [e.Result == 0]: with the classification [rLast]
    it indexes the [rLast]-element counter array of a fresh unit out of
    range and panics, and on a unit rebuilt from the file (whose array has
    twelve entries) it counts the event. *)
Theorem C4_unknown_classification_not_dropped (ipString : list byte → string) :
  let e := {| Domain := "example.org"; Client := [xc0; x00; x02; x01];
              Result := rLast; Time := 7 |} in
  ¬ validEntry e
  ∧ Update ipString (freshCtx 24 100) e = Panicked IndexOutOfRange
  ∧ ∃ s' u',
      Update ipString
        {| limit := 24; db := OpenDB;
           unit_ptr := Some (deserialize (initUnit zeroUnit 100) (encoded busyUnit)) |} e
      = Done s'
      ∧ unit_ptr s' = Some u'
      ∧ nTotal u' = 2.
Proof.
  simpl. split; [|split].
  - intros ([_ Hr] & _). simpl in Hr. unfold rLast in Hr. lia.
  - reflexivity.
  - eexists _, _. split; [|split].
    + unfold Update. cbn [Result Domain Client unit_ptr]. reflexivity.
    + reflexivity.
    + reflexivity.
Qed.

(** ** The series by day *)

Lemma rem24_unique x j k :
  Z.rem (x + k) 24 = 0 → 0 ≤ j < 24 → 0 ≤ k < 24 → j ≠ k →
  Z.rem (x + j) 24 ≠ 0.
Proof.
  intros Hk Hj Hk' Hne Hj0.
  apply Z.rem_divide in Hk as [a Ha]; [|lia].
  apply Z.rem_divide in Hj0 as [b Hb]; [|lia].
  lia.
Qed.

(** Hours without a day boundary add to the running sum, which is given
    up when the window ends. *)
Lemma perDay_no_boundary units : ∀ id' sum a,
  isInt id' → isInt (id' + Z.of_nat (length units)) →
  (∀ j, 0 ≤ j < Z.of_nat (length units) → Z.rem (id' + j) 24 ≠ 0) →
  perDay getTotal units id' sum a = Done a.
Proof.
  induction units as [|u units IH]; intros id' sum a Hid Hend Hno; simpl.
  - done.
  - destruct (Z.eqb_spec (Z.rem id' 24) 0) as [H0|_].
    { exfalso. apply (Hno 0); [simpl; lia|]. by rewrite Z.add_0_r. }
    simpl in Hend.
    assert (int (id' + 1) = id' + 1) as ->
      by (apply int_id; revert Hid Hend; in_range).
    apply IH.
    + revert Hid Hend. in_range.
    + by replace (id' + 1 + Z.of_nat (length units))
        with (id' + Z.pos (Pos.of_succ_nat (length units))) by lia.
    + intros j Hj. replace (id' + 1 + j) with (id' + (j + 1)) by lia.
      apply Hno. simpl. lia.
Qed.

(** A window of one-query hours with a single day boundary, at position
    [k]: one point, holding the hours up to and including that one. *)
Lemma perDay_ones units : ∀ id' sum a k,
  Forall (λ u, NTotal u = 1) units →
  isInt id' → isInt (id' + Z.of_nat (length units)) →
  0 ≤ sum → sum + Z.of_nat (length units) < modulus →
  0 ≤ k < Z.of_nat (length units) →
  Z.rem (id' + k) 24 = 0 →
  (∀ j, 0 ≤ j < Z.of_nat (length units) → j ≠ k → Z.rem (id' + j) 24 ≠ 0) →
  perDay getTotal units id' sum a = Done (a ++ [sum + k + 1]).
Proof.
  induction units as [|u units IH];
    intros id' sum a k Hone Hid Hend Hsum Hmax Hk Hrem Hno; simpl in *.
  - lia.
  - apply Forall_cons in Hone as [Hu Hone]. rewrite Hu.
    assert (int (id' + 1) = id' + 1) as ->
      by (apply int_id; revert Hid Hend; in_range).
    assert (uint (sum + 1) = sum + 1) as ->
      by (apply uint_id; unfold isUint; lia).
    destruct (Z.eqb_spec (Z.rem id' 24) 0) as [H0|Hn0].
    + assert (k = 0) as ->.
      { destruct (decide (k = 0)) as [|Hk0]; [done|]. exfalso.
        apply (Hno 0); [lia|done|]. by rewrite Z.add_0_r. }
      rewrite perDay_no_boundary; [by rewrite Z.add_0_r| | |].
      * revert Hid Hend. in_range.
      * by replace (id' + 1 + Z.of_nat (length units))
          with (id' + Z.pos (Pos.of_succ_nat (length units))) by lia.
      * intros j Hj. replace (id' + 1 + j) with (id' + (j + 1)) by lia.
        apply Hno; lia.
    + assert (k ≠ 0) by (intros ->; by rewrite Z.add_0_r in Hrem).
      rewrite (IH _ _ _ (k - 1)); try done; try lia.
      * do 3 f_equal. lia.
      * revert Hid Hend. in_range.
      * by replace (id' + 1 + Z.of_nat (length units))
          with (id' + Z.pos (Pos.of_succ_nat (length units))) by lia.
      * by replace (id' + 1 + (k - 1)) with (id' + k) by lia.
      * intros j Hj Hjk. replace (id' + 1 + j) with (id' + (j + 1)) by lia.
        apply Hno; lia.
Qed.

(** ** Totals and average *)

Lemma bind_Done {A B} (a : A) (f : A → run B) : (Done a ≫= f) = f a.
Proof. reflexivity. Qed.

Lemma index_ok {A} (l : list A) k :
  0 ≤ k → (Z.to_nat k < length l)%nat → ∃ x, index l k = Done x.
Proof.
  intros Hk Hlt. unfold index.
  destruct (Z.ltb_spec k 0); [lia|].
  destruct (lookup_lt_is_Some_2 l (Z.to_nat k) Hlt) as [x ->]. eauto.
Qed.

Lemma addResult_ok sum u k :
  0 ≤ k → (Z.to_nat k < length sum)%nat → (Z.to_nat k < length u)%nat →
  ∃ r, addResult sum u k = Done r ∧ length r = length sum.
Proof.
  intros Hk Hs Hu. unfold addResult.
  destruct (index_ok sum k Hk Hs) as [x ->].
  destruct (index_ok u k Hk Hu) as [y ->]. simpl.
  eexists. split; [done|]. by rewrite length_insert.
Qed.

Lemma busy_cons u units :
  busy (u :: units) = (if TimeAvg u =? 0 then 0 else 1) + busy units.
Proof.
  unfold busy. rewrite filter_cons.
  destruct (Z.eqb_spec (TimeAvg u) 0) as [H0|H0];
    destruct (decide (TimeAvg u ≠ 0)); try done; simpl; lia.
Qed.

Lemma busy_bounds units : 0 ≤ busy units ≤ Z.of_nat (length units).
Proof.
  induction units as [|u units IH]; [done|].
  rewrite busy_cons. simpl length. destruct (TimeAvg u =? 0); lia.
Qed.

Lemma uint_add_l x y : uint (uint x + y) = uint (x + y).
Proof. unfold uint. apply Zplus_mod_idemp_l. Qed.

(** The loop of the total counters: sums modulo 2^64 and the count of the
    records whose average is not zero. *)
Lemma totalCounters_spec units : ∀ sum timeN,
  Forall recordOk units → recordOk sum →
  isUint (NTotal sum) → isUint (TimeAvg sum) →
  0 ≤ timeN → timeN + Z.of_nat (length units) < halfModulus →
  ∃ sum',
    totalCounters units sum timeN = Done (sum', timeN + busy units)
    ∧ NTotal sum' = uint (NTotal sum + sumBy NTotal units)
    ∧ TimeAvg sum' = uint (TimeAvg sum + sumBy TimeAvg units)
    ∧ length (NResult sum') = length (NResult sum).
Proof.
  induction units as [|u units IH];
    intros sum timeN Hok Hsum HuN HuT Ht Hmax.
  - simpl. exists sum. unfold busy. simpl. rewrite !Z.add_0_r.
    by rewrite !uint_id.
  - apply Forall_cons in Hok as [Hu Hok]. simpl totalCounters.
    unfold recordOk, rLast in Hsum, Hu.
    destruct (addResult_ok (NResult sum) (NResult u) RFiltered)
      as (r1 & -> & Hl1); [done|unfold RFiltered; lia..|].
    rewrite bind_Done.
    destruct (addResult_ok r1 (NResult u) RSafeBrowsing)
      as (r2 & -> & Hl2); [done|unfold RSafeBrowsing; lia..|].
    rewrite bind_Done.
    destruct (addResult_ok r2 (NResult u) RSafeSearch)
      as (r3 & -> & Hl3); [done|unfold RSafeSearch; lia..|].
    rewrite bind_Done.
    destruct (addResult_ok r3 (NResult u) RParental)
      as (r4 & -> & Hl4); [done|unfold RParental; lia..|].
    rewrite bind_Done. simpl length in Hmax.
    set (timeN' := if TimeAvg u =? 0 then timeN else int (timeN + 1)).
    assert (timeN' = timeN + (if TimeAvg u =? 0 then 0 else 1)) as HtN.
    { subst timeN'. destruct (TimeAvg u =? 0); [lia|].
      apply int_id. revert Hmax. in_range. }
    edestruct (IH {| NTotal := uint (NTotal sum + NTotal u); NResult := r4;
                     Domains := Domains sum;
                     BlockedDomains := BlockedDomains sum;
                     Clients := Clients sum;
                     TimeAvg := uint (TimeAvg sum + TimeAvg u) |} timeN')
      as (sum' & -> & HN & HT & HL); try done.
    + unfold recordOk, rLast. simpl. lia.
    + apply uint_isUint.
    + apply uint_isUint.
    + rewrite HtN. destruct (TimeAvg u =? 0); lia.
    + rewrite HtN. destruct (TimeAvg u =? 0); lia.
    + exists sum'. simpl in *. rewrite busy_cons, HtN.
      split; [do 2 f_equal; lia|].
      rewrite HN, HT, !uint_add_l, !Z.add_assoc. split; [done|].
      split; [done|]. lia.
Qed.

Lemma perHour_ok get units : ∀ a,
  Forall (λ u, ∃ v, get u = Done v) units →
  ∃ l, perHour get units a = Done l.
Proof.
  induction units as [|u units IH]; intros a Hall; simpl; [by eexists|].
  apply Forall_cons in Hall as [[v ->] Hall]. rewrite bind_Done. by apply IH.
Qed.

Lemma perDay_ok get units : ∀ id' sum a,
  Forall (λ u, ∃ v, get u = Done v) units →
  ∃ l, perDay get units id' sum a = Done l.
Proof.
  induction units as [|u units IH]; intros id' sum a Hall; simpl;
    [by eexists|].
  apply Forall_cons in Hall as [[v ->] Hall]. rewrite bind_Done.
  destruct (Z.rem id' 24 =? 0); by apply IH.
Qed.

Lemma counters_ok timeUnit get units firstID :
  Forall (λ u, ∃ v, get u = Done v) units →
  ∃ l, counters timeUnit get units firstID = Done l.
Proof.
  intros Hall. destruct timeUnit; simpl; [by apply perHour_ok|by apply perDay_ok].
Qed.

Lemma topCounters_eq get units max :
  0 ≤ max →
  topCounters get units max
  = Done (convertTopArray (take (Z.to_nat max) (sortedPairs (collectTop get units)))).
Proof. intros Hmax. unfold topCounters. by rewrite convertMapToArray_done. Qed.

Lemma recordOk_index units k :
  Forall recordOk units → 0 ≤ k < rLast →
  Forall (λ u, ∃ v, index (NResult u) k = Done v) units.
Proof.
  intros Hall Hk. eapply Forall_impl; [exact Hall|].
  intros u Hu. apply index_ok; [lia|]. unfold recordOk in Hu. lia.
Qed.

(** [GetData] once the window is in hand: it panics on the division when
    no record of the window has a non-zero average, and otherwise returns
    the totals of the window. *)
Lemma GetData_of_window fuel e st timeUnit tx units :
  beginTxn (ctx st) false e (disk st) = Some tx →
  windowUnits fuel (ctx st) (now e) tx = Done units →
  Z.of_nat (length units) = limit (ctx st) →
  Forall recordOk units →
  Z.of_nat (length units) < halfModulus →
  (busy units = 0 →
   GetData fuel e st timeUnit = Panicked IntegerDivideByZero)
  ∧ (0 < busy units →
     ∃ d, GetData fuel e st timeUnit = Done (Some d)
          ∧ num_dns_queries d = uint (sumBy NTotal units)
          ∧ avg_processing_time d
            = seconds (uint (sumBy TimeAvg units) `div` busy units)
          ∧ top_queried_domains d
            = convertTopArray (take 100 (sortedPairs (collectTop Domains units)))
          ∧ top_blocked_domains d
            = convertTopArray (take 100 (sortedPairs (collectTop BlockedDomains units)))
          ∧ top_clients d
            = convertTopArray (take 100 (sortedPairs (collectTop Clients units)))).
Proof.
  intros Htx Hwin Hlen Hok Hmax. unfold GetData.
  rewrite Htx, Hwin, bind_Done, Hlen, Z.eqb_refl. cbn [negb].
  destruct (counters_ok timeUnit getTotal units
              (int (now e - limit (ctx st) + 1))) as [a1 ->].
  { eapply Forall_impl; [exact Hok|]. intros u _. by eexists. }
  rewrite bind_Done.
  destruct (counters_ok timeUnit (λ u, index (NResult u) RFiltered) units
              (int (now e - limit (ctx st) + 1))) as [a2 ->].
  { apply recordOk_index; [done|]. unfold RFiltered, rLast. lia. }
  rewrite bind_Done.
  destruct (counters_ok timeUnit (λ u, index (NResult u) RSafeBrowsing) units
              (int (now e - limit (ctx st) + 1))) as [a3 ->].
  { apply recordOk_index; [done|]. unfold RSafeBrowsing, rLast. lia. }
  rewrite bind_Done.
  destruct (counters_ok timeUnit (λ u, index (NResult u) RParental) units
              (int (now e - limit (ctx st) + 1))) as [a4 ->].
  { apply recordOk_index; [done|]. unfold RParental, rLast. lia. }
  rewrite bind_Done.
  rewrite !topCounters_eq by (unfold maxDomains, maxClients; lia).
  rewrite !bind_Done.
  destruct (totalCounters_spec units
              {| NTotal := 0; NResult := make rLast; Domains := [];
                 BlockedDomains := []; Clients := []; TimeAvg := 0 |} 0)
    as (sum & -> & HN & HT & HL).
  { done. }
  { unfold recordOk, make, rLast. simpl. lia. }
  { cbn. in_range. }
  { cbn. in_range. }
  { lia. }
  { lia. }
  rewrite bind_Done. cbv beta iota.
  assert (length (NResult sum) = 6%nat) as HL6 by (rewrite HL; reflexivity).
  destruct (index_ok (NResult sum) RFiltered) as [n1 ->];
    [unfold RFiltered; lia..|]. rewrite bind_Done.
  destruct (index_ok (NResult sum) RSafeBrowsing) as [n2 ->];
    [unfold RSafeBrowsing; lia..|]. rewrite bind_Done.
  destruct (index_ok (NResult sum) RSafeSearch) as [n3 ->];
    [unfold RSafeSearch; lia..|]. rewrite bind_Done.
  destruct (index_ok (NResult sum) RParental) as [n4 ->];
    [unfold RParental; lia..|]. rewrite bind_Done.
  pose proof (busy_bounds units) as Hb.
  rewrite Z.add_0_l.
  assert (uint (busy units) = busy units) as ->
    by (apply uint_id; revert Hb Hmax; in_range).
  unfold udiv. split.
  - intros ->. reflexivity.
  - intros Hpos. destruct (Z.eqb_spec (busy units) 0) as [|_]; [lia|].
    rewrite bind_Done. eexists. split; [reflexivity|]. cbn.
    rewrite HN, HT, !Z.add_0_l. done.
Qed.

Lemma loadUnitFromDB_Some tx i r :
  loadUnitFromDB tx i = Some r ↔ tx !! unitName i = Some (Some r).
Proof.
  unfold loadUnitFromDB.
  destruct (tx !! unitName i) as [[r'|]|]; naive_solver.
Qed.

Lemma emptyRecord_ok : recordOk emptyRecord.
Proof. unfold recordOk, emptyRecord, make, rLast. simpl. lia. Qed.

Lemma recordsFrom_ok tx n : ∀ i, storeOk tx → Forall recordOk (recordsFrom tx i n).
Proof.
  induction n as [|n IH]; intros i Hok; simpl; constructor; [|by apply IH].
  destruct (loadUnitFromDB tx i) as [r|] eqn:Hr; simpl; [|apply emptyRecord_ok].
  apply loadUnitFromDB_Some in Hr. apply (Hok _ _ Hr).
Qed.

Lemma encoded_ok u :
  (Z.to_nat rLast ≤ length (nResult u))%nat → recordOk (encoded u).
Proof. intros Hu. unfold recordOk. simpl. by rewrite length_fmap. Qed.

(** C9 (as amended): for every query window with at least one record
    whose average is not zero, the query returns, and the average
    processing time it returns is the sum of the averages of the window's
    records (reduced modulo 2^64 like every [uint] sum, hence the sum
    itself whenever it fits) divided by the number of records whose
    average is not zero, the quotient being rounded down to a whole
    number of microseconds, converted to [float64] and divided by
    1000000; records with a zero average add nothing to the divisor. *)
Theorem C9_average_over_busy_records
    (fuel : nat) (e : env) (st : state) (u : unit) (timeUnit : TimeUnit) :
  unit_ptr (ctx st) = Some u → db (ctx st) = OpenDB → beginOk e = true →
  isInt (now e) → 1 ≤ limit (ctx st) < halfModulus →
  limit (ctx st) - 1 ≤ Z.of_nat fuel →
  id u = now e →
  storeOk (disk st) → (Z.to_nat rLast ≤ length (nResult u))%nat →
  let units :=
    recordsFrom (disk st) (int (now e - limit (ctx st) + 1))
                (Z.to_nat (limit (ctx st) - 1)) ++ [encoded u] in
  0 < busy units →
  windowUnits fuel (ctx st) (now e) (disk st) = Done units
  ∧ ∃ d, GetData fuel e st timeUnit = Done (Some d)
         ∧ avg_processing_time d
           = PrimFloat.div
               (float64 (uint (sumBy TimeAvg units) `div` busy units))
               (float64 1000000)
         ∧ (isUint (sumBy TimeAvg units) →
            avg_processing_time d
            = PrimFloat.div (float64 (sumBy TimeAvg units `div` busy units))
                            (float64 1000000)).
Proof.
  intros Hu Hdb Hb Hnow Hlim Hfuel Hid Hstore Hres units Hbusy.
  assert (isInt (limit (ctx st))) as Hli by (revert Hlim; in_range).
  destruct (windowUnits_live (ctx st) u (now e) (disk st) fuel)
    as [Hwin Hlen]; try done; [lia|].
  fold units in Hwin, Hlen. split; [done|].
  destruct (GetData_of_window fuel e st timeUnit (disk st) units)
    as [_ Hd]; try done.
  - unfold beginTxn. by rewrite Hdb, Hb.
  - apply Forall_app. split; [by apply recordsFrom_ok|].
    constructor; [by apply encoded_ok|constructor].
  - lia.
  - destruct (Hd Hbusy) as (d & Hget & _ & Havg & _).
    exists d. split; [done|]. split; [done|].
    intros Hfit. by rewrite Havg, uint_id.
Qed.

(** A query right after start-up, or after [Clear] on a file without
    records: every record of the window has a zero average and the
    division panics. *)
Lemma busy_recordsFrom_empty n : ∀ i, busy (recordsFrom ∅ i n) = 0.
Proof.
  induction n as [|n IH]; intros i; [done|].
  simpl recordsFrom. rewrite busy_cons, IH. reflexivity.
Qed.

Lemma busy_app l1 l2 : busy (l1 ++ l2) = busy l1 + busy l2.
Proof.
  induction l1 as [|x l1 IH]; [done|].
  simpl app. rewrite !busy_cons, IH. lia.
Qed.

Lemma Clear_keeps_disk e st : disk (Clear e st) = disk st.
Proof. reflexivity. Qed.

Lemma GetData_after_Clear_empty fuel e st timeUnit :
  db (ctx st) = OpenDB → beginOk e = true → openOk e = true →
  isInt (now e) → 1 ≤ limit (ctx st) < halfModulus →
  limit (ctx st) - 1 ≤ Z.of_nat fuel →
  disk st = ∅ →
  GetData fuel e (Clear e st) timeUnit = Panicked IntegerDivideByZero.
Proof.
  intros Hdb Hb Ho Hnow Hlim Hfuel Hdisk.
  assert (isInt (limit (ctx st))) as Hli by (revert Hlim; in_range).
  assert (db (ctx (Clear e st)) = OpenDB) as Hdb'.
  { unfold Clear, beginTxn, dbOpen. simpl. by rewrite Hdb, Hb, Ho. }
  assert (limit (ctx (Clear e st)) = limit (ctx st)) as Hl' by reflexivity.
  destruct (windowUnits_live (ctx (Clear e st)) (initUnit zeroUnit (now e))
              (now e) (disk (Clear e st)) fuel) as [Hwin Hlen];
    rewrite ?Hl'; try done; try lia.
  rewrite Hl' in Hwin, Hlen.
  eapply GetData_of_window; rewrite ?Hl'; try done.
  - unfold beginTxn. by rewrite Hdb', Hb.
  - apply Forall_app. split.
    + apply recordsFrom_ok. rewrite Clear_keeps_disk, Hdisk.
      apply map_Forall_empty.
    + constructor; [|constructor]. apply encoded_ok. reflexivity.
  - rewrite Hlen. simpl. lia.
  - rewrite busy_app, Clear_keeps_disk, Hdisk, busy_recordsFrom_empty.
    reflexivity.
Qed.

(** C5: after [Clear] a query is to return zero totals and empty top
    lists.  [Clear] closes the file and opens the same file again without
    removing it, so the stored buckets are all still there
    ([Clear_keeps_disk]) and the next query reports them.  And when the
    file holds no records at all, the query does not return: no record of
    the window has a non-zero average, [timeN] is 0 and
    [sum.TimeAvg/uint(timeN)] panics ([GetData_after_Clear_empty]). *)
Theorem C5_query_after_clear :
  (∀ timeUnit,
     GetData 100 (calm 100)
       (Clear (calm 100) {| ctx := freshCtx 24 100; disk := ∅ |}) timeUnit
     = Panicked IntegerDivideByZero)
  ∧ let st := {| ctx := busyCtx; disk := {[ unitName 99 := Some bucketA ]} |} in
    unit_ptr (ctx (Clear (calm 100) st)) = Some (initUnit zeroUnit 100)
    ∧ disk (Clear (calm 100) st) = {[ unitName 99 := Some bucketA ]}
    ∧ ∃ d, GetData 100 (calm 100) (Clear (calm 100) st) Hours = Done (Some d)
           ∧ num_dns_queries d = 8
           ∧ top_queried_domains d = [ {[ "a" := 5 ]}; {[ "b" := 3 ]} ].
Proof.
  split.
  - intros timeUnit. by apply GetData_after_Clear_empty.
  - simpl. split; [reflexivity|]. split; [reflexivity|].
    eexists. split; [vm_compute; reflexivity|]. by vm_compute.
Qed.

(** ** Rotation *)

Lemma deleteUnit_fst tx i : (deleteUnit tx i).1 = delete (unitName i) tx.
Proof.
  unfold deleteUnit. destruct (tx !! unitName i) eqn:Hi; simpl; [done|].
  by rewrite delete_id.
Qed.

Lemma deleteUnit_snd tx i :
  (deleteUnit tx i).2 = bool_decide (is_Some (tx !! unitName i)).
Proof.
  unfold deleteUnit. destruct (tx !! unitName i) eqn:Hi; cbn [snd].
  - symmetry. apply bool_decide_eq_true_2. eauto.
  - symmetry. apply bool_decide_eq_false_2. by intros [? ?].
Qed.

(** The bucket [flushUnitToDB] leaves behind when it fails after
    [CreateBucketIfNotExists]. *)
Lemma flushUnitToDB_ok e tx i udb :
  createOk e = true → encodeOk e = true → putOk e = true →
  flushUnitToDB e tx i udb = (<[unitName i := Some udb]> tx, true).
Proof.
  intros Hc He Hp. unfold flushUnitToDB, createBucketIfNotExists.
  rewrite Hc, He, Hp. simpl.
  destruct (tx !! unitName i); [done|]. by rewrite insert_insert_eq.
Qed.

Lemma flushUnitToDB_no_put e tx i udb :
  createOk e = true → encodeOk e && putOk e = false →
  flushUnitToDB e tx i udb = (createBucketIfNotExists tx (unitName i), false).
Proof.
  intros Hc Hp. unfold flushUnitToDB. rewrite Hc. simpl.
  destruct (encodeOk e); [|done]. simpl in Hp. by rewrite Hp.
Qed.

Lemma beginTxn_Some s wr e file tx :
  beginTxn s wr e file = Some tx → tx = file.
Proof.
  unfold beginTxn. destruct (db s); [done| |done].
  destruct (beginOk e); naive_solver.
Qed.

Lemma flushUnitToDB_no_create e tx i udb :
  createOk e = false → flushUnitToDB e tx i udb = (tx, false).
Proof. intros Hc. unfold flushUnitToDB. by rewrite Hc. Qed.

(** C6 (as amended): on every rotation the loop swaps in the fresh unit
    of the new hour and goes on, whatever the store answers.  The record
    of the retired unit is put and the one bucket named
    [now - limit] is deleted within one write transaction, which is
    committed when the flush or the deletion succeeded and rolled back
    otherwise; nothing is written when no transaction could be opened or
    the commit fails.  Buckets older than [now - limit] are not touched. *)
Theorem C6_rotation_transaction (e : env) (st : state) (u : unit) :
  unit_ptr (ctx st) = Some u → id u ≠ now e →
  let old := unitName (int (now e - limit (ctx st))) in
  let cur := unitName (id u) in
  let made := createBucketIfNotExists (disk st) cur in
  ∃ st',
    periodicFlush e st = Done (Some st')
    ∧ ctx st' = {| limit := limit (ctx st); db := db (ctx st);
                   unit_ptr := Some (initUnit zeroUnit (now e)) |}
    ∧ (beginTxn (ctx st) true e (disk st) = None → disk st' = disk st)
    ∧ (beginTxn (ctx st) true e (disk st) ≠ None →
       (commitOk e = false → disk st' = disk st)
       ∧ (commitOk e = true → createOk e = true → encodeOk e = true →
          putOk e = true →
          disk st' = delete old (<[cur := Some (encoded u)]> (disk st)))
       ∧ (commitOk e = true → createOk e = false →
          disk st' = delete old (disk st))
       ∧ (commitOk e = true → createOk e = true →
          encodeOk e && putOk e = false →
          disk st' = if bool_decide (is_Some (made !! old))
                     then delete old made else disk st)).
Proof.
  intros Hu Hid old cur made. unfold periodicFlush. rewrite Hu.
  destruct (Z.eqb_spec (id u) (now e)) as [|_]; [done|].
  cbn [swapUnit]. rewrite Hu. cbn [deref].
  rewrite bind_Done, serialize_encoded, bind_Done.
  cbn [limit db unit_ptr].
  assert (beginTxn {| limit := limit (ctx st); db := db (ctx st);
                      unit_ptr := Some (initUnit zeroUnit (now e)) |}
                   true e (disk st)
          = beginTxn (ctx st) true e (disk st)) as -> by reflexivity.
  destruct (beginTxn (ctx st) true e (disk st)) as [tx|] eqn:Htx.
  2:{ eexists. split; [reflexivity|]. by repeat split. }
  apply beginTxn_Some in Htx as ->.
  destruct (flushUnitToDB e (disk st) (id u) (encoded u)) as [tx1 ok1] eqn:Hf.
  pose proof (deleteUnit_fst tx1 (int (now e - limit (ctx st)))) as Hd1.
  pose proof (deleteUnit_snd tx1 (int (now e - limit (ctx st)))) as Hd2.
  destruct (deleteUnit tx1 (int (now e - limit (ctx st)))) as [tx2 ok2].
  simpl in Hd1, Hd2. fold old in Hd1, Hd2. subst tx2 ok2.
  eexists. split; [reflexivity|]. cbn [ctx disk].
  split; [done|]. split; [done|]. intros _.
  unfold commit, rollback. repeat split.
  - intros ->. by destruct (ok1 || _).
  - intros -> Hc He Hp. rewrite flushUnitToDB_ok in Hf by done.
    by simplify_eq.
  - intros -> Hc. rewrite flushUnitToDB_no_create in Hf by done.
    simplify_eq. simpl. case_bool_decide as Hold; [done|].
    rewrite delete_id; [done|].
    destruct (disk st !! old) eqn:?; [|done]. exfalso. eauto.
  - intros -> Hc Hp. rewrite flushUnitToDB_no_put in Hf by done.
    by simplify_eq.
Qed.

(** ** Shutdown and start-up *)

(** The purge at start-up only removes buckets older than [firstID]. *)
Lemma forEachBkt_keeps firstID names : ∀ tx n name,
  ¬ (btoi name < firstID) →
  (forEachBkt firstID names tx n).1 !! name = tx !! name.
Proof.
  induction names as [|x names IH]; intros tx n name Hkeep; simpl; [done|].
  destruct (Z.ltb_spec (btoi x) firstID) as [Hlt|_]; [|done].
  rewrite IH by done. apply lookup_delete_ne. intros ->. lia.
Qed.

Lemma Close_calm st u t :
  unit_ptr (ctx st) = Some u → db (ctx st) = OpenDB →
  Close (calm t) st
  = Done {| ctx := {| limit := limit (ctx st); db := ClosedDB;
                      unit_ptr := None |};
            disk := <[unitName (id u) := Some (encoded u)]> (disk st) |}.
Proof.
  intros Hu Hdb. unfold Close. cbn [swapUnit]. rewrite Hu. cbn [deref].
  rewrite bind_Done, serialize_encoded, bind_Done.
  unfold beginTxn. cbn [limit db unit_ptr]. rewrite Hdb. cbn [calm beginOk].
  by rewrite flushUnitToDB_ok.
Qed.

Lemma createObject_calm lim t file :
  let firstID := int (t - int (lim * 24) - 1) in
  let purged := forEachBkt firstID (bucketNames file) file 0 in
  let u0 := initUnit zeroUnit t in
  createObject lim (calm t) file
  = (Some {| limit := int (lim * 24); db := OpenDB;
             unit_ptr := Some (match loadUnitFromDB purged.1 t with
                               | Some r => deserialize u0 r
                               | None => u0
                               end) |},
     if purged.2 =? 0 then file else purged.1).
Proof.
  intros firstID purged u0. unfold createObject.
  cbn [dbOpen calm openOk beginTxn db beginOk now limit].
  fold firstID. fold purged. destruct purged as [tx' unitDel].
  cbn [fst snd]. unfold rollback, commit. cbn [commitOk].
  by destruct (unitDel =? 0).
Qed.

(** C7 (as amended): shutdown of an engine with an open store that
    accepts the flush leaves the record of the live unit in the file, and
    opening the engine on that file while the clock is still in the same
    hour yields a live unit for the same identifier with the same total
    and, for each of the three maps, its 100 highest counts: the whole
    map when it has at most 100 entries. *)
Theorem C7_close_then_reopen_same_hour (st : state) (u : unit) (lim t : Z) :
  unit_ptr (ctx st) = Some u → db (ctx st) = OpenDB →
  intUnit u → 0 ≤ id u → 0 ≤ lim → lim * 24 < halfModulus →
  ∃ st1 s2 file2 u2,
    Close (calm t) st = Done st1
    ∧ disk st1 !! unitName (id u) = Some (Some (encoded u))
    ∧ createObject lim (calm (id u)) (disk st1) = (Some s2, file2)
    ∧ file2 !! unitName (id u) = Some (Some (encoded u))
    ∧ unit_ptr s2 = Some u2
    ∧ id u2 = id u
    ∧ nTotal u2 = nTotal u
    ∧ topOf 100 (domains u) (domains u2)
    ∧ topOf 100 (blockedDomains u) (blockedDomains u2)
    ∧ topOf 100 (clients u) (clients u2)
    ∧ ((size (domains u) ≤ 100)%nat → domains u2 = domains u)
    ∧ ((size (blockedDomains u) ≤ 100)%nat →
       blockedDomains u2 = blockedDomains u)
    ∧ ((size (clients u) ≤ 100)%nat → clients u2 = clients u).
Proof.
  intros Hu Hdb Hint Hid Hlim Hmax.
  pose proof Hint as (Hidi & _).
  set (file1 := <[unitName (id u) := Some (encoded u)]> (disk st)).
  set (firstID := int (id u - int (lim * 24) - 1)).
  set (purged := forEachBkt firstID (bucketNames file1) file1 0).
  assert (purged.1 !! unitName (id u) = Some (Some (encoded u))) as Hkept.
  { unfold purged. rewrite forEachBkt_keeps.
    - unfold file1. apply lookup_insert_eq.
    - unfold btoi, unitName, itob. rewrite int_uint, int_id by done.
      unfold firstID. rewrite (int_id (lim * 24)) by (revert Hlim Hmax; in_range).
      rewrite int_id; [lia|]. revert Hidi Hid Hlim Hmax. in_range. }
  assert (loadUnitFromDB purged.1 (id u) = Some (encoded u)) as Hload
    by (by apply loadUnitFromDB_Some).
  eexists _, _, _, _. split; [by apply Close_calm|].
  cbn [disk]. fold file1. split; [apply lookup_insert_eq|].
  split; [apply createObject_calm|]. fold firstID. fold purged.
  rewrite Hload. split.
  { destruct (purged.2 =? 0); [apply lookup_insert_eq|done]. }
  split; [reflexivity|].
  by apply (deserialize_encoded zeroUnit (id u) u) in Hint
    as (? & ? & _ & ? & ? & ? & ? & ? & ?).
Qed.

(** ** Instances *)

(** The loop bound at a day of retention and after [Configurate(0)]. *)
Lemma C10_load_loop_instance :
  Configurate (freshCtx 24 100) 0
  = {| limit := 0; db := OpenDB; unit_ptr := Some (initUnit zeroUnit 100) |}
  ∧ loadUnits 1000 ∅ (int (100 - 0 + 1)) 100 [] = OutOfFuel
  ∧ loadUnits 1000 ∅ (int (100 - 24 + 1)) 100 []
    = Done (recordsFrom ∅ (int (100 - 24 + 1)) 23).
Proof.
  assert (isInt 100) as H100 by in_range.
  assert (isInt (limit (freshCtx 24 100))) as H24 by (simpl; in_range).
  destruct (C10_load_loop_needs_positive_limit (freshCtx 24 100) ∅ 100
              1000 [] H100 H24) as (_ & Hcfg & Hzero & _ & Hpos).
  split; [exact Hcfg|]. split.
  - apply Hzero. rewrite modulus_eq. lia.
  - apply Hpos; simpl; lia.
Defined.

(** A window whose first identifier is the multiple of 24: the only point
    holds the first hour alone, both in the series loop and in the map
    returned by [GetData]. *)
Lemma C8_boundary_at_first_hour_gives_one :
  length (replicate 24 hourOne) = 24%nat
  ∧ Forall (λ u, NTotal u = 1) (replicate 24 hourOne)
  ∧ Z.rem (24 + 0) 24 = 0
  ∧ counters Days getTotal (replicate 24 hourOne) 24 = Done [1]
  ∧ counters Days getTotal (replicate 24 hourOne) 24 ≠ Done [24]
  ∧ ∃ d, GetData 100 (calm 47) dayOfOnes Days = Done (Some d)
         ∧ dns_queries d = [1]
         ∧ num_dns_queries d = 24.
Proof.
  split; [reflexivity|]. split; [by repeat constructor|].
  split; [reflexivity|]. split; [reflexivity|]. split; [by vm_compute|].
  eexists. split; [vm_compute; reflexivity|]. by vm_compute.
Qed.

Lemma twoBuckets_storeOk : storeOk (disk twoBuckets).
Proof.
  unfold storeOk. simpl. apply map_Forall_insert_2.
  - unfold recordOk. simpl. unfold rLast. lia.
  - apply map_Forall_singleton. unfold recordOk. simpl. unfold rLast. lia.
Defined.

(** Averages 7 and 3 over two busy records out of 24: the result is 5
    microseconds. *)
Lemma C9_average_instance :
  ∃ d, GetData 100 (calm 100) twoBuckets Hours = Done (Some d)
       ∧ avg_processing_time d = seconds 5.
Proof.
  destruct (C9_average_over_busy_records 100 (calm 100) twoBuckets
              (initUnit zeroUnit 100) Hours) as (_ & d & Hget & Havg & _).
  - reflexivity.
  - reflexivity.
  - reflexivity.
  - simpl. in_range.
  - simpl. rewrite halfModulus_eq. lia.
  - simpl. lia.
  - reflexivity.
  - exact twoBuckets_storeOk.
  - simpl. unfold rLast. simpl. lia.
  - vm_compute. reflexivity.
  - exists d. split; [exact Hget|]. rewrite Havg. vm_compute. reflexivity.
Defined.

(** Averages of 7, 3 and 7 microseconds over the three busy records of a
    window: the result is 5 microseconds, which is neither 17/3 nor 17/3
    microseconds in seconds.  And the first query of an engine with an
    empty file, a window without a busy record, returns nothing. *)
Lemma C9_average_is_rounded_down :
  (∃ units d,
     windowUnits 100 (ctx threeBusy) 100 (disk threeBusy) = Done units
     ∧ sumBy TimeAvg units = 17 ∧ busy units = 3
     ∧ GetData 100 (calm 100) threeBusy Hours = Done (Some d)
     ∧ avg_processing_time d = seconds 5
     ∧ avg_processing_time d ≠ PrimFloat.div (float64 17) (float64 3)
     ∧ avg_processing_time d
       ≠ PrimFloat.div (PrimFloat.div (float64 17) (float64 3))
                       (float64 1000000))
  ∧ GetData 100 (calm 100) {| ctx := freshCtx 24 100; disk := ∅ |} Hours
    = Panicked IntegerDivideByZero.
Proof.
  split; [|vm_compute; reflexivity].
  eexists _, _. split; [vm_compute; reflexivity|].
  split; [vm_compute; reflexivity|]. split; [vm_compute; reflexivity|].
  split; [vm_compute; reflexivity|]. split; [vm_compute; reflexivity|].
  split; intros H; apply (f_equal (PrimFloat.eqb (seconds 5))) in H;
    vm_compute in H; discriminate H.
Qed.

(** An engine with a week of retention whose file holds the hours 50 and
    77 is set to one day of retention in hour 100; at the rotation to hour
    101 the bucket of hour 77 = 101 - 24 is deleted and the older bucket
    of hour 50 stays. *)
Lemma C6_rotation_leaves_older_bucket :
  let week := {| limit := 168; db := OpenDB; unit_ptr := Some busyUnit |} in
  ∃ st',
    periodicFlush (calm 101) {| ctx := Configurate week 1; disk := agedFile |}
    = Done (Some st')
    ∧ limit (ctx st') = 24
    ∧ disk st' !! unitName 77 = None
    ∧ disk st' !! unitName 50 = Some (Some bucketA)
    ∧ 50 < 101 - limit (ctx st')
    ∧ ¬ (∀ i, i < 101 - limit (ctx st') → disk st' !! unitName i = None).
Proof.
  eexists. split; [vm_compute; reflexivity|]. split; [reflexivity|].
  split; [reflexivity|]. split; [reflexivity|]. split; [reflexivity|].
  intros Hall. specialize (Hall 50). discriminate Hall. reflexivity.
Qed.

Lemma C6_rotation_instance :
  ∃ st',
    periodicFlush (calm 101) {| ctx := busyCtx; disk := agedFile |}
    = Done (Some st')
    ∧ unit_ptr (ctx st') = Some (initUnit zeroUnit 101)
    ∧ disk st'
      = delete (unitName 77)
          (<[unitName 100 := Some (encoded busyUnit)]> agedFile).
Proof.
  destruct (C6_rotation_transaction (calm 101)
              {| ctx := busyCtx; disk := agedFile |} busyUnit)
    as (st' & Hrun & Hctx & _ & Hcases).
  - reflexivity.
  - simpl. lia.
  - exists st'. split; [exact Hrun|]. split; [by rewrite Hctx|].
    destruct Hcases as (_ & Hok & _); [discriminate|].
    by apply Hok.
Defined.

(** Shutdown in hour 100 with [busyUnit] live, then start-up on the same
    file: in hour 101 the live unit is the empty one of hour 101; in hour
    100 it is hour 100 again, with the per-kind counters of the stored
    record behind six zeroes. *)
Lemma C7_reopen_changes_unit :
  ∃ st1,
    Close (calm 100) {| ctx := busyCtx; disk := ∅ |} = Done st1
    ∧ id busyUnit = 100 ∧ nTotal busyUnit = 1
    ∧ nResult busyUnit = [0; 1; 0; 0; 0; 0]
    ∧ (∃ s2 file2 u2,
         createObject 1 (calm 101) (disk st1) = (Some s2, file2)
         ∧ unit_ptr s2 = Some u2
         ∧ id u2 = 101 ∧ nTotal u2 = 0 ∧ domains u2 = ∅)
    ∧ (∃ s2 file2 u2,
         createObject 1 (calm 100) (disk st1) = (Some s2, file2)
         ∧ unit_ptr s2 = Some u2
         ∧ id u2 = 100
         ∧ nResult u2 = [0; 0; 0; 0; 0; 0; 0; 1; 0; 0; 0; 0]).
Proof.
  eexists. split; [vm_compute; reflexivity|].
  split; [reflexivity|]. split; [reflexivity|]. split; [reflexivity|]. split.
  - eexists _, _, _. split; [vm_compute; reflexivity|].
    split; [reflexivity|]. by vm_compute.
  - eexists _, _, _. split; [vm_compute; reflexivity|].
    split; [reflexivity|]. by vm_compute.
Qed.

Lemma busyUnit_intUnit : intUnit busyUnit.
Proof.
  unfold intUnit, busyUnit, intMap. simpl.
  split; [in_range|]. split; [in_range|]. split.
  { repeat constructor; in_range. }
  split; [|split].
  - apply map_Forall_singleton. in_range.
  - apply map_Forall_empty.
  - apply map_Forall_singleton. in_range.
Defined.

Lemma C7_close_then_reopen_instance :
  ∃ st1 s2 file2 u2,
    Close (calm 100) {| ctx := busyCtx; disk := ∅ |} = Done st1
    ∧ createObject 1 (calm 100) (disk st1) = (Some s2, file2)
    ∧ unit_ptr s2 = Some u2
    ∧ id u2 = 100 ∧ nTotal u2 = 1
    ∧ domains u2 = {[ "example.org" := 1 ]}
    ∧ clients u2 = {[ "192.0.2.1" := 1 ]}.
Proof.
  destruct (C7_close_then_reopen_same_hour {| ctx := busyCtx; disk := ∅ |}
              busyUnit 1 100)
    as (st1 & s2 & file2 & u2 & Hclose & _ & Hopen & _ & Hu2 & Hid & Hn
        & _ & _ & _ & Hd & _ & Hc).
  - reflexivity.
  - reflexivity.
  - exact busyUnit_intUnit.
  - simpl. lia.
  - lia.
  - rewrite halfModulus_eq. lia.
  - exists st1, s2, file2, u2.
    split; [exact Hclose|]. split; [exact Hopen|]. split; [exact Hu2|].
    split; [exact Hid|]. split; [exact Hn|]. split.
    + apply Hd. simpl. rewrite map_size_singleton. lia.
    + apply Hc. simpl. rewrite map_size_singleton. lia.
Defined.

(** * Further properties of the code *)

(** ** Bucket names *)

Lemma bigEndian_snoc b d : bigEndian (b ++ [d]) = bigEndian b * 256 + d.
Proof. unfold bigEndian. by rewrite foldl_app. Qed.

Lemma length_putBigEndian n : ∀ x, length (putBigEndian n x) = n.
Proof.
  induction n as [|n IH]; intros x; simpl; [done|].
  rewrite length_app, IH. simpl. lia.
Qed.

Lemma putBigEndian_bytes n : ∀ x,
  Forall (λ d, 0 ≤ d < 256) (putBigEndian n x).
Proof.
  induction n as [|n IH]; intros x; simpl; [constructor|].
  apply Forall_app. split; [apply IH|].
  constructor; [|constructor]. apply Z.mod_pos_bound. lia.
Qed.

Lemma bigEndian_putBigEndian n : ∀ x,
  bigEndian (putBigEndian n x) = x `mod` 256 ^ Z.of_nat n.
Proof.
  induction n as [|n IH]; intros x.
  - simpl. by rewrite Z.mod_1_r.
  - cbn [putBigEndian]. rewrite bigEndian_snoc, IH.
    rewrite Nat2Z.inj_succ, Z.pow_succ_r by lia.
    rewrite (Z.rem_mul_r x 256 (256 ^ Z.of_nat n)) by lia. lia.
Qed.

(** X1: [itob] writes eight bytes, and they spell the bucket name used
    throughout; [btoi] reads back the integer [itob] was given, negative
    ones included; hence two different integers never share a name. *)
Theorem X1_itob_btoi_round_trip (v : Z) :
  isInt v →
  length (itobBytes v) = 8%nat
  ∧ Forall (λ d, 0 ≤ d < 256) (itobBytes v)
  ∧ bigEndian (itobBytes v) = unitName v
  ∧ btoiBytes (itobBytes v) = Done v
  ∧ ∀ w, isInt w → itobBytes w = itobBytes v → w = v.
Proof.
  intros Hv.
  assert (Hbe : ∀ x, bigEndian (itobBytes x) = uint x).
  { intros x. unfold itobBytes. rewrite bigEndian_putBigEndian.
    change (256 ^ Z.of_nat 8) with modulus. apply uint_id, uint_isUint. }
  assert (Hrt : ∀ x, isInt x → btoiBytes (itobBytes x) = Done x).
  { intros x Hx. unfold btoiBytes.
    assert (length (itobBytes x) = 8%nat) as Hlen
      by apply length_putBigEndian.
    rewrite Hlen. change (Z.of_nat 8 <? 8) with false. cbv iota.
    rewrite take_ge by lia. by rewrite Hbe, int_uint, int_id. }
  split; [apply length_putBigEndian|]. split; [apply putBigEndian_bytes|].
  split; [apply Hbe|]. split; [by apply Hrt|].
  intros w Hw Heq. apply Hrt in Hw. rewrite Heq, Hrt in Hw by done.
  by simplify_eq.
Qed.

Lemma X1_itob_btoi_instance :
  itobBytes (-2) = [255; 255; 255; 255; 255; 255; 255; 254]
  ∧ btoiBytes (itobBytes (-2)) = Done (-2).
Proof.
  assert (isInt (-2)) as H by in_range.
  destruct (X1_itob_btoi_round_trip (-2) H) as (_ & _ & _ & Hrt & _).
  split; [reflexivity|exact Hrt].
Defined.

(** ** Top lists *)

Lemma take_sortedPairs_sorted m n : StronglySorted byCount (take n (sortedPairs m)).
Proof.
  pose proof (sortSlice_sorted (pairOf <$> map_to_list m)) as Hs.
  fold (sortedPairs m) in Hs. rewrite <- (take_drop n (sortedPairs m)) in Hs.
  by apply StronglySorted_app_1_l in Hs.
Qed.

Lemma take_sortedPairs_above m n k v it :
  m !! k = Some v → pairOf (k, v) ∉ take n (sortedPairs m) →
  it ∈ take n (sortedPairs m) → uint v ≤ Count it.
Proof.
  intros Hk Hout Hin.
  assert (pairOf (k, v) ∈ drop n (sortedPairs m)) as Hdrop.
  { assert (pairOf (k, v) ∈ sortedPairs m) as Hall
      by (apply elem_of_sortedPairs; eauto).
    rewrite <- (take_drop n (sortedPairs m)), elem_of_app in Hall.
    by destruct Hall. }
  pose proof (sortSlice_sorted (pairOf <$> map_to_list m)) as Hs.
  fold (sortedPairs m) in Hs. rewrite <- (take_drop n (sortedPairs m)) in Hs.
  apply (StronglySorted_app_1_elem_of _ _ _ _ _ Hs Hin Hdrop).
Qed.

(** X2: for a bound that is not negative [convertMapToArray] returns
    (it never panics) the [max] entries of the map with the highest
    counts, all of them when the map has fewer: the list is in descending
    order of count, no name occurs twice, every pair is an entry of the
    map with its value converted to [uint], and no entry left out has a
    higher count than one that was taken. *)
Theorem X2_convertMapToArray_takes_highest (m : gmap string Z) (max : Z) :
  0 ≤ max →
  ∃ a,
    convertMapToArray m max = Done a
    ∧ length a = Nat.min (Z.to_nat max) (size m)
    ∧ StronglySorted byCount a
    ∧ NoDup (Name <$> a)
    ∧ (∀ it, it ∈ a → ∃ v, m !! Name it = Some v ∧ Count it = uint v)
    ∧ (∀ k v it, m !! k = Some v → pairOf (k, v) ∉ a → it ∈ a →
                 uint v ≤ Count it).
Proof.
  intros Hmax. exists (take (Z.to_nat max) (sortedPairs m)).
  split; [by apply convertMapToArray_done|].
  split; [by rewrite length_take, length_sortedPairs|].
  split; [apply take_sortedPairs_sorted|].
  split; [apply Name_take_NoDup|]. split.
  - intros it Hin. apply subseteq_take, elem_of_sortedPairs in Hin
      as (k & v & -> & Hk). by exists v.
  - intros k v it. apply take_sortedPairs_above.
Qed.

Lemma X2_convertMapToArray_instance :
  ∃ a, convertMapToArray {[ "a" := 2; "b" := 3; "c" := 4 ]} 2 = Done a
       ∧ length a = 2%nat
       ∧ StronglySorted byCount a.
Proof.
  destruct (X2_convertMapToArray_takes_highest
              {[ "a" := 2; "b" := 3; "c" := 4 ]} 2)
    as (a & Ha & Hlen & Hsorted & _); [lia|].
  exists a. split; [exact Ha|]. split; [|exact Hsorted].
  rewrite Hlen. reflexivity.
Defined.

(** X3: turning a map of [int] counters into its stored list and the
    list back into a map gives the map again when it has at most [max]
    entries, and in general the sub-map of its [max] highest counts. *)
Theorem X3_convert_round_trip (m : gmap string Z) (max : Z) :
  0 ≤ max → intMap m →
  ∃ a,
    convertMapToArray m max = Done a
    ∧ topOf (Z.to_nat max) m (convertArrayToMap a)
    ∧ ((size m ≤ Z.to_nat max)%nat → convertArrayToMap a = m).
Proof.
  intros Hmax Hm. exists (take (Z.to_nat max) (sortedPairs m)).
  split; [by apply convertMapToArray_done|].
  split; [by apply convertArrayToMap_take_topOf|].
  intros Hsz. by apply convertArrayToMap_take_small.
Qed.

Lemma abc_intMap : intMap {[ "a" := 2; "b" := 3; "c" := 4 ]}.
Proof.
  unfold intMap. apply map_Forall_insert_2; [in_range|].
  apply map_Forall_insert_2; [in_range|].
  apply map_Forall_singleton. in_range.
Defined.

Lemma X3_convert_round_trip_instance :
  ∃ a, convertMapToArray {[ "a" := 2; "b" := 3; "c" := 4 ]} 100 = Done a
       ∧ convertArrayToMap a = {[ "a" := 2; "b" := 3; "c" := 4 ]}.
Proof.
  destruct (X3_convert_round_trip {[ "a" := 2; "b" := 3; "c" := 4 ]} 100)
    as (a & Ha & _ & Hsmall); [lia|exact abc_intMap|].
  exists a. split; [exact Ha|]. apply Hsmall. vm_compute. lia.
Defined.

(** ** Average time *)

(** X4: the record of a unit holds the floor of [timeSum / nTotal], and
    the sum rebuilt by [deserialize] is that average times the total: it
    is not above the original sum and falls short of it by less than the
    total.  With no query both are 0. *)
Theorem X4_time_sum_round_trip (u0 u : unit) (i : Z) :
  isInt (nTotal u) → isInt (timeSum u) → 0 ≤ timeSum u → 0 ≤ nTotal u →
  ∃ udb,
    serialize u = Done udb
    ∧ (nTotal u = 0 →
       TimeAvg udb = 0 ∧ timeSum (deserialize (initUnit u0 i) udb) = 0)
    ∧ (0 < nTotal u →
       TimeAvg udb = timeSum u `div` nTotal u
       ∧ timeSum (deserialize (initUnit u0 i) udb) = TimeAvg udb * nTotal u
       ∧ timeSum (deserialize (initUnit u0 i) udb) ≤ timeSum u
         < timeSum (deserialize (initUnit u0 i) udb) + nTotal u).
Proof.
  intros Hn Ht Ht0 Hn0. exists (encoded u).
  split; [apply serialize_encoded|]. split.
  - intros Hz. cbn [encoded TimeAvg deserialize timeSum NTotal].
    rewrite Hz. split; [reflexivity|]. change (int 0) with 0.
    by rewrite Z.mul_0_l.
  - intros Hpos. cbn [encoded TimeAvg deserialize timeSum NTotal].
    destruct (Z.eqb_spec (nTotal u) 0) as [|_]; [lia|].
    rewrite Z.quot_div_nonneg by lia.
    pose proof (Z.div_mod (timeSum u) (nTotal u) ltac:(lia)) as Hdm.
    pose proof (Z.mod_pos_bound (timeSum u) (nTotal u) Hpos) as Hmod.
    assert (0 ≤ timeSum u `div` nTotal u) as Hq by (apply Z.div_pos; lia).
    assert (timeSum u `div` nTotal u ≤ timeSum u) as Hq'.
    { apply Z.div_le_upper_bound; [lia|]. nia. }
    assert (int (timeSum u `div` nTotal u) = timeSum u `div` nTotal u) as Hi
      by (apply int_id; revert Ht Hq Hq'; in_range).
    rewrite Hi.
    assert (uint (timeSum u `div` nTotal u) = timeSum u `div` nTotal u) as Hu
      by (apply uint_id; revert Ht Hq Hq'; in_range).
    rewrite Hu, Hi, int_uint, (int_id (nTotal u)) by done.
    assert (timeSum u `div` nTotal u * nTotal u ≤ timeSum u) as Hle by nia.
    rewrite int_id by (revert Ht Hq Hpos Hle; in_range; nia).
    repeat split; [done|nia].
Qed.

Lemma X4_time_sum_instance :
  ∃ udb,
    serialize (mkUnit 100 2 [0; 2; 0; 0; 0; 0] 7 ∅ ∅ ∅) = Done udb
    ∧ TimeAvg udb = 3
    ∧ timeSum (deserialize (initUnit zeroUnit 100) udb) = 6.
Proof.
  destruct (X4_time_sum_round_trip zeroUnit
              (mkUnit 100 2 [0; 2; 0; 0; 0; 0] 7 ∅ ∅ ∅) 100)
    as (udb & Hs & _ & Hpos).
  - simpl. in_range.
  - simpl. in_range.
  - simpl. lia.
  - simpl. lia.
  - exists udb. split; [exact Hs|].
    destruct Hpos as (Havg & Hsum & _); [simpl; lia|].
    rewrite Hsum, Havg. split; reflexivity.
Defined.

(** ** Ingest *)

Lemma screened_spec e : screened e = true ↔ screenedEntry e.
Proof.
  unfold screened, screenedEntry.
  rewrite !orb_true_iff, negb_true_iff, orb_false_iff.
  rewrite !Z.eqb_eq, !Z.eqb_neq. split.
  - intros [[Hr|Hd]|[H4 H16]]; [by left|right; left|right; right; lia].
    destruct (Domain e); [done|]. simpl in Hd. lia.
  - intros [Hr|[Hd|Hc]]; [by left; left|left; right; by rewrite Hd|right; lia].
Qed.

Lemma int_succ_ne n : int (n + 1) ≠ n.
Proof.
  intros Heq. pose proof (int_isInt (n + 1)) as Hi. rewrite Heq in Hi.
  assert (int (n + 1) = n + 1 ∨ int (n + 1) = n + 1 - modulus) as [H|H].
  { unfold int. revert Hi. unfold isInt. word_consts. intros Hi.
    destruct (Z.lt_ge_cases (n + 1) 9223372036854775808).
    - left. rewrite Z.mod_small by lia. lia.
    - right. replace (n + 1 + 9223372036854775808)
        with (n + 1 - 9223372036854775808 + 1 * 18446744073709551616) by lia.
      rewrite Z_mod_plus_full, Z.mod_small by lia. lia. }
  - lia.
  - rewrite modulus_eq in H. lia.
Qed.

Section IngestMore.

Variable ipString : list byte → string.

Lemma Update_unfold s e :
  Update ipString s e
  = if screened e then mret s
    else
      u ← deref (unit_ptr s);
      r ← index (nResult u) (Result e);
      mret {| limit := limit s; db := db s;
              unit_ptr := Some
                {| id := id u;
                   nTotal := int (nTotal u + 1);
                   nResult := <[Z.to_nat (Result e) := int (r + 1)]> (nResult u);
                   timeSum := int (timeSum u + int (Time e));
                   domains := if Result e =? RNotFiltered
                              then incr (domains u) (Domain e) else domains u;
                   blockedDomains := if Result e =? RNotFiltered
                                     then blockedDomains u
                                     else incr (blockedDomains u) (Domain e);
                   clients := incr (clients u) (ipString (Client e)) |} |}.
Proof. reflexivity. Qed.

End IngestMore.

(** X5: with a live unit, [Update] hands back the context it was given
    exactly for the events its opening test turns away: an unset
    classification, an empty domain name, or a client address that is
    neither 4 nor 16 bytes long.  Such events are dropped even when there
    is no live unit. *)
Theorem X5_update_unchanged_iff_screened
    (ipString : list byte → string) (s : statsCtx) (u : unit) (e : Entry) :
  unit_ptr s = Some u →
  (Update ipString s e = Done s ↔ screenedEntry e)
  ∧ (screenedEntry e →
     Update ipString {| limit := limit s; db := db s; unit_ptr := None |} e
     = Done {| limit := limit s; db := db s; unit_ptr := None |}).
Proof.
  intros Hu. split; [split|].
  - rewrite Update_unfold. destruct (screened e) eqn:Hs.
    { intros _. by apply screened_spec. }
    rewrite Hu. cbn [deref]. rewrite bind_Done.
    destruct (index (nResult u) (Result e)) as [r| | |]; try done.
    rewrite bind_Done. intros Heq. exfalso.
    injection Heq as Heq. rewrite <- Heq in Hu. cbn in Hu.
    injection Hu as Hn. apply (f_equal nTotal) in Hn. cbn in Hn.
    exact (int_succ_ne _ Hn).
  - intros Hs. rewrite Update_unfold.
    apply screened_spec in Hs. by rewrite Hs.
  - intros Hs. rewrite Update_unfold.
    apply screened_spec in Hs. by rewrite Hs.
Qed.

Lemma X5_update_screened_instance :
  Update (λ _, "192.0.2.1") (freshCtx 24 100)
    (mkEntry "example.org" [xc0; x00; x02; x01] 0 7)
  = Done (freshCtx 24 100).
Proof.
  apply (X5_update_unchanged_iff_screened _ _ (initUnit zeroUnit 100)).
  - reflexivity.
  - left. reflexivity.
Defined.

Lemma incr_lookup m k :
  incr m k !! k = Some (int (default 0 (m !! k) + 1)).
Proof. unfold incr. apply lookup_insert_eq. Qed.

Lemma incr_lookup_ne m k k' : k ≠ k' → incr m k !! k' = m !! k'.
Proof. intros Hne. unfold incr. by apply lookup_insert_ne. Qed.

(** X6: for a valid event (known classification, domain name, address of
    4 or 16 bytes) on a live unit that has a counter for every
    classification, [Update] returns; it adds one to the total, to the
    counter of the event's classification and to the counter of the
    client, adds the processing time to the time sum, and adds one to the
    counter of the domain in [domains] when the query was not filtered
    and in [blockedDomains] otherwise, the other map staying as it was.
    Nothing else changes. *)
Theorem X6_update_counts_valid_event
    (ipString : list byte → string) (s : statsCtx) (u : unit) (e : Entry) :
  unit_ptr s = Some u → (Z.to_nat rLast ≤ length (nResult u))%nat →
  validEntry e →
  ∃ u' old,
    Update ipString s e
    = Done {| limit := limit s; db := db s; unit_ptr := Some u' |}
    ∧ id u' = id u
    ∧ nTotal u' = int (nTotal u + 1)
    ∧ timeSum u' = int (timeSum u + int (Time e))
    ∧ nResult u !! Z.to_nat (Result e) = Some old
    ∧ nResult u' !! Z.to_nat (Result e) = Some (int (old + 1))
    ∧ length (nResult u') = length (nResult u)
    ∧ (∀ k, k ≠ Z.to_nat (Result e) → nResult u' !! k = nResult u !! k)
    ∧ clients u' !! ipString (Client e)
      = Some (int (default 0 (clients u !! ipString (Client e)) + 1))
    ∧ (∀ k, k ≠ ipString (Client e) → clients u' !! k = clients u !! k)
    ∧ (Result e = RNotFiltered →
       domains u' !! Domain e
       = Some (int (default 0 (domains u !! Domain e) + 1))
       ∧ (∀ k, k ≠ Domain e → domains u' !! k = domains u !! k)
       ∧ blockedDomains u' = blockedDomains u)
    ∧ (Result e ≠ RNotFiltered →
       blockedDomains u' !! Domain e
       = Some (int (default 0 (blockedDomains u !! Domain e) + 1))
       ∧ (∀ k, k ≠ Domain e → blockedDomains u' !! k = blockedDomains u !! k)
       ∧ domains u' = domains u).
Proof.
  intros Hu Hlen Hv.
  assert (screened e = false) as Hs.
  { destruct (screened e) eqn:Hs; [|done]. apply screened_spec in Hs.
    destruct Hv as (Hr & Hd & Hc). destruct Hs as [?|[?|?]]; [lia|done..]. }
  destruct Hv as (Hr & _ & _).
  rewrite Update_unfold, Hs, Hu. cbn [deref]. rewrite bind_Done.
  destruct (index_ok (nResult u) (Result e)) as [old Hold];
    [lia|unfold rLast in *; lia|].
  rewrite Hold, bind_Done.
  assert (nResult u !! Z.to_nat (Result e) = Some old) as Hlk.
  { unfold index in Hold. destruct (Z.ltb_spec (Result e) 0); [done|].
    destruct (nResult u !! Z.to_nat (Result e)); by simplify_eq. }
  eexists _, old. split; [reflexivity|]. cbn.
  split; [done|]. split; [done|]. split; [done|]. split; [done|].
  split.
  { apply list_lookup_insert_eq. unfold rLast in *. lia. }
  split; [apply length_insert|].
  split; [intros k Hk; by apply list_lookup_insert_ne|].
  split; [apply incr_lookup|].
  split; [intros k Hk; by apply incr_lookup_ne|].
  split.
  - intros Hnf. rewrite Hnf. cbn.
    split; [apply incr_lookup|]. split; [|done].
    intros k Hk. by apply incr_lookup_ne.
  - intros Hnf. destruct (Z.eqb_spec (Result e) RNotFiltered) as [|_]; [done|].
    split; [apply incr_lookup|]. split; [|done].
    intros k Hk. by apply incr_lookup_ne.
Qed.

Lemma X6_update_valid_instance :
  ∃ u',
    Update (λ _, "192.0.2.1") (freshCtx 24 100)
      (mkEntry "example.org" [xc0; x00; x02; x01] RNotFiltered 7)
    = Done {| limit := 24; db := OpenDB; unit_ptr := Some u' |}
    ∧ nTotal u' = 1
    ∧ nResult u' !! 1%nat = Some 1
    ∧ domains u' !! "example.org" = Some 1
    ∧ blockedDomains u' = ∅.
Proof.
  destruct (X6_update_counts_valid_event (λ _, "192.0.2.1") (freshCtx 24 100)
              (initUnit zeroUnit 100)
              (mkEntry "example.org" [xc0; x00; x02; x01] RNotFiltered 7))
    as (u' & old & Hrun & _ & Hn & _ & Hold & Hres & _ & _ & _ & _ & Hnf & _).
  - reflexivity.
  - unfold rLast. simpl. lia.
  - split; [simpl; unfold RNotFiltered, rLast; lia|]. split; [done|].
    left. reflexivity.
  - exists u'. split; [exact Hrun|]. split; [exact Hn|].
    destruct (Hnf eq_refl) as (Hd & _ & Hb).
    split; [|split; [exact Hd|exact Hb]].
    change (nResult u' !! 1%nat) with
      (nResult u' !! Z.to_nat (Result
         (mkEntry "example.org" [xc0; x00; x02; x01] RNotFiltered 7))).
    rewrite Hres. f_equal.
    change (Some 0 = Some old) in Hold. by injection Hold as <-.
Defined.

(** ** The counters of a unit stay in step *)

Lemma sumList_cons x l : sumList (x :: l) = x + sumList l.
Proof. reflexivity. Qed.

Lemma sumList_insert l : ∀ i old v,
  l !! i = Some old → sumList (<[i:=v]> l) = sumList l - old + v.
Proof.
  unfold sumList.
  induction l as [|x l IH]; intros [|i] old v Hl; simplify_eq/=.
  - lia.
  - rewrite (IH _ _ _ Hl). lia.
Qed.

Lemma sumList_lookup_le l : ∀ i x,
  Forall (λ c, 0 ≤ c) l → l !! i = Some x → 0 ≤ x ≤ sumList l.
Proof.
  unfold sumList.
  induction l as [|y l IH]; intros [|i] x Hall Hl; simplify_eq/=;
    apply Forall_cons in Hall as [Hy Hall].
  - assert (0 ≤ foldr Z.add 0 l); [|lia]. clear -Hall.
    induction Hall; simpl; lia.
  - specialize (IH _ _ Hall Hl). lia.
Qed.

Lemma mapSum_insert_None (m : gmap string Z) k v :
  m !! k = None → mapSum (<[k:=v]> m) = v + mapSum m.
Proof.
  intros Hk. unfold mapSum. rewrite map_fold_insert_L; [done| |done].
  intros. lia.
Qed.

Lemma mapSum_delete (m : gmap string Z) k w :
  m !! k = Some w → mapSum m = w + mapSum (delete k m).
Proof.
  intros Hk. unfold mapSum. rewrite (map_fold_delete_L _ _ k w m); [done| |done].
  intros. lia.
Qed.

Lemma mapSum_insert (m : gmap string Z) k v :
  mapSum (<[k:=v]> m) = mapSum m - default 0 (m !! k) + v.
Proof.
  destruct (m !! k) as [w|] eqn:Hk; simpl.
  - rewrite <- insert_delete_eq, mapSum_insert_None by apply lookup_delete_eq.
    rewrite (mapSum_delete m k w) by done. lia.
  - rewrite mapSum_insert_None by done. lia.
Qed.

Lemma mapSum_nonneg (m : gmap string Z) :
  map_Forall (λ _ v, 0 ≤ v) m → 0 ≤ mapSum m.
Proof.
  induction m as [|k v m Hk IH] using map_ind; intros Hall.
  - done.
  - apply map_Forall_insert in Hall as [Hv Hall]; [|done].
    rewrite mapSum_insert_None by done. specialize (IH Hall). lia.
Qed.

Lemma mapSum_lookup_le (m : gmap string Z) k :
  map_Forall (λ _ v, 0 ≤ v) m → 0 ≤ default 0 (m !! k) ≤ mapSum m.
Proof.
  intros Hall. pose proof (mapSum_nonneg m Hall) as Hm.
  destruct (m !! k) as [w|] eqn:Hk; simpl; [|lia].
  pose proof (Hall _ _ Hk) as Hw. simpl in Hw.
  rewrite (mapSum_delete m k w) by done.
  pose proof (mapSum_nonneg (delete k m) (map_Forall_delete _ _ k Hall)). lia.
Qed.

Lemma mapSum_incr (m : gmap string Z) k :
  map_Forall (λ _ v, 0 ≤ v) m → mapSum m + 1 < halfModulus →
  mapSum (incr m k) = mapSum m + 1
  ∧ map_Forall (λ _ v, 0 ≤ v) (incr m k).
Proof.
  intros Hall Hmax. pose proof (mapSum_lookup_le m k Hall) as Hk.
  unfold incr.
  assert (int (default 0 (m !! k) + 1) = default 0 (m !! k) + 1) as ->
    by (apply int_id; revert Hk Hmax; in_range).
  split; [rewrite mapSum_insert; lia|].
  apply map_Forall_insert_2; [lia|done].
Qed.

Lemma balanced_initUnit u0 t : balanced (initUnit u0 t) ↔ nTotal u0 = 0.
Proof.
  unfold balanced, initUnit. simpl. split.
  { intros (_ & _ & _ & _ & Hn & _). exact Hn. }
  intros ->. repeat split; try apply map_Forall_empty.
  unfold make, rLast. simpl. by repeat constructor.
Qed.

Lemma Update_balanced ipString s u e s' :
  unit_ptr s = Some u → balanced u → nTotal u + 1 < halfModulus →
  Update ipString s e = Done s' →
  ∃ u', unit_ptr s' = Some u' ∧ balanced u'
        ∧ limit s' = limit s ∧ db s' = db s ∧ id u' = id u
        ∧ nTotal u' = nTotal u + (if screened e then 0 else 1).
Proof.
  intros Hu (Hres & Hdom & Hblk & Hcli & Hn1 & Hn2 & Hn3) Hmax.
  rewrite Update_unfold. destruct (screened e) eqn:Hs.
  { intros [= <-]. exists u. rewrite Z.add_0_r. by repeat split. }
  rewrite Hu. cbn [deref]. rewrite bind_Done.
  destruct (index (nResult u) (Result e)) as [old| | |] eqn:Hold; try done.
  rewrite bind_Done. intros [= <-].
  assert (nResult u !! Z.to_nat (Result e) = Some old) as Hlk.
  { unfold index in Hold. destruct (Z.ltb_spec (Result e) 0); [done|].
    destruct (nResult u !! Z.to_nat (Result e)); by simplify_eq. }
  pose proof (sumList_lookup_le _ _ _ Hres Hlk) as Hle.
  pose proof (mapSum_nonneg _ Hdom) as Hd0.
  pose proof (mapSum_nonneg _ Hblk) as Hb0.
  assert (int (nTotal u + 1) = nTotal u + 1) as HiN
    by (apply int_id; revert Hle Hn1 Hmax; in_range).
  assert (int (old + 1) = old + 1) as HiO
    by (apply int_id; revert Hle Hn1 Hmax; in_range).
  destruct (mapSum_incr (clients u) (ipString (Client e)))
    as [Hc1 Hc2]; [done|lia|].
  eexists. split; [reflexivity|]. cbn [nTotal id limit db].
  split; [|by rewrite HiN].
  unfold balanced. cbn [nResult domains blockedDomains clients nTotal].
  rewrite HiN, HiO, Hc1, (sumList_insert _ _ old) by done.
  destruct (Result e =? RNotFiltered).
  - destruct (mapSum_incr (domains u) (Domain e)) as [Hd1 Hd2]; [done|lia|].
    rewrite Hd1. repeat split; try done; try lia.
    apply Forall_insert; [done|lia].
  - destruct (mapSum_incr (blockedDomains u) (Domain e)) as [Hb1 Hb2];
      [done|lia|].
    rewrite Hb1. repeat split; try done; try lia.
    apply Forall_insert; [done|lia].
Qed.

(** X7: the counters of a unit stay in step under ingest.  Starting from
    a live unit in which no counter is negative and the total equals the
    sum of the per-kind counters, the sum of the client counters and the
    sum of the counters of the two domain maps, any series of [Update]
    calls that all return leaves a live unit with the same properties, as
    long as the total stays below 2^63; the retention, the database
    handle and the identifier of the unit are untouched, and the total
    has grown by the number of events that passed the opening test.  The
    unit [initUnit] sets up is such a starting point. *)
Theorem X7_update_keeps_counters_in_step
    (ipString : list byte → string) (es : list Entry)
    (s s' : statsCtx) (u : unit) :
  unit_ptr s = Some u → balanced u →
  nTotal u + Z.of_nat (length es) < halfModulus →
  UpdateAll ipString s es = Done s' →
  ∃ u', unit_ptr s' = Some u' ∧ balanced u'
        ∧ limit s' = limit s ∧ db s' = db s ∧ id u' = id u
        ∧ nTotal u'
          = nTotal u + Z.of_nat (length (filter (λ e, screened e = false) es)).
Proof.
  revert s u. induction es as [|e es IH]; intros s u Hu Hbal Hmax Hrun.
  - simpl in Hrun. injection Hrun as <-. exists u.
    rewrite filter_nil. simpl. rewrite Z.add_0_r.
    split; [done|]. split; [done|]. by repeat split.
  - cbn [UpdateAll] in Hrun. simpl length in Hmax.
    destruct (Update ipString s e) as [s1| | |] eqn:Hstep; try done.
    rewrite bind_Done in Hrun.
    pose proof Hbal as (Hres & _ & _ & _ & Hn1 & _).
    assert (0 ≤ nTotal u) as Hn0.
    { rewrite Hn1. clear -Hres. unfold sumList.
      induction Hres; simpl; lia. }
    destruct (Update_balanced _ _ _ _ _ Hu Hbal ltac:(lia) Hstep)
      as (u1 & Hu1 & Hbal1 & Hl1 & Hd1 & Hi1 & Ht1).
    destruct (IH s1 u1 Hu1 Hbal1) as (u' & Hu' & Hbal' & Hl' & Hd' & Hi' & Ht');
      [|done|].
    { rewrite Ht1. destruct (screened e); lia. }
    exists u'. split; [done|]. split; [done|].
    split; [congruence|]. split; [congruence|]. split; [congruence|].
    rewrite Ht', Ht1, filter_cons.
    destruct (screened e); destruct (decide _); try done; simpl length; lia.
Qed.

Lemma X7_update_keeps_counters_instance :
  ∃ s' u',
    UpdateAll oneClient (freshCtx 24 100) threeEvents = Done s'
    ∧ unit_ptr s' = Some u'
    ∧ balanced u'
    ∧ nTotal u' = 2.
Proof.
  assert (∃ s', UpdateAll oneClient (freshCtx 24 100) threeEvents = Done s')
    as [s' Hrun] by (eexists; reflexivity).
  assert (nTotal (initUnit zeroUnit 100) + Z.of_nat (length threeEvents)
          < halfModulus) as Hmax by (rewrite halfModulus_eq; simpl; lia).
  destruct (X7_update_keeps_counters_in_step oneClient threeEvents
              (freshCtx 24 100) s' (initUnit zeroUnit 100) eq_refl
              (proj2 (balanced_initUnit zeroUnit 100) eq_refl) Hmax Hrun)
    as (u' & Hu' & Hbal & _ & _ & _ & Hn).
  exists s', u'. split; [exact Hrun|]. split; [exact Hu'|].
  split; [exact Hbal|]. rewrite Hn. reflexivity.
Defined.

(** ** Persistence layer *)

Lemma unitName_inj a b : isInt a → isInt b → unitName a = unitName b → a = b.
Proof.
  unfold unitName, itob. intros Ha Hb Heq.
  rewrite <- (int_id a), <- (int_id b) by done.
  by rewrite <- (int_uint a), <- (int_uint b), Heq.
Qed.

Lemma loadUnitFromDB_createBucket tx name i :
  loadUnitFromDB (createBucketIfNotExists tx name) i = loadUnitFromDB tx i.
Proof.
  unfold createBucketIfNotExists, loadUnitFromDB, bucket in *.
  destruct (tx !! name) eqn:Hn; [done|].
  destruct (decide (name = unitName i)) as [->|Hne].
  - by rewrite lookup_insert_eq, Hn.
  - by rewrite lookup_insert_ne.
Qed.

Lemma flushUnitToDB_other e tx i i' udb :
  isInt i → isInt i' → i' ≠ i →
  loadUnitFromDB (flushUnitToDB e tx i udb).1 i' = loadUnitFromDB tx i'.
Proof.
  intros Hi Hi' Hne. unfold flushUnitToDB.
  destruct (createOk e), (encodeOk e), (putOk e); simpl;
    rewrite ?loadUnitFromDB_createBucket; try done.
  unfold loadUnitFromDB at 1. rewrite lookup_insert_ne.
  - apply loadUnitFromDB_createBucket.
  - intros Heq. apply unitName_inj in Heq; done.
Qed.

(** X8: what [flushUnitToDB] wrote is what [loadUnitFromDB] reads.
    After a flush that reports success the record of that identifier is
    the one flushed; after a flush that reports failure (at the creation
    of the bucket, at the encoding or at the put) loading that identifier
    gives what it gave before; the records of all other identifiers are
    never affected.  The flush succeeds exactly when its three steps
    do. *)
Theorem X8_flush_then_load
    (e : env) (tx : gmap Z bucket) (i i' : Z) (udb : unitDB) :
  isInt i → isInt i' →
  ((flushUnitToDB e tx i udb).2 = true ↔
   createOk e && encodeOk e && putOk e = true)
  ∧ ((flushUnitToDB e tx i udb).2 = true →
     loadUnitFromDB (flushUnitToDB e tx i udb).1 i = Some udb)
  ∧ ((flushUnitToDB e tx i udb).2 = false →
     loadUnitFromDB (flushUnitToDB e tx i udb).1 i = loadUnitFromDB tx i)
  ∧ (i' ≠ i →
     loadUnitFromDB (flushUnitToDB e tx i udb).1 i' = loadUnitFromDB tx i').
Proof.
  intros Hi Hi'. unfold flushUnitToDB.
  destruct (createOk e), (encodeOk e), (putOk e); simpl;
    repeat split; try done; intros;
    rewrite ?loadUnitFromDB_createBucket; try done.
  - unfold loadUnitFromDB. by rewrite lookup_insert_eq.
  - unfold loadUnitFromDB at 1. rewrite lookup_insert_ne.
    + apply loadUnitFromDB_createBucket.
    + intros Heq. apply unitName_inj in Heq; done.
Qed.

Lemma X8_flush_then_load_instance :
  loadUnitFromDB (flushUnitToDB (calm 100) ∅ 99 bucketA).1 99 = Some bucketA
  ∧ loadUnitFromDB (flushUnitToDB (calm 100) ∅ 99 bucketA).1 98 = None.
Proof.
  assert (isInt 99) as H99 by in_range.
  assert (isInt 98) as H98 by in_range.
  destruct (X8_flush_then_load (calm 100) ∅ 99 98 bucketA H99 H98)
    as (_ & Hok & _ & Hother).
  split; [by apply Hok|]. rewrite Hother by lia. reflexivity.
Defined.

(** X9: [deleteUnit] reports success exactly when the bucket of the
    identifier exists; afterwards that identifier has no bucket and no
    record, the records of the other identifiers are as before, and
    deleting a bucket that does not exist changes nothing. *)
Theorem X9_deleteUnit_removes_one_bucket
    (tx : gmap Z bucket) (i i' : Z) :
  isInt i → isInt i' →
  ((deleteUnit tx i).2 = true ↔ is_Some (tx !! unitName i))
  ∧ (deleteUnit tx i).1 !! unitName i = None
  ∧ loadUnitFromDB (deleteUnit tx i).1 i = None
  ∧ ((deleteUnit tx i).2 = false → (deleteUnit tx i).1 = tx)
  ∧ (i' ≠ i →
     (deleteUnit tx i).1 !! unitName i' = tx !! unitName i'
     ∧ loadUnitFromDB (deleteUnit tx i).1 i' = loadUnitFromDB tx i').
Proof.
  intros Hi Hi'. rewrite deleteUnit_fst, deleteUnit_snd.
  split; [apply bool_decide_eq_true|].
  split; [apply lookup_delete_eq|].
  split; [unfold loadUnitFromDB; by rewrite lookup_delete_eq|].
  split.
  - intros Hno. apply bool_decide_eq_false in Hno. apply delete_id.
    destruct (tx !! unitName i) eqn:Hl; [|done]. exfalso. eauto.
  - intros Hne.
    assert (unitName i ≠ unitName i') as Hn
      by (intros Heq; apply unitName_inj in Heq; done).
    split; [by apply lookup_delete_ne|].
    unfold loadUnitFromDB. by rewrite lookup_delete_ne.
Qed.

Lemma X9_deleteUnit_instance :
  (deleteUnit agedFile 77).2 = true
  ∧ loadUnitFromDB (deleteUnit agedFile 77).1 77 = None
  ∧ loadUnitFromDB (deleteUnit agedFile 77).1 50 = Some bucketA
  ∧ (deleteUnit agedFile 60).1 = agedFile.
Proof.
  assert (isInt 77) as H77 by in_range.
  assert (isInt 50) as H50 by in_range.
  assert (isInt 60) as H60 by in_range.
  destruct (X9_deleteUnit_removes_one_bucket agedFile 77 50 H77 H50)
    as (Hok & _ & Hgone & _ & Hother).
  destruct (X9_deleteUnit_removes_one_bucket agedFile 60 50 H60 H50)
    as (_ & _ & _ & Hmiss & _).
  split; [apply Hok; by eexists|]. split; [exact Hgone|].
  split; [|by apply Hmiss].
  destruct Hother as [_ ->]; [lia|reflexivity].
Defined.

(** ** Start-up *)

Lemma forEachBkt_subseteq firstID names : ∀ tx n,
  (forEachBkt firstID names tx n).1 ⊆ tx.
Proof.
  induction names as [|x names IH]; intros tx n; simpl; [done|].
  destruct (btoi x <? firstID); [|done].
  etrans; [apply IH|apply delete_subseteq].
Qed.

(** The file [createObject] leaves, in terms of the purge. *)
Lemma createObject_file lim e file :
  let purged := forEachBkt (int (now e - int (lim * 24) - 1))
                           (bucketNames file) file 0 in
  (createObject lim e file).2
  = if openOk e && beginOk e && negb (purged.2 =? 0) && commitOk e
    then purged.1 else file.
Proof.
  intros purged. unfold createObject, dbOpen, beginTxn.
  destruct (openOk e); [|done]. cbn [db limit].
  destruct (beginOk e); [|done]. fold purged.
  destruct purged as [tx' unitDel]. cbn [fst snd andb].
  unfold rollback, commit. by destruct (unitDel =? 0), (commitOk e).
Qed.

(** X10: start-up only ever removes buckets.  Whatever the store
    answers, the file [createObject] leaves is a part of the file it
    found; every bucket whose name reads as an identifier not below
    [now - limit - 1] is left as it was, so that the records of the
    current hour and of the [limit + 1] hours before it load as before;
    and the file is untouched when the database cannot be opened, when no
    transaction can be begun, or when the commit fails. *)
Theorem X10_startup_purge_spares_window
    (lim : Z) (e : env) (file : gmap Z bucket) :
  (createObject lim e file).2 ⊆ file
  ∧ (∀ name, ¬ (btoi name < int (now e - int (lim * 24) - 1)) →
             (createObject lim e file).2 !! name = file !! name)
  ∧ (isInt (now e - lim * 24 - 1) → isInt (lim * 24) →
     ∀ i, isInt i → now e - lim * 24 - 1 ≤ i →
          loadUnitFromDB (createObject lim e file).2 i = loadUnitFromDB file i)
  ∧ (openOk e = false ∨ beginOk e = false ∨ commitOk e = false →
     (createObject lim e file).2 = file).
Proof.
  rewrite createObject_file. cbv zeta.
  set (firstID := int (now e - int (lim * 24) - 1)).
  set (purged := forEachBkt firstID (bucketNames file) file 0).
  assert (Hkeep : ∀ name, ¬ (btoi name < firstID) →
            (if openOk e && beginOk e && negb (purged.2 =? 0) && commitOk e
             then purged.1 else file) !! name = file !! name).
  { intros name Hname. destruct (_ && _); [|done].
    by apply forEachBkt_keeps. }
  split; [|split; [|split]].
  - destruct (_ && _); [apply forEachBkt_subseteq|done].
  - exact Hkeep.
  - intros Hf Hl i Hi Hle. unfold loadUnitFromDB. rewrite Hkeep; [done|].
    unfold btoi, unitName, itob. rewrite int_uint, int_id by done.
    unfold firstID. rewrite (int_id (lim * 24)), int_id by done. lia.
  - intros [Hf | [Hf | Hf]]; rewrite Hf; [done|by rewrite andb_false_r..].
Qed.

Lemma createObject_unit lim e file :
  let purged := forEachBkt (int (now e - int (lim * 24) - 1))
                           (bucketNames file) file 0 in
  (createObject lim e file).1
  = if openOk e
    then Some {| limit := int (lim * 24); db := OpenDB;
                 unit_ptr := Some
                   (match (if beginOk e then loadUnitFromDB purged.1 (now e)
                           else None) with
                    | Some r => deserialize (initUnit zeroUnit (now e)) r
                    | None => initUnit zeroUnit (now e)
                    end) |}
    else None.
Proof.
  intros purged. unfold createObject, dbOpen, beginTxn.
  destruct (openOk e); [|done]. cbn [db limit].
  destruct (beginOk e); [|done]. fold purged.
  by destruct purged as [tx' unitDel].
Qed.

(** The bucket names as [tx.ForEach] visits them: each name once, in
    key order. *)
Lemma elem_of_bucketNames tx name :
  name ∈ bucketNames tx ↔ is_Some (tx !! name).
Proof.
  unfold bucketNames. rewrite merge_sort_Permutation, list_elem_of_fmap.
  split.
  - intros ([k b] & -> & Hin). apply elem_of_map_to_list in Hin. by eexists.
  - intros [b Hb]. exists (name, b). split; [done|].
    by apply elem_of_map_to_list.
Qed.

Lemma bucketNames_NoDup tx : NoDup (bucketNames tx).
Proof.
  unfold bucketNames. rewrite merge_sort_Permutation.
  apply NoDup_fst_map_to_list.
Qed.

Lemma bucketNames_sorted tx : StronglySorted Z.le (bucketNames tx).
Proof. apply StronglySorted_merge_sort; apply _. Qed.

(** The purge stops at the first name that does not read below the
    bound: the names after it are not visited. *)
Lemma forEachBkt_stops firstID l1 : ∀ x l2 tx n name,
  ¬ (btoi x < firstID) → name ∉ l1 →
  (forEachBkt firstID (l1 ++ x :: l2) tx n).1 !! name = tx !! name.
Proof.
  induction l1 as [|y l1 IH]; intros x l2 tx n name Hx Hname; simpl.
  - by destruct (Z.ltb_spec (btoi x) firstID).
  - apply not_elem_of_cons in Hname as [Hne Hname].
    destruct (btoi y <? firstID); [|done].
    rewrite IH by done. by apply lookup_delete_ne.
Qed.

(** The purge deletes a name when it and the names before it all read
    below the bound. *)
Lemma forEachBkt_deletes firstID l1 : ∀ name l2 tx n,
  Forall (λ x, btoi x < firstID) (l1 ++ [name]) →
  (forEachBkt firstID (l1 ++ name :: l2) tx n).1 !! name = None.
Proof.
  induction l1 as [|y l1 IH]; intros name l2 tx n Hall; simpl in *;
    apply Forall_cons in Hall as [Hy Hall];
    destruct (Z.ltb_spec (btoi y) firstID) as [_|?] ||
    destruct (Z.ltb_spec (btoi name) firstID) as [_|?]; try lia.
  - eapply lookup_weaken_None; [|apply forEachBkt_subseteq].
    apply lookup_delete_eq.
  - by apply IH.
Qed.

(** What the purge of [createObject] does to the bucket of hour [i]: it
    is left as it was when a name at or before its own in key order
    does not read below the bound, and it is gone when all of them do. *)
Lemma purge_bucket firstID file i :
  let purged := forEachBkt firstID (bucketNames file) file 0 in
  ((∃ name, is_Some (file !! name) ∧ name ≤ unitName i
            ∧ ¬ (btoi name < firstID)) →
   purged.1 !! unitName i = file !! unitName i)
  ∧ ((∀ name, is_Some (file !! name) → name ≤ unitName i →
              btoi name < firstID) →
     purged.1 !! unitName i = None).
Proof.
  intros purged. unfold purged. split.
  - intros (name & Hin & Hle & Hkeep).
    apply elem_of_bucketNames, list_elem_of_split in Hin
      as (l1 & l2 & Hnames).
    pose proof (bucketNames_sorted file) as Hsort.
    pose proof (bucketNames_NoDup file) as Hdup.
    rewrite Hnames in Hsort, Hdup |- *.
    apply forEachBkt_stops; [done|]. intros Hl1.
    apply StronglySorted_app in Hsort as (Hord & _ & _).
    apply NoDup_app in Hdup as (_ & Hdisj & _).
    assert (unitName i ≤ name) by (apply Hord; [done|left]).
    apply (Hdisj (unitName i)); [done|].
    replace (unitName i) with name by lia. left.
  - intros Hall.
    destruct (file !! unitName i) as [b|] eqn:Hb.
    2:{ eapply lookup_weaken_None; [exact Hb|apply forEachBkt_subseteq]. }
    assert (unitName i ∈ bucketNames file) as Hin
      by (apply elem_of_bucketNames; by eexists).
    apply list_elem_of_split in Hin as (l1 & l2 & Hnames).
    pose proof (bucketNames_sorted file) as Hsort.
    rewrite Hnames in Hsort |- *.
    apply StronglySorted_app in Hsort as (Hord & _ & _).
    apply forEachBkt_deletes, Forall_app. split.
    + apply Forall_forall. intros x Hx. apply Hall.
      * apply elem_of_bucketNames. rewrite Hnames.
        apply elem_of_app. by left.
      * apply Hord; [done|left].
    + constructor; [|constructor]. apply Hall; [by eexists|lia].
Qed.

(** X11: [createObject] returns no engine exactly when the database
    cannot be opened, and then leaves the file alone.  Otherwise the
    engine has [24 * limit] hours of retention (as an [int]), an open
    database and a live unit for the current hour.  That unit is the one
    rebuilt from the record stored for the hour when a transaction can
    be begun and the purge leaves the record, which it does when a
    bucket name at or before the hour's own in key order does not read
    below the bound [now - 24 * limit - 1]: the hour's own name for one,
    as it always is for a limit that is not negative (without
    wrap-around).  It is the empty unit in every other case: when no
    transaction can be begun, when the file has no record for the hour,
    and when every bucket name up to the hour's own reads below the
    bound, the purge deleting the record before it is loaded; so it is
    with a negative limit on a file whose names are all below [2^63]. *)
Theorem X11_startup_live_unit (lim : Z) (e : env) (file : gmap Z bucket) :
  (openOk e = false → createObject lim e file = (None, file))
  ∧ (openOk e = true →
     ∃ s u,
       (createObject lim e file).1 = Some s
       ∧ limit s = int (lim * 24) ∧ db s = OpenDB
       ∧ unit_ptr s = Some u ∧ id u = now e
       ∧ (beginOk e = false ∨ loadUnitFromDB file (now e) = None →
          u = initUnit zeroUnit (now e))
       ∧ (∀ r, beginOk e = true → loadUnitFromDB file (now e) = Some r →
               ¬ (btoi (unitName (now e)) < int (now e - int (lim * 24) - 1)) →
               u = deserialize (initUnit zeroUnit (now e)) r)
       ∧ (∀ r, beginOk e = true → loadUnitFromDB file (now e) = Some r →
               (∃ name, is_Some (file !! name) ∧ name ≤ unitName (now e)
                  ∧ ¬ (btoi name < int (now e - int (lim * 24) - 1))) →
               u = deserialize (initUnit zeroUnit (now e)) r)
       ∧ (∀ r, beginOk e = true → loadUnitFromDB file (now e) = Some r →
               0 ≤ lim → isInt (now e) → isInt (lim * 24) →
               isInt (now e - lim * 24 - 1) →
               u = deserialize (initUnit zeroUnit (now e)) r)
       ∧ ((∀ name, is_Some (file !! name) → name ≤ unitName (now e) →
                   btoi name < int (now e - int (lim * 24) - 1)) →
          u = initUnit zeroUnit (now e))
       ∧ (lim < 0 → 0 ≤ now e → isInt (now e) → isInt (lim * 24) →
          isInt (now e - lim * 24 - 1) →
          (∀ name, is_Some (file !! name) → 0 ≤ name < halfModulus) →
          u = initUnit zeroUnit (now e))).
Proof.
  split.
  - intros Ho. unfold createObject, dbOpen. by rewrite Ho.
  - intros Ho. rewrite createObject_unit. cbv zeta. rewrite Ho.
    set (firstID := int (now e - int (lim * 24) - 1)).
    set (purged := forEachBkt firstID (bucketNames file) file 0).
    destruct (purge_bucket firstID file (now e)) as [Hleft Hgone].
    fold purged in Hleft, Hgone.
    assert (Hkept : ∀ r, beginOk e = true →
              loadUnitFromDB file (now e) = Some r →
              (∃ name, is_Some (file !! name) ∧ name ≤ unitName (now e)
                 ∧ ¬ (btoi name < firstID)) →
              match (if beginOk e then loadUnitFromDB purged.1 (now e)
                     else None) with
              | Some r => deserialize (initUnit zeroUnit (now e)) r
              | None => initUnit zeroUnit (now e)
              end = deserialize (initUnit zeroUnit (now e)) r).
    { intros r -> Hr Hname.
      assert (loadUnitFromDB purged.1 (now e) = Some r) as ->; [|done].
      apply loadUnitFromDB_Some. etrans; [exact (Hleft Hname)|].
      by apply loadUnitFromDB_Some. }
    assert (Hown : ∀ r, loadUnitFromDB file (now e) = Some r →
              ¬ (btoi (unitName (now e)) < firstID) →
              ∃ name, is_Some (file !! name) ∧ name ≤ unitName (now e)
                 ∧ ¬ (btoi name < firstID)).
    { intros r Hr Hkeep. exists (unitName (now e)).
      apply loadUnitFromDB_Some in Hr. split; [by eexists|]. split; [lia|done]. }
    assert (Hempty : (∀ name, is_Some (file !! name) →
                name ≤ unitName (now e) → btoi name < firstID) →
              match (if beginOk e then loadUnitFromDB purged.1 (now e)
                     else None) with
              | Some r => deserialize (initUnit zeroUnit (now e)) r
              | None => initUnit zeroUnit (now e)
              end = initUnit zeroUnit (now e)).
    { intros Hall. destruct (beginOk e); [|done].
      destruct (loadUnitFromDB purged.1 (now e)) as [r|] eqn:Hr; [|done].
      apply loadUnitFromDB_Some in Hr. pose proof (Hgone Hall) as Hn.
      unfold bucket in *. congruence. }
    eexists _, _. split; [reflexivity|]. cbn [limit db unit_ptr].
    split; [done|]. split; [done|]. split; [done|].
    split; [|split; [|split; [|split; [|split; [|split]]]]].
    + by destruct (if beginOk e then _ else _).
    + intros [Hb | Hnone]; [by rewrite Hb|]. destruct (beginOk e); [|done].
      destruct (loadUnitFromDB purged.1 (now e)) as [r|] eqn:Hr; [|done].
      exfalso. apply loadUnitFromDB_Some in Hr.
      pose proof (forEachBkt_subseteq firstID (bucketNames file) file 0)
        as Hsub.
      fold purged in Hsub.
      eapply lookup_weaken in Hr; [|exact Hsub].
      apply loadUnitFromDB_Some in Hr. congruence.
    + intros r Hb Hr Hkeep. apply (Hkept r); [done..|]. by apply (Hown r).
    + exact Hkept.
    + intros r Hb Hr Hlim Hnow Hl Hf. apply (Hkept r); [done..|].
      apply (Hown r); [done|].
      unfold btoi, unitName, itob, firstID.
      rewrite int_uint, (int_id (lim * 24)), !int_id by done. lia.
    + exact Hempty.
    + intros Hlim H0 Hnow Hl Hf Hnames. apply Hempty.
      intros name Hin Hle. specialize (Hnames name Hin).
      unfold btoi, firstID. unfold unitName, itob in Hle.
      rewrite uint_id in Hle by (revert Hnow H0; in_range).
      rewrite (int_id (lim * 24)), (int_id (now e - lim * 24 - 1)) by done.
      rewrite int_id; [lia|]. revert Hnames. in_range.
Qed.

(** A file with a record for hour 100, opened in hour 100: with a day of
    retention the live unit is rebuilt from the record; with a limit of
    -1 the bound is hour 123, the purge deletes the record and the live
    unit is the empty one. *)
Lemma X11_startup_instance :
  (∃ s, (createObject 1 (calm 100) {[ unitName 100 := Some bucketA ]}).1
        = Some s
        ∧ unit_ptr s
          = Some (deserialize (initUnit zeroUnit 100) bucketA))
  ∧ (∃ s, (createObject (-1) (calm 100) {[ unitName 100 := Some bucketA ]}).1
          = Some s
          ∧ unit_ptr s = Some (initUnit zeroUnit 100)).
Proof.
  assert (∀ name, is_Some (({[ unitName 100 := Some bucketA ]}
                             : gmap Z bucket) !! name) →
                  name = unitName 100) as Hone.
  { intros name [b Hb]. by apply lookup_singleton_Some in Hb as [<- _]. }
  split.
  - destruct (X11_startup_live_unit 1 (calm 100)
                {[ unitName 100 := Some bucketA ]})
      as [_ Hopen].
    destruct (Hopen eq_refl)
      as (s & u & Hs & _ & _ & Hu & _ & _ & _ & _ & Hkept & _).
    exists s. split; [exact Hs|]. rewrite Hu. f_equal.
    apply Hkept; [reflexivity|reflexivity|lia|simpl; in_range..].
  - destruct (X11_startup_live_unit (-1) (calm 100)
                {[ unitName 100 := Some bucketA ]})
      as [_ Hopen].
    destruct (Hopen eq_refl)
      as (s & u & Hs & _ & _ & Hu & _ & _ & _ & _ & _ & _ & Hgone).
    exists s. split; [exact Hs|]. rewrite Hu. f_equal.
    apply Hgone; [lia|simpl; lia|simpl; in_range..|].
    intros name Hin. rewrite (Hone name Hin), halfModulus_eq.
    vm_compute. split; [discriminate|reflexivity].
Defined.

(** ** Shutdown *)

Lemma Close_unfold e st u :
  unit_ptr (ctx st) = Some u →
  Close e st
  = Done {| ctx := {| limit := limit (ctx st);
                      db := match db (ctx st) with
                            | NilDB => NilDB
                            | OpenDB | ClosedDB => ClosedDB
                            end;
                      unit_ptr := None |};
            disk := match beginTxn (ctx st) true e (disk st) with
                    | None => disk st
                    | Some tx =>
                        if (flushUnitToDB e tx (id u) (encoded u)).2
                        then commit e (disk st)
                               (flushUnitToDB e tx (id u) (encoded u)).1
                        else disk st
                    end |}.
Proof.
  intros Hu. unfold Close. cbn [swapUnit]. rewrite Hu. cbn [deref].
  rewrite bind_Done, serialize_encoded, bind_Done.
  cbn [limit db unit_ptr].
  assert (beginTxn {| limit := limit (ctx st); db := db (ctx st);
                      unit_ptr := None |} true e (disk st)
          = beginTxn (ctx st) true e (disk st)) as -> by reflexivity.
  destruct (beginTxn (ctx st) true e (disk st)) as [tx|]; [|done].
  by destruct (flushUnitToDB e tx (id u) (encoded u)) as [tx1 []].
Qed.

(** X12: [Close] on an engine with a live unit returns, takes the live
    unit away and leaves the database closed (or absent, if it was).
    When the store accepts the flush the record of the unit can be loaded
    from the file afterwards, and in every case the records of the other
    hours are as before.  On the closed engine a query returns nil, the
    rotation loop ends, [Clear] does not reopen the database, and both a
    second [Close] and the ingest of any event that passes the opening
    test panic on the nil unit. *)
Theorem X12_close_and_after
    (ipString : list byte → string) (e : env) (st : state) (u : unit) :
  unit_ptr (ctx st) = Some u → isInt (id u) →
  ∃ st1,
    Close e st = Done st1
    ∧ unit_ptr (ctx st1) = None
    ∧ limit (ctx st1) = limit (ctx st)
    ∧ db (ctx st1) ≠ OpenDB
    ∧ (db (ctx st) = OpenDB → beginOk e = true → createOk e = true →
       encodeOk e = true → putOk e = true → commitOk e = true →
       loadUnitFromDB (disk st1) (id u) = Some (encoded u))
    ∧ (∀ i, isInt i → i ≠ id u →
            loadUnitFromDB (disk st1) i = loadUnitFromDB (disk st) i)
    ∧ (∀ fuel e' timeUnit, GetData fuel e' st1 timeUnit = Done None)
    ∧ (∀ e', periodicFlush e' st1 = Done None)
    ∧ (∀ e', db (ctx (Clear e' st1)) ≠ OpenDB)
    ∧ (∀ e', Close e' st1 = Panicked NilDereference)
    ∧ (∀ ev, ¬ screenedEntry ev →
             Update ipString (ctx st1) ev = Panicked NilDereference).
Proof.
  intros Hu Hid. eexists. split; [by apply Close_unfold|].
  cbn [ctx disk unit_ptr limit db].
  assert (Hdb : match db (ctx st) with
                | NilDB => NilDB
                | OpenDB | ClosedDB => ClosedDB
                end ≠ OpenDB) by (by destruct (db (ctx st))).
  split; [done|]. split; [done|]. split; [done|]. split; [|split].
  - intros Ho Hb Hc He Hp Hcm. unfold beginTxn. rewrite Ho, Hb.
    rewrite flushUnitToDB_ok by done. cbn [fst snd]. unfold commit.
    rewrite Hcm. unfold loadUnitFromDB. by rewrite lookup_insert_eq.
  - intros i Hi Hne.
    destruct (beginTxn (ctx st) true e (disk st)) as [tx|] eqn:Htx; [|done].
    apply beginTxn_Some in Htx as ->.
    destruct (flushUnitToDB e (disk st) (id u) (encoded u)).2 eqn:Hok; [|done].
    unfold commit. destruct (commitOk e); [|done].
    by apply flushUnitToDB_other.
  - repeat split.
    + intros fuel e' timeUnit. unfold GetData, beginTxn. cbn [ctx db].
      by destruct (db (ctx st)).
    + intros e'. unfold Clear, beginTxn. cbn [ctx db].
      by destruct (db (ctx st)).
    + intros ev Hev. rewrite Update_unfold.
      destruct (screened ev) eqn:Hs; [|done].
      by apply screened_spec in Hs.
Qed.

Lemma X12_close_and_after_instance :
  ∃ st1,
    Close (calm 100) {| ctx := busyCtx; disk := ∅ |} = Done st1
    ∧ loadUnitFromDB (disk st1) 100 = Some (encoded busyUnit)
    ∧ GetData 100 (calm 100) st1 Hours = Done None
    ∧ Close (calm 100) st1 = Panicked NilDereference.
Proof.
  assert (isInt (id busyUnit)) as Hid by (simpl; in_range).
  destruct (X12_close_and_after oneClient (calm 100)
              {| ctx := busyCtx; disk := ∅ |} busyUnit eq_refl Hid)
    as (st1 & Hclose & _ & _ & _ & Hload & _ & Hget & _ & _ & Hagain & _).
  exists st1. split; [exact Hclose|]. split; [by apply Hload|].
  split; [apply Hget|apply Hagain].
Defined.

(** ** The window by position *)

Lemma recordsFrom_lookup tx n : ∀ i k,
  isInt i → isInt (i + Z.of_nat n) → (k < n)%nat →
  recordsFrom tx i n !! k
  = Some (default emptyRecord (loadUnitFromDB tx (i + Z.of_nat k))).
Proof.
  induction n as [|n IH]; intros i k Hi Hend Hk; [lia|].
  destruct k as [|k]; simpl recordsFrom.
  - simpl. by rewrite Z.add_0_r.
  - simpl lookup. rewrite int_id by (revert Hi Hend; in_range).
    rewrite IH; [|revert Hi Hend; in_range| |lia].
    + do 3 f_equal. lia.
    + replace (i + 1 + Z.of_nat n) with (i + Z.of_nat (S n)) by lia. done.
Qed.

(** X13: while the live unit is the one of the current hour, the window
    a query works on has exactly [limit] records, oldest first: position
    [k] holds the stored record of hour [lastID - limit + 1 + k], or the
    all-zero record with [rLast] counters when the file has none for that
    hour, and the last position holds the record of the live unit. *)
Theorem X13_window_by_position
    (fuel : nat) (s : statsCtx) (u : unit) (lastID : Z) (tx : gmap Z bucket) :
  unit_ptr s = Some u → id u = lastID →
  isInt lastID → isInt (lastID - limit s + 1) → 1 ≤ limit s →
  limit s < halfModulus → limit s - 1 ≤ Z.of_nat fuel →
  ∃ units,
    windowUnits fuel s lastID tx = Done units
    ∧ Z.of_nat (length units) = limit s
    ∧ (∀ k, 0 ≤ k < limit s - 1 →
         units !! Z.to_nat k
         = Some (default emptyRecord
                   (loadUnitFromDB tx (lastID - limit s + 1 + k))))
    ∧ units !! Z.to_nat (limit s - 1) = Some (encoded u).
Proof.
  intros Hu Hid Hl Hf Hlim Hmax Hfuel.
  assert (isInt (limit s)) as Hli by (revert Hlim Hmax; in_range).
  destruct (windowUnits_live s u lastID tx fuel Hu Hl Hli Hfuel Hlim Hid)
    as [Hwin Hlen].
  eexists. split; [exact Hwin|]. split; [exact Hlen|].
  rewrite (int_id (lastID - limit s + 1)) by done. split.
  - intros k Hk. rewrite lookup_app_l by (rewrite length_recordsFrom; lia).
    rewrite recordsFrom_lookup; [|done| |lia].
    + by rewrite Z2Nat.id by lia.
    + rewrite Z2Nat.id by lia.
      replace (lastID - limit s + 1 + (limit s - 1)) with lastID by lia. done.
  - rewrite lookup_app_r by (rewrite length_recordsFrom; lia).
    rewrite length_recordsFrom, Nat.sub_diag. done.
Qed.

Lemma X13_window_instance :
  ∃ units,
    windowUnits 100 (ctx twoBuckets) 100 (disk twoBuckets) = Done units
    ∧ length units = 24%nat
    ∧ units !! 21%nat = Some bucketA
    ∧ units !! 20%nat = Some emptyRecord.
Proof.
  destruct (X13_window_by_position 100 (ctx twoBuckets)
              (initUnit zeroUnit 100) 100 (disk twoBuckets))
    as (units & Hwin & Hlen & Hpos & _).
  - reflexivity.
  - reflexivity.
  - in_range.
  - simpl. in_range.
  - simpl. lia.
  - simpl. rewrite halfModulus_eq. lia.
  - simpl. lia.
  - exists units. split; [exact Hwin|]. split; [simpl in Hlen; lia|].
    split.
    + exact (Hpos 21 ltac:(simpl; lia)).
    + exact (Hpos 20 ltac:(simpl; lia)).
Defined.

(** ** What a query returns *)

Ltac run_inv H c x :=
  destruct c as [x| | |] eqn:?; [rewrite bind_Done in H|discriminate H..].

(** The steps behind a returned result. *)
Lemma GetData_inv fuel e st timeUnit d :
  GetData fuel e st timeUnit = Done (Some d) →
  let firstID := int (now e - limit (ctx st) + 1) in
  ∃ units sum timeN,
    db (ctx st) = OpenDB
    ∧ windowUnits fuel (ctx st) (now e) (disk st) = Done units
    ∧ Z.of_nat (length units) = limit (ctx st)
    ∧ counters timeUnit getTotal units firstID = Done (dns_queries d)
    ∧ counters timeUnit (λ u, index (NResult u) RFiltered) units firstID
      = Done (blocked_filtering d)
    ∧ counters timeUnit (λ u, index (NResult u) RSafeBrowsing) units firstID
      = Done (replaced_safebrowsing d)
    ∧ counters timeUnit (λ u, index (NResult u) RParental) units firstID
      = Done (replaced_parental d)
    ∧ topCounters Domains units maxDomains = Done (top_queried_domains d)
    ∧ topCounters BlockedDomains units maxDomains = Done (top_blocked_domains d)
    ∧ topCounters Clients units maxClients = Done (top_clients d)
    ∧ totalCounters units
        {| NTotal := 0; NResult := make rLast; Domains := [];
           BlockedDomains := []; Clients := []; TimeAvg := 0 |} 0
      = Done (sum, timeN)
    ∧ num_dns_queries d = NTotal sum
    ∧ index (NResult sum) RFiltered = Done (num_blocked_filtering d)
    ∧ index (NResult sum) RSafeBrowsing = Done (num_replaced_safebrowsing d)
    ∧ index (NResult sum) RSafeSearch = Done (num_replaced_safesearch d)
    ∧ index (NResult sum) RParental = Done (num_replaced_parental d)
    ∧ uint timeN ≠ 0
    ∧ avg_processing_time d = seconds (TimeAvg sum `div` uint timeN)
    ∧ time_units d = match timeUnit with Hours => "hours" | Days => "days" end.
Proof.
  intros H firstID. unfold GetData in H.
  destruct (beginTxn (ctx st) false e (disk st)) as [tx|] eqn:Htx;
    [|discriminate H].
  assert (db (ctx st) = OpenDB) as Hdb.
  { unfold beginTxn in Htx. by destruct (db (ctx st)). }
  apply beginTxn_Some in Htx as ->. fold firstID in H.
  run_inv H (windowUnits fuel (ctx st) (now e) (disk st)) units.
  destruct (Z.eqb_spec (Z.of_nat (length units)) (limit (ctx st)))
    as [Hlen|_]; [|discriminate H]. cbn [negb] in H.
  run_inv H (counters timeUnit getTotal units firstID) a1.
  run_inv H (counters timeUnit (λ u, index (NResult u) RFiltered) units firstID) a2.
  run_inv H (counters timeUnit (λ u, index (NResult u) RSafeBrowsing) units firstID) a3.
  run_inv H (counters timeUnit (λ u, index (NResult u) RParental) units firstID) a4.
  run_inv H (topCounters Domains units maxDomains) t1.
  run_inv H (topCounters BlockedDomains units maxDomains) t2.
  run_inv H (topCounters Clients units maxClients) t3.
  run_inv H (totalCounters units
        {| NTotal := 0; NResult := make rLast; Domains := [];
           BlockedDomains := []; Clients := []; TimeAvg := 0 |} 0) p.
  destruct p as [sum timeN]. cbv beta iota in H.
  run_inv H (index (NResult sum) RFiltered) n1.
  run_inv H (index (NResult sum) RSafeBrowsing) n2.
  run_inv H (index (NResult sum) RSafeSearch) n3.
  run_inv H (index (NResult sum) RParental) n4.
  unfold udiv in H. destruct (Z.eqb_spec (uint timeN) 0) as [|Hne];
    [discriminate H|].
  rewrite bind_Done in H. injection H as <-.
  exists units, sum, timeN. cbn. by repeat split.
Qed.

Lemma perHour_inv get units : ∀ a l,
  perHour get units a = Done l →
  ∃ vs, l = a ++ vs ∧ Forall2 (λ u v, get u = Done v) units vs.
Proof.
  induction units as [|u units IH]; intros a l H; simpl in H.
  - injection H as <-. exists []. by rewrite app_nil_r.
  - destruct (get u) as [v| | |] eqn:Hv; try discriminate H.
    rewrite bind_Done in H. apply IH in H as (vs & -> & Hvs).
    exists (v :: vs). rewrite <- app_assoc. split; [done|]. by constructor.
Qed.

Lemma Forall2_get_fmap (get : unitDB → run Z) f units vs :
  (∀ u v, get u = Done v → v = f u) →
  Forall2 (λ u v, get u = Done v) units vs → vs = f <$> units.
Proof.
  intros Hf Hall. induction Hall as [|u v units vs Huv _ IH]; [done|].
  simpl. by rewrite (Hf _ _ Huv), IH.
Qed.

Lemma index_Done {A} (l : list A) k x (dflt : A) :
  index l k = Done x → x = default dflt (l !! Z.to_nat k).
Proof.
  unfold index. destruct (k <? 0); [done|].
  destruct (l !! Z.to_nat k); [|done]. by intros [= ->].
Qed.

Lemma sumList_fmap f units : sumList (f <$> units) = sumBy f units.
Proof.
  unfold sumList, sumBy. induction units as [|u units IH]; [done|].
  cbn [fmap list_fmap foldr]. f_equal. exact IH.
Qed.

Lemma totalCounters_NTotal units : ∀ sum timeN sum' timeN',
  totalCounters units sum timeN = Done (sum', timeN') →
  isUint (NTotal sum) →
  NTotal sum' = uint (NTotal sum + sumBy NTotal units).
Proof.
  induction units as [|u units IH]; intros sum timeN sum' timeN' H Hu.
  - simpl in H. injection H as <- <-. unfold sumBy. simpl.
    by rewrite Z.add_0_r, uint_id.
  - cbn [totalCounters] in H.
    run_inv H (addResult (NResult sum) (NResult u) RFiltered) r1.
    run_inv H (addResult r1 (NResult u) RSafeBrowsing) r2.
    run_inv H (addResult r2 (NResult u) RSafeSearch) r3.
    run_inv H (addResult r3 (NResult u) RParental) r4.
    apply IH in H; [|apply uint_isUint]. cbn [NTotal] in H.
    rewrite H, uint_add_l. unfold sumBy. simpl. f_equal. lia.
Qed.

(** X14: a result returned for the granularity "by hour" has four series
    with one point per record of the window, [limit] points each, oldest
    hour first: the totals of the records, and their counters for the
    classifications filtered, safe-browsing and parental.  The grand
    total [num_dns_queries] is the sum of the points of [dns_queries] (as
    a [uint] sum), and the unit is reported as "hours". *)
Theorem X14_hourly_series_follow_window
    (fuel : nat) (e : env) (st : state) (d : statsData) :
  GetData fuel e st Hours = Done (Some d) →
  ∃ units,
    windowUnits fuel (ctx st) (now e) (disk st) = Done units
    ∧ Z.of_nat (length units) = limit (ctx st)
    ∧ dns_queries d = NTotal <$> units
    ∧ blocked_filtering d
      = (λ u, default 0 (NResult u !! Z.to_nat RFiltered)) <$> units
    ∧ replaced_safebrowsing d
      = (λ u, default 0 (NResult u !! Z.to_nat RSafeBrowsing)) <$> units
    ∧ replaced_parental d
      = (λ u, default 0 (NResult u !! Z.to_nat RParental)) <$> units
    ∧ num_dns_queries d = uint (sumList (dns_queries d))
    ∧ time_units d = "hours".
Proof.
  intros H. apply GetData_inv in H
    as (units & sum & timeN & _ & Hwin & Hlen & H1 & H2 & H3 & H4 & _ & _ & _
        & Htot & Hnum & _ & _ & _ & _ & _ & _ & Htu).
  exists units. split; [done|]. split; [done|].
  cbn [counters] in H1, H2, H3, H4.
  apply perHour_inv in H1 as (v1 & -> & F1).
  apply perHour_inv in H2 as (v2 & -> & F2).
  apply perHour_inv in H3 as (v3 & -> & F3).
  apply perHour_inv in H4 as (v4 & -> & F4).
  cbn [app].
  apply (Forall2_get_fmap _ NTotal) in F1; [|by intros ?? [= ->]].
  apply (Forall2_get_fmap _ (λ u, default 0 (NResult u !! Z.to_nat RFiltered)))
    in F2; [|intros ??; apply index_Done].
  apply (Forall2_get_fmap _ (λ u, default 0 (NResult u !! Z.to_nat RSafeBrowsing)))
    in F3; [|intros ??; apply index_Done].
  apply (Forall2_get_fmap _ (λ u, default 0 (NResult u !! Z.to_nat RParental)))
    in F4; [|intros ??; apply index_Done].
  subst v1 v2 v3 v4. repeat split; try done.
  rewrite Hnum, sumList_fmap.
  rewrite (totalCounters_NTotal _ _ _ _ _ Htot) by (cbn; in_range).
  by rewrite Z.add_0_l.
Qed.

Lemma X14_hourly_series_instance :
  ∃ d,
    GetData 100 (calm 100) twoBuckets Hours = Done (Some d)
    ∧ length (dns_queries d) = 24%nat
    ∧ num_dns_queries d = 14.
Proof.
  assert (∃ d, GetData 100 (calm 100) twoBuckets Hours = Done (Some d))
    as [d Hd] by (eexists; vm_compute; reflexivity).
  destruct (X14_hourly_series_follow_window 100 (calm 100) twoBuckets d Hd)
    as (units & Hwin & Hlen & Hq & _ & _ & _ & Hnum & _).
  exists d. split; [exact Hd|]. split.
  - rewrite Hq, length_fmap. simpl in Hlen. lia.
  - rewrite Hnum, Hq.
    assert (windowUnits 100 (ctx twoBuckets) (now (calm 100)) (disk twoBuckets)
            = Done (recordsFrom (disk twoBuckets) 77 23
                      ++ [encoded (initUnit zeroUnit 100)])) as Hc
      by (vm_compute; reflexivity).
    rewrite Hc in Hwin. injection Hwin as <-. vm_compute. reflexivity.
Defined.

Lemma topCounters_isTopList get units l :
  topCounters get units 100 = Done l → isTopList l.
Proof.
  rewrite topCounters_eq by lia. intros [= <-].
  eexists. split; [reflexivity|].
  split; [rewrite length_take; lia|].
  split; [apply take_sortedPairs_sorted|apply Name_take_NoDup].
Qed.

(** X15: in every result a query returns, each of the three top lists
    is made of single-name maps, has at most 100 of them, is in
    descending order of count and names nothing twice. *)
Theorem X15_top_lists_bounded_sorted
    (fuel : nat) (e : env) (st : state) (timeUnit : TimeUnit) (d : statsData) :
  GetData fuel e st timeUnit = Done (Some d) →
  isTopList (top_queried_domains d)
  ∧ isTopList (top_blocked_domains d)
  ∧ isTopList (top_clients d).
Proof.
  intros H. apply GetData_inv in H
    as (units & sum & timeN & _ & _ & _ & _ & _ & _ & _ & T1 & T2 & T3 & _).
  repeat split; by eapply topCounters_isTopList.
Qed.

Lemma X15_top_lists_instance :
  ∃ d,
    GetData 100 (calm 100) twoBuckets Days = Done (Some d)
    ∧ isTopList (top_queried_domains d)
    ∧ isTopList (top_clients d).
Proof.
  assert (∃ d, GetData 100 (calm 100) twoBuckets Days = Done (Some d))
    as [d Hd] by (eexists; vm_compute; reflexivity).
  destruct (X15_top_lists_bounded_sorted 100 (calm 100) twoBuckets Days d Hd)
    as (Hq & _ & Hc).
  exists d. split; [exact Hd|]. split; [exact Hq|exact Hc].
Defined.

(** ** Retention set through the control layer *)

Lemma checkStatsInterval_spec i :
  checkStatsInterval i = true ↔ i = 1 ∨ i = 7 ∨ i = 30 ∨ i = 90.
Proof.
  unfold checkStatsInterval. rewrite !orb_true_iff, !Z.eqb_eq. tauto.
Qed.

(** X16: an interval the control layer accepts is 1, 7, 30 or 90 days
    (never 0).  [Configurate] with such an interval sets the retention to
    24 times as many hours and leaves the database handle and the live
    unit alone, and the window of the next query (the live unit being the
    one of the current hour) is loaded in full: it has exactly that many
    records. *)
Theorem X16_accepted_interval_sets_window
    (i : Z) (s : statsCtx) (u : unit) (lastID : Z) (tx : gmap Z bucket)
    (fuel : nat) :
  checkStatsInterval i = true →
  unit_ptr s = Some u → id u = lastID → isInt lastID →
  24 * i - 1 ≤ Z.of_nat fuel →
  (i = 1 ∨ i = 7 ∨ i = 30 ∨ i = 90)
  ∧ Configurate s i = {| limit := 24 * i; db := db s; unit_ptr := unit_ptr s |}
  ∧ ∃ units,
      windowUnits fuel (Configurate s i) lastID tx = Done units
      ∧ Z.of_nat (length units) = 24 * i.
Proof.
  intros Hi Hu Hid Hl Hfuel. apply checkStatsInterval_spec in Hi.
  assert (Configurate s i
          = {| limit := 24 * i; db := db s; unit_ptr := unit_ptr s |}) as Hcfg.
  { unfold Configurate. destruct (Z.ltb_spec i 0); [lia|].
    rewrite int_id by (revert Hi; in_range). f_equal. lia. }
  split; [done|]. split; [done|]. rewrite Hcfg.
  destruct (windowUnits_live
              {| limit := 24 * i; db := db s; unit_ptr := unit_ptr s |}
              u lastID tx fuel) as [Hwin Hlen]; try done.
  - cbn. revert Hi. in_range.
  - cbn. lia.
  - eexists. split; [exact Hwin|exact Hlen].
Qed.

Lemma X16_accepted_interval_instance :
  ∃ units,
    windowUnits 200 (Configurate (freshCtx 24 100) 7) 100 ∅ = Done units
    ∧ Z.of_nat (length units) = 168.
Proof.
  assert (isInt 100) as H100 by in_range.
  destruct (X16_accepted_interval_sets_window 7 (freshCtx 24 100)
              (initUnit zeroUnit 100) 100 ∅ 200 eq_refl eq_refl eq_refl H100)
    as (_ & _ & units & Hwin & Hlen).
  - simpl. lia.
  - exists units. split; [exact Hwin|exact Hlen].
Defined.

(** ** The series by day, in general *)

(** ** The series by day, point by point *)

Lemma rem24_next x : Z.rem x 24 = 0 → Z.rem (x + 24) 24 = 0.
Proof.
  intros H. apply Z.rem_divide in H as [c Hc]; [|lia].
  apply Z.rem_divide; [lia|]. exists (c + 1). lia.
Qed.

(** The day loop up to the first day boundary of the window, at
    position [k]: the running sum of the hours up to and including that
    one becomes a point, and the loop goes on from zero. *)
Lemma perDay_first units : ∀ id' sum a (k : nat),
  isInt id' → isInt (id' + Z.of_nat (length units)) →
  (k < length units)%nat →
  Z.rem (id' + Z.of_nat k) 24 = 0 →
  (∀ j, 0 ≤ j < Z.of_nat k → Z.rem (id' + j) 24 ≠ 0) →
  perDay getTotal units id' sum a
  = perDay getTotal (drop (S k) units) (id' + Z.of_nat k + 1) 0
      (a ++ [uint (sum + sumBy NTotal (take (S k) units))]).
Proof.
  induction units as [|u units IH]; intros id' sum a k Hid Hend Hk Hrem Hno.
  - simpl in Hk. lia.
  - cbn [length] in Hk, Hend. cbn [perDay].
    change (getTotal u) with (Done (NTotal u)). rewrite bind_Done. cbv zeta.
    assert (int (id' + 1) = id' + 1) as ->
      by (apply int_id; revert Hid Hend; in_range).
    destruct k as [|k].
    + rewrite Z.add_0_r in Hrem. rewrite Hrem. cbn [Z.eqb drop take].
      unfold sumBy. cbn [foldr]. by rewrite Z.add_0_r, Z.add_0_r.
    + destruct (Z.eqb_spec (Z.rem id' 24) 0) as [H0|_].
      { exfalso. apply (Hno 0); [lia|]. by rewrite Z.add_0_r. }
      rewrite (IH _ _ _ k).
      * cbn [drop take]. unfold sumBy. cbn [foldr].
        fold (sumBy NTotal (take (S k) units)).
        rewrite uint_add_l, Z.add_assoc.
        by replace (id' + 1 + Z.of_nat k + 1)
          with (id' + Z.of_nat (S k) + 1) by lia.
      * revert Hid Hend. in_range.
      * replace (id' + 1 + Z.of_nat (length units))
          with (id' + Z.of_nat (S (length units))) by lia. done.
      * lia.
      * by replace (id' + 1 + Z.of_nat k) with (id' + Z.of_nat (S k)) by lia.
      * intros j Hj. replace (id' + 1 + j) with (id' + (j + 1)) by lia.
        apply Hno. lia.
Qed.

(** The points of the day loop on a window whose first day boundary is at
    position [k]: point [j] is there when position [k + 24 * j] is in the
    window, and holds the sum over the hours that end at that position
    and begin after position [k + 24 * (j - 1)], or with the window. *)
Lemma perDay_points n : ∀ units id' sum a (k : nat),
  (length units ≤ n)%nat →
  isInt id' → isInt (id' + Z.of_nat (length units)) →
  (k < 24)%nat → Z.rem (id' + Z.of_nat k) 24 = 0 →
  ∃ pts,
    perDay getTotal units id' sum a = Done (a ++ pts)
    ∧ ∀ j, pts !! j
        = if decide (k + 24 * j < length units)%nat
          then Some (uint (match j with O => sum | S _ => 0 end
                           + sumBy NTotal (drop (k + 24 * j + 1 - 24)
                                            (take (k + 24 * j + 1) units))))
          else None.
Proof.
  induction n as [|n IH]; intros units id' sum a k Hn Hid Hend Hk Hrem;
    (destruct (decide (k < length units)%nat) as [Hin|Hout]; [|
      exists []; rewrite app_nil_r; split;
      [ apply perDay_no_boundary; [done..|];
        intros j Hj; apply (rem24_unique _ _ (Z.of_nat k)); [done|lia..]
      | intros j; rewrite decide_False by lia; done ]]).
  - lia.
  - rewrite (perDay_first units id' sum a k); [|done..|].
    2:{ intros j Hj. apply (rem24_unique _ _ (Z.of_nat k)); [done|lia..]. }
    destruct (IH (drop (S k) units) (id' + Z.of_nat k + 1) 0
                 (a ++ [uint (sum + sumBy NTotal (take (S k) units))]) 23%nat)
      as (pts & Hrun & Hpts).
    + rewrite length_drop. lia.
    + revert Hid Hend. assert (Z.of_nat k < Z.of_nat (length units)) by lia.
      in_range.
    + rewrite length_drop.
      replace (id' + Z.of_nat k + 1 + Z.of_nat (length units - S k))
        with (id' + Z.of_nat (length units)) by lia. done.
    + lia.
    + replace (id' + Z.of_nat k + 1 + Z.of_nat 23)
        with (id' + Z.of_nat k + 24) by lia. by apply rem24_next.
    + exists (uint (sum + sumBy NTotal (take (S k) units)) :: pts).
      split; [by rewrite Hrun, <- app_assoc|].
      intros [|j].
      * rewrite decide_True by lia.
        replace (k + 24 * 0 + 1 - 24)%nat with 0%nat by lia.
        replace (k + 24 * 0 + 1)%nat with (S k) by lia. done.
      * cbn [lookup list_lookup]. rewrite Hpts, length_drop.
        destruct (decide (23 + 24 * j < length units - S k)%nat),
                 (decide (k + 24 * S j < length units)%nat);
          [|exfalso; lia..|done].
        rewrite take_drop_commute, drop_drop.
        replace (match j with O => 0 | S _ => 0 end) with 0 by (by destruct j).
        replace (S k + (23 + 24 * j + 1 - 24))%nat
          with (k + 24 * S j + 1 - 24)%nat by lia.
        by replace (S k + (23 + 24 * j + 1))%nat
          with (k + 24 * S j + 1)%nat by lia.
Qed.

(** C8 (as amended): under daily granularity a day boundary occurs at
    every hourly bucket whose identifier is a multiple of 24, and the
    query emits one point per boundary bucket of the window.  With the
    first boundary bucket at position [k] of the window (0-based), point
    [j] is there exactly when position [k + 24 * j] is in the window, and
    it is the ([uint]) sum of the totals of the consecutive buckets that
    end with that position and begin after the boundary bucket before it
    or, for the first point, with the window: 24 buckets for every point
    but the first, [k + 1] buckets for the first, and the buckets after
    the last boundary bucket in no point.  In particular a window of 24
    hourly buckets with total 1 each yields the single point [k + 1],
    which is 24 exactly when the last identifier of the window is the
    multiple of 24.  The points are the ["dns_queries"] series of the
    result when the list is the window of a query by day. *)
Theorem C8_daily_points_end_at_day_boundaries
    (units : list unitDB) (firstID : Z) (k : nat) :
  isInt firstID → isInt (firstID + Z.of_nat (length units)) →
  (k < 24)%nat → Z.rem (firstID + Z.of_nat k) 24 = 0 →
  ∃ pts,
    counters Days getTotal units firstID = Done pts
    ∧ (∀ j, pts !! j
         = if decide (k + 24 * j < length units)%nat
           then Some (uint (sumBy NTotal (drop (k + 24 * j + 1 - 24)
                                            (take (k + 24 * j + 1) units))))
           else None)
    ∧ (length units = 24%nat → Forall (λ u, NTotal u = 1) units →
       pts = [Z.of_nat k + 1] ∧ (pts = [24] ↔ k = 23%nat))
    ∧ (∀ fuel e st d,
         windowUnits fuel (ctx st) (now e) (disk st) = Done units →
         int (now e - limit (ctx st) + 1) = firstID →
         GetData fuel e st Days = Done (Some d) →
         dns_queries d = pts).
Proof.
  intros Hid Hend Hk Hrem.
  destruct (perDay_points (length units) units firstID 0 [] k)
    as (pts & Hrun & Hpts); [done..|].
  change (counters Days getTotal units firstID = Done pts) in Hrun.
  exists pts. split; [exact Hrun|]. split; [|split].
  - intros j. rewrite Hpts. destruct (decide _); [|done].
    by destruct j.
  - intros Hlen Hone.
    assert (pts = [Z.of_nat k + 1]) as ->.
    { assert (perDay getTotal units firstID 0 [] = Done [Z.of_nat k + 1])
        as Hones.
      { apply (perDay_ones units firstID 0 [] (Z.of_nat k));
          [done|done|done|lia|rewrite Hlen, modulus_eq; lia|lia|done|].
        intros j Hj Hjk. apply (rem24_unique _ _ (Z.of_nat k)); [done|lia..]. }
      unfold counters in Hrun. rewrite Hones in Hrun. by injection Hrun. }
    split; [done|]. split.
    + intros Heq. injection Heq as Heq. lia.
    + intros ->. done.
  - intros fuel e st d Hwin Hfirst Hget.
    apply GetData_inv in Hget
      as (units' & sum & timeN & _ & Hwin' & _ & Hser & _).
    cbv zeta in Hser. rewrite Hwin in Hwin'. injection Hwin' as <-.
    rewrite Hfirst, Hrun in Hser. by injection Hser as <-.
Qed.

(** A window whose last identifier is the multiple of 24, and the window
    of 48 hours of one query each that begins in hour 20: the points are
    the 5 hours up to hour 24 and the 24 hours up to hour 48. *)
Lemma C8_daily_point_instance :
  counters Days getTotal (replicate 24 hourOne) 1 = Done [24]
  ∧ counters Days getTotal (replicate 48 hourOne) 20 = Done [5; 24].
Proof.
  split.
  - destruct (C8_daily_points_end_at_day_boundaries
                (replicate 24 hourOne) 1 23) as (pts & Hrun & _ & Hone & _).
    + in_range.
    + simpl. in_range.
    + lia.
    + reflexivity.
    + rewrite Hrun. f_equal. apply Hone; [reflexivity| |reflexivity].
      by apply Forall_replicate.
  - destruct (C8_daily_points_end_at_day_boundaries
                (replicate 48 hourOne) 20 4) as (pts & Hrun & Hpts & _).
    + in_range.
    + simpl. in_range.
    + lia.
    + reflexivity.
    + rewrite Hrun. f_equal.
      pose proof (Hpts 0%nat) as H0. pose proof (Hpts 1%nat) as H1.
      pose proof (Hpts 2%nat) as H2.
      destruct pts as [|p0 [|p1 [|p2 pts]]]; try discriminate.
      vm_compute in H0, H1. by injection H0 as <-; injection H1 as <-.
Defined.

Lemma dayPoints_app a : ∀ id' b,
  dayPoints id' (a + b) = (dayPoints id' a + dayPoints (id' + Z.of_nat a) b)%nat.
Proof.
  induction a as [|a IH]; intros id' b.
  - simpl. by rewrite Z.add_0_r.
  - cbn [dayPoints Nat.add]. rewrite IH.
    replace (id' + 1 + Z.of_nat a) with (id' + Z.of_nat (S a)) by lia.
    by destruct (Z.rem id' 24 =? 0).
Qed.

Lemma dayPoints_none n : ∀ id',
  (∀ j, 0 ≤ j < Z.of_nat n → Z.rem (id' + j) 24 ≠ 0) → dayPoints id' n = 0%nat.
Proof.
  induction n as [|n IH]; intros id' Hno; [done|]. cbn [dayPoints].
  destruct (Z.eqb_spec (Z.rem id' 24) 0) as [H0|_].
  { exfalso. apply (Hno 0); [lia|]. by rewrite Z.add_0_r. }
  apply IH. intros j Hj. replace (id' + 1 + j) with (id' + (j + 1)) by lia.
  apply Hno. lia.
Qed.

(** Any 24 consecutive identifiers hold exactly one multiple of 24. *)
Lemma dayPoints_24 id' : dayPoints id' 24 = 1%nat.
Proof.
  set (k := (- id') `mod` 24).
  assert (0 ≤ k < 24) as Hk by (apply Z.mod_pos_bound; lia).
  assert (Z.rem (id' + k) 24 = 0) as Hrem.
  { apply Z.rem_divide; [lia|]. exists (- ((- id') `div` 24)).
    pose proof (Z.div_mod (- id') 24 ltac:(lia)). fold k in H. lia. }
  replace 24%nat with (Z.to_nat k + S (Z.to_nat (23 - k)))%nat by lia.
  rewrite dayPoints_app, Z2Nat.id by lia.
  rewrite dayPoints_none.
  2:{ intros j Hj. apply (rem24_unique _ _ k); try done; lia. }
  cbn [dayPoints Nat.add]. rewrite Hrem. cbn.
  rewrite dayPoints_none; [done|].
  intros j Hj. replace (id' + k + 1 + j) with (id' + (k + 1 + j)) by lia.
  apply (rem24_unique _ _ k); try done; lia.
Qed.

Lemma dayPoints_days n : ∀ id', dayPoints id' (24 * n) = n.
Proof.
  induction n as [|n IH]; intros id'; [done|].
  replace (24 * S n)%nat with (24 + 24 * n)%nat by lia.
  by rewrite dayPoints_app, dayPoints_24, IH.
Qed.

Lemma perDay_length get units : ∀ id' sum a l,
  perDay get units id' sum a = Done l →
  isInt id' → isInt (id' + Z.of_nat (length units)) →
  length l = (length a + dayPoints id' (length units))%nat.
Proof.
  induction units as [|u units IH]; intros id' sum a l H Hid Hend.
  - simpl in H. injection H as <-. simpl. lia.
  - cbn [perDay] in H. simpl length in Hend.
    destruct (get u) as [v| | |]; try discriminate H.
    rewrite bind_Done in H.
    rewrite int_id in H by (revert Hid Hend; in_range).
    cbn [length dayPoints].
    destruct (Z.rem id' 24 =? 0); apply IH in H;
      rewrite ?length_app in H; simpl in H; try lia;
      revert Hid Hend; in_range.
Qed.

(** X17: a result returned for the granularity "by day", with a
    retention of [n] days, has [n] points in each of its four series, and
    the unit is reported as "days". *)
Theorem X17_daily_series_length
    (fuel : nat) (e : env) (st : state) (d : statsData) (n : nat) :
  GetData fuel e st Days = Done (Some d) →
  limit (ctx st) = 24 * Z.of_nat n →
  isInt (now e - limit (ctx st) + 1) → isInt (now e + 1) →
  length (dns_queries d) = n
  ∧ length (blocked_filtering d) = n
  ∧ length (replaced_safebrowsing d) = n
  ∧ length (replaced_parental d) = n
  ∧ time_units d = "days".
Proof.
  intros H Hlim Hfirst Hlast. apply GetData_inv in H
    as (units & sum & timeN & _ & _ & Hlen & H1 & H2 & H3 & H4 & _ & _ & _
        & _ & _ & _ & _ & _ & _ & _ & _ & Htu).
  cbv zeta in H1, H2, H3, H4. rewrite int_id in H1, H2, H3, H4 by done.
  assert (length units = (24 * n)%nat) as Hn by lia.
  assert (isInt (now e - limit (ctx st) + 1 + Z.of_nat (length units))) as He.
  { replace (now e - limit (ctx st) + 1 + Z.of_nat (length units))
      with (now e + 1) by lia. done. }
  cbn [counters] in H1, H2, H3, H4.
  apply perDay_length in H1, H2, H3, H4; try done.
  rewrite Hn, dayPoints_days in H1, H2, H3, H4. simpl in H1, H2, H3, H4.
  by repeat split.
Qed.

Lemma X17_daily_series_instance :
  ∃ d,
    GetData 100 (calm 47) dayOfOnes Days = Done (Some d)
    ∧ length (dns_queries d) = 1%nat
    ∧ time_units d = "days".
Proof.
  assert (∃ d, GetData 100 (calm 47) dayOfOnes Days = Done (Some d))
    as [d Hd] by (eexists; vm_compute; reflexivity).
  destruct (X17_daily_series_length 100 (calm 47) dayOfOnes d 1 Hd)
    as (Hq & _ & _ & _ & Htu).
  - reflexivity.
  - simpl. in_range.
  - simpl. in_range.
  - exists d. split; [exact Hd|]. split; [exact Hq|exact Htu].
Defined.

(** ** Rotation, then a query *)

Lemma periodicFlush_calm st u t :
  unit_ptr (ctx st) = Some u → db (ctx st) = OpenDB → id u ≠ t →
  periodicFlush (calm t) st
  = Done (Some
      {| ctx := {| limit := limit (ctx st); db := OpenDB;
                   unit_ptr := Some (initUnit zeroUnit t) |};
         disk := delete (unitName (int (t - limit (ctx st))))
                   (<[unitName (id u) := Some (encoded u)]> (disk st)) |}).
Proof.
  intros Hu Hdb Hid. unfold periodicFlush. rewrite Hu. cbn [now calm].
  destruct (Z.eqb_spec (id u) t) as [|_]; [done|].
  cbn [swapUnit]. rewrite Hu. cbn [deref].
  rewrite bind_Done, serialize_encoded, bind_Done.
  assert (beginTxn {| limit := limit (ctx st); db := db (ctx st);
                      unit_ptr := Some (initUnit zeroUnit t) |}
                   true (calm t) (disk st) = Some (disk st)) as ->
    by (unfold beginTxn; cbn; by rewrite Hdb).
  rewrite flushUnitToDB_ok by done. cbn [limit].
  pose proof (deleteUnit_fst (<[unitName (id u) := Some (encoded u)]> (disk st))
                (int (t - limit (ctx st)))) as Hd.
  destruct (deleteUnit _ _) as [tx2 ok2]. simpl in Hd. subst tx2.
  cbn. by rewrite Hdb.
Qed.

Lemma loadUnitFromDB_rotated tx c o r i :
  isInt c → isInt o → isInt i → i ≠ o →
  loadUnitFromDB (delete (unitName o) (<[unitName c := Some r]> tx)) i
  = if decide (i = c) then Some r else loadUnitFromDB tx i.
Proof.
  intros Hc Ho Hi Hne. unfold loadUnitFromDB.
  rewrite lookup_delete_ne
    by (intros Heq; apply unitName_inj in Heq; done).
  destruct (decide (i = c)) as [->|Hic].
  - by rewrite lookup_insert_eq.
  - rewrite lookup_insert_ne; [done|].
    intros Heq; apply unitName_inj in Heq; done.
Qed.

(** X18: rotation and query fit together.  When the hour changes from
    [t - 1] to [t] and the store accepts the rotation, a query in hour
    [t] works on a full window of [limit] records whose last record is
    that of the fresh unit, whose last but one is the record of the unit
    just retired, read back from the file, and whose earlier positions
    hold what the file held for their hours before the rotation. *)
Theorem X18_rotation_then_window
    (fuel : nat) (st : state) (u : unit) (t : Z) :
  unit_ptr (ctx st) = Some u → db (ctx st) = OpenDB → id u = t - 1 →
  isInt t → isInt (t - limit (ctx st)) →
  2 ≤ limit (ctx st) → limit (ctx st) < halfModulus →
  limit (ctx st) - 1 ≤ Z.of_nat fuel →
  ∃ st' units,
    periodicFlush (calm t) st = Done (Some st')
    ∧ windowUnits fuel (ctx st') t (disk st') = Done units
    ∧ Z.of_nat (length units) = limit (ctx st)
    ∧ units !! Z.to_nat (limit (ctx st) - 1)
      = Some (encoded (initUnit zeroUnit t))
    ∧ units !! Z.to_nat (limit (ctx st) - 2) = Some (encoded u)
    ∧ (∀ k, 0 ≤ k < limit (ctx st) - 2 →
         units !! Z.to_nat k
         = Some (default emptyRecord
                   (loadUnitFromDB (disk st) (t - limit (ctx st) + 1 + k)))).
Proof.
  intros Hu Hdb Hid Ht Hold H2 Hmax Hfuel.
  set (file' := delete (unitName (int (t - limit (ctx st))))
                  (<[unitName (id u) := Some (encoded u)]> (disk st))).
  set (s' := {| limit := limit (ctx st); db := OpenDB;
                unit_ptr := Some (initUnit zeroUnit t) |}).
  assert (isInt (limit (ctx st))) as Hli by (revert H2 Hmax; in_range).
  assert (isInt (t - limit (ctx st) + 1)) as Hfirst
    by (revert Ht Hold H2 Hmax; in_range).
  destruct (windowUnits_live s' (initUnit zeroUnit t) t file' fuel)
    as [Hwin Hlen]; try done; [cbn; lia|].
  cbn [limit s'] in Hwin, Hlen. rewrite (int_id _ Hfirst) in Hwin, Hlen.
  eexists {| ctx := s'; disk := file' |}, _.
  split; [apply periodicFlush_calm; [done..|lia]|].
  cbn [ctx disk]. split; [exact Hwin|]. split; [exact Hlen|].
  split.
  { rewrite lookup_app_r by (rewrite length_recordsFrom; lia).
    by rewrite length_recordsFrom, Nat.sub_diag. }
  assert (Hload : ∀ k, 0 ≤ k < limit (ctx st) - 1 →
    (recordsFrom file' (t - limit (ctx st) + 1)
       (Z.to_nat (limit (ctx st) - 1)) ++ [encoded (initUnit zeroUnit t)])
      !! Z.to_nat k
    = Some (default emptyRecord
        (if decide (t - limit (ctx st) + 1 + k = id u) then Some (encoded u)
         else loadUnitFromDB (disk st) (t - limit (ctx st) + 1 + k)))).
  { intros k Hk. rewrite lookup_app_l by (rewrite length_recordsFrom; lia).
    rewrite recordsFrom_lookup; [|done| |lia].
    2:{ rewrite Z2Nat.id by lia.
        replace (t - limit (ctx st) + 1 + (limit (ctx st) - 1)) with t by lia.
        done. }
    rewrite Z2Nat.id by lia. do 2 f_equal. unfold file'.
    rewrite (int_id (t - limit (ctx st))) by done.
    apply loadUnitFromDB_rotated; [| done | | lia].
    - rewrite Hid. revert Ht Hold H2 Hmax. in_range.
    - revert Ht Hold H2 Hmax Hk. in_range. }
  split.
  - rewrite Hload by lia. rewrite decide_True by lia. done.
  - intros k Hk. rewrite Hload by lia. rewrite decide_False by lia. done.
Qed.

Lemma X18_rotation_then_window_instance :
  ∃ st' units,
    periodicFlush (calm 101) {| ctx := busyCtx; disk := ∅ |} = Done (Some st')
    ∧ windowUnits 100 (ctx st') 101 (disk st') = Done units
    ∧ length units = 24%nat
    ∧ units !! 22%nat = Some (encoded busyUnit).
Proof.
  destruct (X18_rotation_then_window 100 {| ctx := busyCtx; disk := ∅ |}
              busyUnit 101)
    as (st' & units & Hrun & Hwin & Hlen & _ & Hprev & _).
  - reflexivity.
  - reflexivity.
  - reflexivity.
  - in_range.
  - simpl. in_range.
  - simpl. lia.
  - simpl. rewrite halfModulus_eq. lia.
  - simpl. lia.
  - exists st', units. split; [exact Hrun|]. split; [exact Hwin|].
    split; [simpl in Hlen; lia|exact Hprev].
Defined.

(** ** Grand totals *)

Lemma index_lookup {A} (l : list A) k x :
  index l k = Done x → 0 ≤ k ∧ l !! Z.to_nat k = Some x.
Proof.
  unfold index. destruct (Z.ltb_spec k 0); [done|].
  destruct (l !! Z.to_nat k); [|done]. intros [= ->]. split; [lia|done].
Qed.

Lemma addResult_inv sum u k r :
  addResult sum u k = Done r →
  ∃ old v, 0 ≤ k ∧ sum !! Z.to_nat k = Some old ∧ u !! Z.to_nat k = Some v
           ∧ r = <[Z.to_nat k := uint (old + v)]> sum.
Proof.
  unfold addResult. intros H.
  run_inv H (index sum k) old. run_inv H (index u k) v.
  injection H as <-.
  match goal with H1 : index sum k = _, H2 : index u k = _ |- _ =>
    apply index_lookup in H1 as [? ?]; apply index_lookup in H2 as [_ ?] end.
  by exists old, v.
Qed.

(** One turn of the loop of the total counters, seen at the counter of a
    classification it adds up. *)
Lemma addResults_lookup sum u r1 r2 r3 r4 k old :
  addResult sum u RFiltered = Done r1 →
  addResult r1 u RSafeBrowsing = Done r2 →
  addResult r2 u RSafeSearch = Done r3 →
  addResult r3 u RParental = Done r4 →
  k ∈ [RFiltered; RSafeBrowsing; RSafeSearch; RParental] →
  sum !! Z.to_nat k = Some old →
  r4 !! Z.to_nat k = Some (uint (old + default 0 (u !! Z.to_nat k))).
Proof.
  intros H1 H2 H3 H4 Hk Hold.
  apply addResult_inv in H1 as (o1 & v1 & _ & Ho1 & Hv1 & ->).
  apply addResult_inv in H2 as (o2 & v2 & _ & Ho2 & Hv2 & ->).
  apply addResult_inv in H3 as (o3 & v3 & _ & Ho3 & Hv3 & ->).
  apply addResult_inv in H4 as (o4 & v4 & _ & Ho4 & Hv4 & ->).
  unfold RFiltered, RSafeBrowsing, RSafeSearch, RParental in *.
  assert (Hlen : (Z.to_nat k < length sum)%nat)
    by (by eapply lookup_lt_Some).
  repeat (apply elem_of_cons in Hk as [->|Hk]);
    [| | | |by apply elem_of_nil in Hk].
  - rewrite !list_lookup_insert_ne by lia.
    rewrite list_lookup_insert_eq by lia. rewrite Hv1. simpl. congruence.
  - rewrite !list_lookup_insert_ne by lia.
    rewrite list_lookup_insert_eq by (rewrite ?length_insert; lia).
    rewrite list_lookup_insert_ne in Ho2 by lia. rewrite Hv2. simpl. congruence.
  - rewrite !list_lookup_insert_ne by lia.
    rewrite list_lookup_insert_eq by (rewrite ?length_insert; lia).
    rewrite !list_lookup_insert_ne in Ho3 by lia. rewrite Hv3. simpl.
    congruence.
  - rewrite list_lookup_insert_eq by (rewrite ?length_insert; lia).
    rewrite !list_lookup_insert_ne in Ho4 by lia. rewrite Hv4. simpl.
    congruence.
Qed.

Lemma totalCounters_kind units : ∀ sum timeN sum' timeN' k old,
  totalCounters units sum timeN = Done (sum', timeN') →
  k ∈ [RFiltered; RSafeBrowsing; RSafeSearch; RParental] →
  NResult sum !! Z.to_nat k = Some old → isUint old →
  NResult sum' !! Z.to_nat k = Some (uint (old + kindSum k units)).
Proof.
  induction units as [|u units IH];
    intros sum timeN sum' timeN' k old H Hk Hold Hu.
  - simpl in H. injection H as <- <-. unfold kindSum, sumBy. simpl.
    by rewrite Z.add_0_r, uint_id.
  - cbn [totalCounters] in H.
    destruct (addResult (NResult sum) (NResult u) RFiltered)
      as [r1| | |] eqn:E1; [rewrite bind_Done in H|discriminate H..].
    destruct (addResult r1 (NResult u) RSafeBrowsing)
      as [r2| | |] eqn:E2; [rewrite bind_Done in H|discriminate H..].
    destruct (addResult r2 (NResult u) RSafeSearch)
      as [r3| | |] eqn:E3; [rewrite bind_Done in H|discriminate H..].
    destruct (addResult r3 (NResult u) RParental)
      as [r4| | |] eqn:E4; [rewrite bind_Done in H|discriminate H..].
    pose proof (addResults_lookup _ _ _ _ _ _ k old E1 E2 E3 E4 Hk Hold) as Hr.
    eapply IH in H; [|done|exact Hr|apply uint_isUint].
    rewrite H, uint_add_l. unfold kindSum, sumBy. simpl. do 2 f_equal. lia.
Qed.

Lemma totalCounters_TimeAvg units : ∀ sum timeN sum' timeN',
  totalCounters units sum timeN = Done (sum', timeN') →
  isUint (TimeAvg sum) →
  TimeAvg sum' = uint (TimeAvg sum + sumBy TimeAvg units).
Proof.
  induction units as [|u units IH]; intros sum timeN sum' timeN' H Hu.
  - simpl in H. injection H as <- <-. unfold sumBy. simpl.
    by rewrite Z.add_0_r, uint_id.
  - cbn [totalCounters] in H.
    run_inv H (addResult (NResult sum) (NResult u) RFiltered) r1.
    run_inv H (addResult r1 (NResult u) RSafeBrowsing) r2.
    run_inv H (addResult r2 (NResult u) RSafeSearch) r3.
    run_inv H (addResult r3 (NResult u) RParental) r4.
    apply IH in H; [|apply uint_isUint]. cbn [TimeAvg] in H.
    rewrite H, uint_add_l. unfold sumBy. simpl. f_equal. lia.
Qed.

(** X19: whatever the granularity, the scalar totals of a returned
    result are sums over the records of the window, taken as [uint]
    sums: [num_dns_queries] adds up the totals of the records, and
    [num_blocked_filtering], [num_replaced_safebrowsing],
    [num_replaced_safesearch] and [num_replaced_parental] add up their
    counters for the classifications filtered, safe-browsing, safe-search
    and parental. *)
Theorem X19_totals_are_window_sums
    (fuel : nat) (e : env) (st : state) (timeUnit : TimeUnit) (d : statsData) :
  GetData fuel e st timeUnit = Done (Some d) →
  ∃ units,
    windowUnits fuel (ctx st) (now e) (disk st) = Done units
    ∧ num_dns_queries d = uint (sumBy NTotal units)
    ∧ num_blocked_filtering d = uint (kindSum RFiltered units)
    ∧ num_replaced_safebrowsing d = uint (kindSum RSafeBrowsing units)
    ∧ num_replaced_safesearch d = uint (kindSum RSafeSearch units)
    ∧ num_replaced_parental d = uint (kindSum RParental units).
Proof.
  intros H. apply GetData_inv in H
    as (units & sum & timeN & _ & Hwin & _ & _ & _ & _ & _ & _ & _ & _
        & Htot & Hnum & N1 & N2 & N3 & N4 & _).
  exists units. split; [done|]. split.
  { rewrite Hnum, (totalCounters_NTotal _ _ _ _ _ Htot) by (cbn; in_range).
    by rewrite Z.add_0_l. }
  assert (Hkind : ∀ k x,
    k ∈ [RFiltered; RSafeBrowsing; RSafeSearch; RParental] →
    index (NResult sum) k = Done x → x = uint (kindSum k units)).
  { intros k x Hk Hx. apply index_lookup in Hx as [_ Hx].
    rewrite (totalCounters_kind _ _ _ _ _ k 0 Htot Hk) in Hx.
    - rewrite Z.add_0_l in Hx. congruence.
    - unfold RFiltered, RSafeBrowsing, RSafeSearch, RParental in Hk.
      repeat (apply elem_of_cons in Hk as [->|Hk]);
        [reflexivity..|by apply elem_of_nil in Hk].
    - in_range. }
  repeat split; (apply Hkind; [|done]); set_solver.
Qed.

Lemma X19_totals_instance :
  ∃ d,
    GetData 100 (calm 100) twoBuckets Days = Done (Some d)
    ∧ num_dns_queries d = 14
    ∧ num_blocked_filtering d = 0.
Proof.
  assert (∃ d, GetData 100 (calm 100) twoBuckets Days = Done (Some d))
    as [d Hd] by (eexists; vm_compute; reflexivity).
  destruct (X19_totals_are_window_sums 100 (calm 100) twoBuckets Days d Hd)
    as (units & Hwin & Hnum & Hblk & _).
  assert (windowUnits 100 (ctx twoBuckets) (now (calm 100)) (disk twoBuckets)
          = Done (recordsFrom (disk twoBuckets) 77 23
                    ++ [encoded (initUnit zeroUnit 100)])) as Hc
    by (vm_compute; reflexivity).
  rewrite Hc in Hwin. injection Hwin as <-.
  exists d. split; [exact Hd|]. rewrite Hnum, Hblk.
  split; vm_compute; reflexivity.
Defined.

(** X20: hourly rotation keeps the file within the retention.  If,
    before the rotation from hour [t - 1] to hour [t], the file holds no
    bucket for an hour at or below [t - 1 - limit], then after it (the
    store accepting the rotation, [limit >= 2]) the file holds no bucket
    for an hour at or below [t - limit]; the bucket of hour [t - 1] holds
    the record of the retired unit and the buckets of the hours in
    between are as they were. *)
Theorem X20_rotation_keeps_retention_bound (st : state) (u : unit) (t : Z) :
  unit_ptr (ctx st) = Some u → db (ctx st) = OpenDB → id u = t - 1 →
  isInt t → isInt (t - limit (ctx st)) → 2 ≤ limit (ctx st) →
  (∀ i, isInt i → i ≤ t - 1 - limit (ctx st) →
        disk st !! unitName i = None) →
  ∃ st',
    periodicFlush (calm t) st = Done (Some st')
    ∧ limit (ctx st') = limit (ctx st)
    ∧ (∀ i, isInt i → i ≤ t - limit (ctx st) →
            disk st' !! unitName i = None)
    ∧ disk st' !! unitName (t - 1) = Some (Some (encoded u))
    ∧ (∀ i, isInt i → t - limit (ctx st) < i < t - 1 →
            disk st' !! unitName i = disk st !! unitName i).
Proof.
  intros Hu Hdb Hid Ht Hold H2 Hinv.
  assert (isInt (t - 1)) as Ht1 by (revert Ht Hold H2; in_range).
  eexists. split; [apply periodicFlush_calm; [done..|lia]|].
  cbn [ctx disk limit]. split; [done|].
  rewrite (int_id (t - limit (ctx st))) by done. rewrite Hid.
  assert (Hne : ∀ a b, isInt a → isInt b → a ≠ b → unitName a ≠ unitName b)
    by (intros a b Ha Hb Hab Heq; by apply Hab, unitName_inj).
  split; [|split].
  - intros i Hi Hle. destruct (decide (i = t - limit (ctx st))) as [->|Hn].
    + apply lookup_delete_eq.
    + rewrite lookup_delete_ne by (apply Hne; [done..|lia]).
      rewrite lookup_insert_ne by (apply Hne; [done..|lia]).
      apply Hinv; [done|lia].
  - rewrite lookup_delete_ne by (apply Hne; [done..|lia]).
    apply lookup_insert_eq.
  - intros i Hi Hbetween.
    rewrite lookup_delete_ne by (apply Hne; [done..|lia]).
    apply lookup_insert_ne. apply Hne; [done..|lia].
Qed.

Lemma X20_rotation_bound_instance :
  ∃ st',
    periodicFlush (calm 101)
      {| ctx := busyCtx; disk := {[ unitName 77 := Some bucketB ]} |}
    = Done (Some st')
    ∧ disk st' !! unitName 77 = None
    ∧ disk st' !! unitName 100 = Some (Some (encoded busyUnit)).
Proof.
  destruct (X20_rotation_keeps_retention_bound
              {| ctx := busyCtx; disk := {[ unitName 77 := Some bucketB ]} |}
              busyUnit 101) as (st' & Hrun & _ & Hgone & Hkept & _).
  - reflexivity.
  - reflexivity.
  - reflexivity.
  - in_range.
  - simpl. in_range.
  - simpl. lia.
  - intros i Hi Hle. simpl in Hle. apply lookup_singleton_ne.
    intros Heq. apply unitName_inj in Heq; [lia|in_range|done].
  - exists st'. split; [exact Hrun|]. split; [|exact Hkept].
    apply Hgone; [in_range|simpl; lia].
Defined.

End Stats.
